(** * RusVim/engine: resource-to-scene attachment pipeline

    A shallow embedding of
    - [src/resources/render.js]: the render-asset handler ([RenderHandler]),
      the texture handler ([TextureHandler]) and its mip-chain completion
      pass ([_completePartialMipmapChain]);
    - the render component ([RenderComponent]) and its property setters.

    JavaScript objects that are shared by reference (mesh instances held by
    the component and by the layers, render assets held by registry
    subscriptions) live in explicit stores and are named by references.
    Exceptions are results: a function that can raise returns an [Outcome]
    carrying the state reached when the exception left the function. *)

From Stdlib Require Import ZArith Bool Lia Ascii String.
From stdpp Require Import gmap strings list.

Local Open Scope Z_scope.

(** ** JavaScript values and operators used by the sources *)
Module Js.

(** [OtherError] is an exception a collaborator throws with [new Error]. *)
Inductive JsError := TypeError | ReferenceError | OtherError.

(** The result of running a statement sequence on a state of type [S]:
    normal completion, or an exception thrown after the mutations done so
    far (they persist in JavaScript). *)
Inductive Outcome (S : Type) :=
| Normal (s : S)
| Thrown (e : JsError) (s : S).
Arguments Normal {S} s.
Arguments Thrown {S} e s.

(** Sequencing: the continuation runs only after normal completion. *)
Definition and_then {S : Type} (o : Outcome S) (k : S -> Outcome S) : Outcome S :=
  match o with
  | Normal s => k s
  | Thrown e s => Thrown e s
  end.

(** Values a caller can pass where the source expects a url. *)
Inductive JsVal :=
| VUndefined
| VNull
| VBool (b : bool)
| VNumber (z : Z)
| VNaN
| VString (s : string).

(** ToBoolean. *)
Definition truthy (v : JsVal) : bool :=
  match v with
  | VUndefined | VNull | VNaN => false
  | VBool b => b
  | VNumber z => negb (z =? 0)
  | VString s => negb (String.eqb s "")
  end.

(** ToInt32 on an integral number: reduction modulo 2^32 into
    [-2^31, 2^31). *)
Definition toInt32 (z : Z) : Z := (z + 2 ^ 31) mod 2 ^ 32 - 2 ^ 31.

(** [a >> b]: the left operand is converted with ToInt32, the shift count is
    taken modulo 32, the shift is arithmetic. *)
Definition sar (a b : Z) : Z := Z.shiftr (toInt32 a) (b mod 32).

End Js.

(** ** Texture handler: [src/resources/render.js], second part *)
Module Texture.
Import Js.

(** [pc.PIXELFORMAT_*]: the three formats the handler names; any other
    format of the engine is [PIXELFORMAT_OTHER]. *)
Inductive PixelFormat :=
| PIXELFORMAT_R8_G8_B8
| PIXELFORMAT_R8_G8_B8_A8
| PIXELFORMAT_RGBA32F
| PIXELFORMAT_OTHER (code : Z).

(** The constructor of a typed array, [data.constructor]. *)
Inductive ArrayCtor := Uint8Array | Float32Array.

(** Element arithmetic of the typed arrays. The source adds elements into
    a double ([sum]) and stores [sum / xsys] back into a typed array; the
    8-bit instance below is exact integer arithmetic, the 32-bit float one
    rounds, so the arithmetic is an interface and the length and index
    structure of [downsample] is proved for every instance. *)
Class PixelArith := {
  px : Type;                                (* an element of a typed array *)
  acc : Type;                               (* the double [sum] *)
  px_zero : px;                             (* element of a fresh typed array *)
  acc_zero : acc;                           (* [var sum = 0] *)
  acc_add : acc -> option px -> acc;        (* [sum += data[i]], [data[i]] undefined out of range *)
  store_avg : ArrayCtor -> acc -> Z -> px   (* [sampledData[j] = sum / xsys] *)
}.

(** 8-bit channels: [sum] is an exact integer or NaN ([None], after adding
    [undefined]); storing into a [Uint8Array] truncates and wraps modulo
    256, NaN is stored as 0. *)
Definition u8_arith : PixelArith := {|
  px := Z;
  acc := option Z;
  px_zero := 0;
  acc_zero := Some 0;
  acc_add := fun sum d =>
    match sum, d with
    | Some s, Some v => Some (s + v)
    | _, _ => None
    end;
  store_avg := fun _ sum xsys =>
    match sum with
    | Some s => (s / xsys) mod 256
    | None => 0
    end
|}.

Section Model.
Context {PA : PixelArith}.

(** What a slot of the level array holds. *)
Inductive Source :=
| TypedArray (c : ArrayCtor) (elems : list px)
| HtmlElement          (* HTMLCanvasElement, HTMLImageElement or HTMLVideoElement *)
| NullSource.          (* null or undefined *)

(** [texture._levels]: one source per level, or an array of faces per level
    for a cube map ([texture._cubemap]). *)
Inductive Levels :=
| Flat (ls : list Source)
| Cube (ls : list (list Source)).

(** An entry of [texture._levelsUpdated]. *)
Inductive Updated :=
| Flag (b : bool)
| FaceFlags (bs : list bool).

Record Texture := {
  _width : Z;
  _height : Z;
  _format : PixelFormat;
  _volume : bool;
  _compressed : bool;
  _levels : Levels;
  _levelsUpdated : list Updated
}.

Definition _cubemap (t : Texture) : bool :=
  match _levels t with
  | Cube _ => true
  | Flat _ => false
  end.

Definition levels_length (t : Texture) : Z :=
  match _levels t with
  | Flat ls => Z.of_nat (length ls)
  | Cube ls => Z.of_nat (length ls)
  end.

Definition set_levels (t : Texture) (ls : Levels) : Texture :=
  {| _width := _width t; _height := _height t; _format := _format t;
     _volume := _volume t; _compressed := _compressed t;
     _levels := ls; _levelsUpdated := _levelsUpdated t |}.

Definition set_levelsUpdated (t : Texture) (u : list Updated) : Texture :=
  {| _width := _width t; _height := _height t; _format := _format t;
     _volume := _volume t; _compressed := _compressed t;
     _levels := _levels t; _levelsUpdated := u |}.

(** [a[i]] on an array: undefined when [i] is not an index of [a]. *)
Definition js_index {A : Type} (a : list A) (i : Z) : option A :=
  if i <? 0 then None else a !! Z.to_nat i.

(** [requiredMipLevels = Math.log2(Math.max(w, h)) + 1] is a double, and
    the source only compares it with integers [n >= 0]. For a maximum [m]
    below [2^31], the range in which the shifts of the sizes keep their
    value, the double lies on the same side of every integer as the real
    number [log2 m + 1]: it is an integer exactly when [m] is a power of
    two, since otherwise [log2 m] is at least [2^-31] away from an
    integer while a double below 32 is accurate to [2^-48]. There
    [n < log2 m + 1] is [2^n < 2 m] and [n = log2 m + 1] is [2^n = 2 m];
    for [m <= 0] the double is -Infinity or NaN and both comparisons are
    false, as are the two integer tests. For powers of two of any size
    [Math.log2] is taken to be exact. From [m = 2^49 + 1] on the double
    of a size that is not a power of two rounds to an integer, and the
    two tests below, which stay those of the real number, are no longer
    those of the source: [log2_exact] names the bound, and what is proved
    for every size from the outcome of a comparison assumes it. *)
Definition lt_requiredMipLevels (n m : Z) : bool := 2 ^ n <? 2 * m.
Definition eq_requiredMipLevels (n m : Z) : bool := 2 ^ n =? 2 * m.

(** The sizes for which the two tests above are those of the source. *)
Definition log2_exact (t : Texture) : Prop :=
  Z.max (_width t) (_height t) < 2 ^ 31.

Definition isHtmlElement (o : option Source) : bool :=
  match o with
  | Some HtmlElement => true
  | _ => false
  end.

(** [isHtmlElement(texture._cubemap ? texture._levels[0][0] : texture._levels[0])];
    [None] when indexing an undefined level 0 of a cube map raises. *)
Definition level0_isHtmlElement (t : Texture) : option bool :=
  match _levels t with
  | Flat ls => Some (isHtmlElement (js_index ls 0))
  | Cube ls =>
      match js_index ls 0 with
      | Some faces => Some (isHtmlElement (js_index faces 0))
      | None => None
      end
  end.

(** The guard of [_completePartialMipmapChain] up to, and excluding, the
    test of level 0. *)
Definition skips_completion (t : Texture) : bool :=
  let requiredOf := Z.max (_width t) (_height t) in
  negb (match _format t with
        | PIXELFORMAT_R8_G8_B8_A8 | PIXELFORMAT_RGBA32F => true
        | _ => false
        end)
  || _volume t
  || _compressed t
  || (levels_length t =? 1)
  || eq_requiredMipLevels (levels_length t) requiredOf.

(** The inner loops of [downsample]: the sum over the footprint of the
    sampled texel [(x, y)], channel [e]. *)
Definition footprint_sum (data : list px) (width xs ys x y e : Z) : acc :=
  foldl (fun sum sy =>
    foldl (fun sum sx =>
      acc_add sum (js_index data ((x * xs + sx + (y * ys + sy) * width) * 4 + e)))
      sum (seqZ 0 xs))
    acc_zero (seqZ 0 ys).

(** One typed-array write, [a[i] = v]; out of range it is ignored. *)
Definition ta_write (a : list px) (i : Z) (v : px) : list px :=
  if i <? 0 then a else <[Z.to_nat i := v]> a.

(** [downsample(width, height, data)]; [None] when [new data.constructor]
    raises a TypeError ([data] undefined, null or a media element). *)
Definition downsample (width height : Z) (data : Source) : option Source :=
  match data with
  | TypedArray c elems =>
      let sampledWidth := Z.max 1 (sar width 1) in
      let sampledHeight := Z.max 1 (sar height 1) in
      let sampledData :=
        replicate (Z.to_nat (sampledWidth * sampledHeight * 4)) px_zero in
      let xs := width / sampledWidth in
      let ys := height / sampledHeight in
      let xsys := xs * ys in
      Some (TypedArray c
        (foldl (fun sd y =>
          foldl (fun sd x =>
            foldl (fun sd e =>
              ta_write sd ((x + y * sampledWidth) * 4 + e)
                (store_avg c (footprint_sum elems width xs ys x y e) xsys))
              sd (seqZ 0 4))
            sd (seqZ 0 sampledWidth))
          sampledData (seqZ 0 sampledHeight)))
  | HtmlElement | NullSource => None
  end.

(** The body of the level loop for a flat texture:
    [downsample(width, height, texture._levels[level - 1])]. *)
Definition synth_flat (width height : Z) (prev : option Source) : option Source :=
  match prev with
  | Some data => downsample width height data
  | None => None
  end.

(** The face loop: [mips.push(downsample(width, height,
    texture._levels[level - 1][face]))] for the six faces. *)
Fixpoint synth_faces (width height : Z) (faces : list Source) (todo : list Z)
    : option (list Source) :=
  match todo with
  | [] => Some []
  | face :: rest =>
      match js_index faces face with
      | Some data =>
          match downsample width height data with
          | Some mip =>
              match synth_faces width height faces rest with
              | Some mips => Some (mip :: mips)
              | None => None
              end
          | None => None
          end
      | None => None
      end
  end.

Definition synth_cube (width height : Z) (prev : option (list Source))
    : option (list Source) :=
  match prev with
  | Some faces => synth_faces width height faces (seqZ 0 6)
  | None => None
  end.

(** [for (var level = texture._levels.length; level < requiredMipLevels; ++level)]
    with [synth] the loop body. [None] is fuel exhaustion; an exception in
    the body leaves the levels pushed so far. *)
Fixpoint level_loop {L : Type} (synth : Z -> Z -> option L -> option L)
    (W H : Z) (fuel : nat) (level : Z) (levels : list L)
    : option (Outcome (list L)) :=
  match fuel with
  | O => None
  | S fuel' =>
      if lt_requiredMipLevels level (Z.max W H) then
        let width := Z.max 1 (sar W (level - 1)) in
        let height := Z.max 1 (sar H (level - 1)) in
        match synth width height (js_index levels (level - 1)) with
        | Some mip => level_loop synth W H fuel' (level + 1) (levels ++ [mip])
        | None => Some (Thrown TypeError levels)
        end
      else Some (Normal levels)
  end.

(** Fuel that always suffices: the loop ends before level
    [log2_up(2 * max(W, H))]. *)
Definition loop_fuel (W H : Z) : nat :=
  S (Z.to_nat (Z.log2_up (2 * Z.max W H))).

Definition all_faces_updated : list Updated :=
  [FaceFlags [true; true; true; true; true; true]].

(** [_completePartialMipmapChain(texture)]: the texture after the call. *)
Definition _completePartialMipmapChain (t : Texture) : option (Outcome Texture) :=
  if skips_completion t then Some (Normal t)
  else
    match level0_isHtmlElement t with
    | None => Some (Thrown TypeError t)
    | Some true => Some (Normal t)
    | Some false =>
        let W := _width t in
        let H := _height t in
        match _levels t with
        | Flat ls =>
            match level_loop synth_flat W H (loop_fuel W H) (Z.of_nat (length ls)) ls with
            | Some (Normal ls') =>
                Some (Normal (set_levelsUpdated (set_levels t (Flat ls')) [Flag true]))
            | Some (Thrown e ls') => Some (Thrown e (set_levels t (Flat ls')))
            | None => None
            end
        | Cube ls =>
            match level_loop synth_cube W H (loop_fuel W H) (Z.of_nat (length ls)) ls with
            | Some (Normal ls') =>
                Some (Normal (set_levelsUpdated (set_levels t (Cube ls')) all_faces_updated))
            | Some (Thrown e ls') => Some (Thrown e (set_levels t (Cube ls')))
            | None => None
            end
        end
    end.

(** *** The handler *)

Inductive ParserId := DdsParser | KtxParser | BasisParser | ImgParser.

(** What [this.parsers[ext] || this.imgParser] evaluates to: a parser, or a
    property that the object literal inherits from [Object.prototype]
    (truthy, without an [open] method). *)
Inductive Selected :=
| SelParser (p : ParserId)
| SelInherited.

(** What a parser's [open] returns. *)
Inductive ParseResult :=
| PTexture (t : Texture)
| PNull
| PUndefined
| PThrow (e : JsError).

(** The options object of [new pc.Texture(device, options)]. *)
Record TextureOptions := {
  opt_width : Z;
  opt_height : Z;
  opt_format : PixelFormat
}.

(** The collaborators of the handler that are not part of these sources:
    the parsers, [pc.path.getExtension], [String.prototype.toLowerCase] and
    the constructor [pc.Texture]. *)
Class Host := {
  Data : Type;
  parser_open : ParserId -> string -> Data -> ParseResult;
  getExtension : string -> string;
  toLowerCase : string -> string;
  newTexture : TextureOptions -> Texture
}.

Context {HO : Host}.

(** [url.indexOf('?') >= 0]. *)
Fixpoint has_question (s : string) : bool :=
  match s with
  | EmptyString => false
  | String c r => Ascii.eqb c "?"%char || has_question r
  end.

(** [url.split('?')[0]]. *)
Fixpoint split_question_head (s : string) : string :=
  match s with
  | EmptyString => EmptyString
  | String c r =>
      if Ascii.eqb c "?"%char then EmptyString else String c (split_question_head r)
  end.

Definition _getUrlWithoutParams (url : string) : string :=
  if has_question url then split_question_head url else url.

(** [s.replace('.', '')]: the first dot is removed. *)
Fixpoint replace_dot (s : string) : string :=
  match s with
  | EmptyString => EmptyString
  | String c r => if Ascii.eqb c "."%char then r else String c (replace_dot r)
  end.

(** Property names every object literal inherits from [Object.prototype]. *)
Definition object_prototype_keys : list string :=
  ["constructor"; "__proto__"; "hasOwnProperty"; "isPrototypeOf";
   "propertyIsEnumerable"; "toLocaleString"; "toString"; "valueOf";
   "__defineGetter__"; "__defineSetter__"; "__lookupGetter__";
   "__lookupSetter__"]%string.

Definition _getParser (url : string) : Selected :=
  let ext := replace_dot (toLowerCase (getExtension (_getUrlWithoutParams url))) in
  if String.eqb ext "dds" then SelParser DdsParser
  else if String.eqb ext "ktx" then SelParser KtxParser
  else if String.eqb ext "basis" then SelParser BasisParser
  else if existsb (String.eqb ext) object_prototype_keys then SelInherited
  else SelParser ImgParser.

(** Calls the handler makes on its collaborators, in order. *)
Inductive Effect :=
| ParserOpen (p : ParserId) (url : string)
| NewTexture (o : TextureOptions).

Inductive OpenResult :=
| Returned (t : option Texture)     (* [None]: undefined *)
| Raised (e : JsError).

Definition placeholder_options : TextureOptions :=
  {| opt_width := 4; opt_height := 4; opt_format := PIXELFORMAT_R8_G8_B8 |}.

(** [TextureHandler.prototype.open(url, data, asset)]: the calls made and
    the completion; [None] is fuel exhaustion in the completion pass. *)
Definition open (url : JsVal) (data : Data) : option (list Effect * OpenResult) :=
  if negb (truthy url) then Some ([], Returned None)
  else
    match url with
    | VString u =>
        match _getParser u with
        | SelInherited => Some ([], Raised TypeError)
        | SelParser p =>
            match parser_open p u data with
            | PThrow e => Some ([ParserOpen p u], Raised e)
            | PNull =>
                Some ([ParserOpen p u; NewTexture placeholder_options],
                      Returned (Some (newTexture placeholder_options)))
            | PUndefined => Some ([ParserOpen p u], Raised TypeError)
            | PTexture t =>
                match _completePartialMipmapChain t with
                | Some (Normal t') => Some ([ParserOpen p u], Returned (Some t'))
                | Some (Thrown e _) => Some ([ParserOpen p u], Raised e)
                | None => None
                end
            end
        end
    | _ => Some ([], Raised TypeError)   (* [url.indexOf] is not a function *)
    end.

(** [texture._levelsUpdated[level] === true], read at [face] when the entry
    is an array of face flags. *)
Definition level_dirty (t : Texture) (level face : nat) : bool :=
  match _levelsUpdated t !! level with
  | Some (Flag b) => b
  | Some (FaceFlags bs) => default false (bs !! face)
  | None => false
  end.

(** The length of a full chain as the specification counts it. *)
Definition full_chain_length (t : Texture) : Z :=
  Z.log2 (Z.max (_width t) (_height t)) + 1.

(** The eligibility predicate in the words of the specification. *)
Definition spec_eligible (t : Texture) : bool :=
  match _format t with
  | PIXELFORMAT_R8_G8_B8_A8 | PIXELFORMAT_RGBA32F => true
  | _ => false
  end
  && negb (_volume t)
  && negb (_compressed t)
  && (1 <? levels_length t)
  && (levels_length t <? full_chain_length t)
  && match level0_isHtmlElement t with
     | Some false => true
     | _ => false
     end.

Definition is_typed_array (s : Source) : bool :=
  match s with
  | TypedArray _ _ => true
  | _ => false
  end.

Definition six_typed_faces (faces : list Source) : bool :=
  forallb (fun face => match js_index faces face with
                       | Some s => is_typed_array s
                       | None => false
                       end)
          (seqZ 0 6).

(** The last level present holds pixel data the pass can resample: a typed
    array, or six of them for a cube map. *)
Definition last_level_ready (t : Texture) : bool :=
  match _levels t with
  | Flat ls => match last ls with
               | Some s => is_typed_array s
               | None => false
               end
  | Cube ls => match last ls with
               | Some faces => six_typed_faces faces
               | None => false
               end
  end.

(** The number of elements of the level synthesized at index [level]: the
    source takes the previous level to be of size
    [max(1, W >> (level - 1))] by [max(1, H >> (level - 1))] and halves
    both. *)
Definition synthesized_size (W H level : Z) : Z :=
  Z.max 1 (sar (Z.max 1 (sar W (level - 1))) 1)
  * Z.max 1 (sar (Z.max 1 (sar H (level - 1))) 1) * 4.

Definition source_size (s : Source) : option Z :=
  match s with
  | TypedArray _ elems => Some (Z.of_nat (length elems))
  | _ => None
  end.

(** The element counts of the buffers stored at index [level]: one for a
    flat texture, one per face for a cube map. *)
Definition level_sizes (t : Texture) (level : Z) : option (list (option Z)) :=
  match _levels t with
  | Flat ls => option_map (fun s => [source_size s]) (js_index ls level)
  | Cube ls => option_map (map source_size) (js_index ls level)
  end.

End Model.


(** *** Concrete textures and a concrete host *)

(** An 8-bit RGBA texture with the given flat levels. *)
Definition rgba8_texture (w h : Z) (ls : list (list Z)) : @Texture u8_arith :=
  {| _width := w; _height := h; _format := PIXELFORMAT_R8_G8_B8_A8;
     _volume := false; _compressed := false;
     _levels := Flat (map (TypedArray (PA := u8_arith) Uint8Array) ls);
     _levelsUpdated := [Flag false] |}.

(** 5x5 with the levels 5x5 and 2x2: the 1x1 level is missing. *)
Definition npot_texture : @Texture u8_arith :=
  rgba8_texture 5 5 [replicate 100 7; replicate 16 9].

(** 4x4 with the levels 4x4 and 2x2: the 1x1 level is missing. *)
Definition pot_texture : @Texture u8_arith :=
  rgba8_texture 4 4 [replicate 64 7; replicate 16 9].

(** The texture the pass leaves for [pot_texture]. *)
Definition pot_completed : @Texture u8_arith :=
  Eval vm_compute in
    match _completePartialMipmapChain pot_texture with
    | Some (Normal t') => t'
    | _ => pot_texture
    end.

(** A host whose parsers find every input non-decodable. *)
Definition null_host : @Host u8_arith := {|
  Data := unit;
  parser_open := fun _ _ _ => PNull;
  getExtension := fun s => s;
  toLowerCase := fun s => s;
  newTexture := fun o =>
    {| _width := opt_width o; _height := opt_height o; _format := opt_format o;
       _volume := false; _compressed := false;
       _levels := Flat [NullSource]; _levelsUpdated := [Flag true] |}
|}.

End Texture.

(** ** Render-asset handler: [src/resources/render.js], first part *)
Module RenderHandler.
Import Js.

(** Identity of a render asset object (the [this] of the callbacks). *)
Definition assetRef := nat.

Section Model.
Context {Meshes : Type}.

(** [new Render()], the resource of a render asset; [meshes] is unset until
    the container has been resolved. *)
Record Render := { meshes : option Meshes }.

(** A render asset: [asset.data.containerAsset], [asset.data.renderIndex]
    and [asset.resource]. *)
Record RenderAsset := {
  data_containerAsset : option Z;     (* [None]: undefined or null *)
  data_renderIndex : Z;
  resource : option Render            (* [None]: falsy *)
}.

(** An entry of [containerResource.renders]; its [resource] is the mesh
    group. *)
Record RenderEntry := { entry_resource : option Meshes }.

Record ContainerResource := { renders : list RenderEntry }.

Record ContainerAsset := {
  id : Z;
  loaded : bool;
  resources : list ContainerResource
}.

Inductive EventKey :=
| EvAdd (i : Z)       (* ['add:' + i] *)
| EvLoad (i : Z).     (* ['load:' + i] *)

#[export] Instance EventKey_eq_dec : EqDecision EventKey.
Proof. solve_decision. Defined.

Inductive Handler := OnContainerAssetLoaded | OnContainerAssetAdded.

#[export] Instance Handler_eq_dec : EqDecision Handler.
Proof. solve_decision. Defined.

(** A registration made with [registry.once(key, handler, scope)]. *)
Record Subscription := {
  sub_key : EventKey;
  sub_handler : Handler;
  sub_scope : assetRef
}.

#[export] Instance Subscription_eq_dec : EqDecision Subscription.
Proof. solve_decision. Defined.

(** The registry and the render assets it knows. [extractions] counts the
    assignments to [renderAsset.resource.meshes]. *)
Record State := {
  assets : gmap Z ContainerAsset;          (* [registry.get] *)
  subs : list Subscription;                (* pending [once] registrations *)
  loads : list Z;                          (* [registry.load] requests, by asset id *)
  renderAssets : gmap assetRef RenderAsset;
  extractions : nat
}.

(** Modelled from the spec: the asset registry ([get], [load], [once],
    [off]; section 6) is not part of these sources. [once] appends a
    registration that fires at most once, [off] removes the registrations
    for the same key, handler and scope, [load] records the request. *)
Definition registry_get (i : Z) (st : State) : option ContainerAsset :=
  assets st !! i.

Definition registry_once (k : EventKey) (h : Handler) (scope : assetRef)
    (st : State) : State :=
  {| assets := assets st;
     subs := subs st ++ [{| sub_key := k; sub_handler := h; sub_scope := scope |}];
     loads := loads st;
     renderAssets := renderAssets st;
     extractions := extractions st |}.

Definition registry_off (k : EventKey) (h : Handler) (scope : assetRef)
    (st : State) : State :=
  {| assets := assets st;
     subs := filter (fun s => s <> {| sub_key := k; sub_handler := h; sub_scope := scope |})
               (subs st);
     loads := loads st;
     renderAssets := renderAssets st;
     extractions := extractions st |}.

Definition registry_load (ca : ContainerAsset) (st : State) : State :=
  {| assets := assets st;
     subs := subs st;
     loads := loads st ++ [id ca];
     renderAssets := renderAssets st;
     extractions := extractions st |}.

(** ToBoolean of [asset.data.containerAsset]: undefined, null and the
    number 0 are falsy. *)
Definition id_truthy (i : option Z) : option Z :=
  match i with
  | Some z => if z =? 0 then None else Some z
  | None => None
  end.

(** [renderAsset.resource.meshes = value]. *)
Definition assign_meshes (a : assetRef) (value : option Meshes) (st : State) : State :=
  {| assets := assets st;
     subs := subs st;
     loads := loads st;
     renderAssets :=
       alter (fun ra => {| data_containerAsset := data_containerAsset ra;
                           data_renderIndex := data_renderIndex ra;
                           resource := (fun _ => {| meshes := value |}) <$> resource ra |})
             a (renderAssets st);
     extractions := S (extractions st) |}.

(** [onContainerAssetLoaded.call(renderAsset, containerAsset)]. *)
Definition onContainerAssetLoaded (a : assetRef) (ca : ContainerAsset)
    (st : State) : Outcome State :=
  match renderAssets st !! a with
  | None => Thrown TypeError st
  | Some ra =>
      match resource ra with
      | None => Normal st
      | Some _ =>
          match resources ca with
          | [] => Thrown TypeError st      (* [containerResource] undefined *)
          | containerResource :: _ =>
              let i := data_renderIndex ra in
              match (if i <? 0 then None else renders containerResource !! Z.to_nat i) with
              | Some render => Normal (assign_meshes a (entry_resource render) st)
              | None => Normal st
              end
          end
      end
  end.

(** [onContainerAssetAdded.call(renderAsset, containerAsset)]. *)
Definition onContainerAssetAdded (a : assetRef) (ca : ContainerAsset)
    (st : State) : Outcome State :=
  if negb (loaded ca) then
    Normal (registry_load ca
             (registry_once (EvLoad (id ca)) OnContainerAssetLoaded a
               (registry_off (EvLoad (id ca)) OnContainerAssetLoaded a st)))
  else onContainerAssetLoaded a ca st.

(** [RenderHandler.prototype.patch(asset, registry)]. When the container is
    not registered, the argument ['add:' + containerAsset.id] reads a
    property of undefined and raises before [once] is called. *)
Definition patch (a : assetRef) (st : State) : Outcome State :=
  match renderAssets st !! a with
  | None => Thrown TypeError st
  | Some ra =>
      match id_truthy (data_containerAsset ra) with
      | None => Normal st
      | Some cid =>
          match registry_get cid st with
          | None => Thrown TypeError st
          | Some containerAsset =>
              if negb (loaded containerAsset) then
                Normal (registry_load containerAsset
                         (registry_once (EvLoad (id containerAsset))
                            OnContainerAssetLoaded a st))
              else onContainerAssetLoaded a containerAsset st
          end
      end
  end.

(** Modelled from the spec: the registry's notifications (section 5: a
    callback fires at most once per registration). Firing a key removes its
    registrations and runs their handlers in registration order with the
    container asset as argument. *)
Definition run_handler (ca : ContainerAsset) (o : Outcome State) (s : Subscription)
    : Outcome State :=
  match o with
  | Normal st =>
      match sub_handler s with
      | OnContainerAssetLoaded => onContainerAssetLoaded (sub_scope s) ca st
      | OnContainerAssetAdded => onContainerAssetAdded (sub_scope s) ca st
      end
  | Thrown e st => Thrown e st
  end.

Definition fire (k : EventKey) (ca : ContainerAsset) (st : State) : Outcome State :=
  let fired := filter (fun s => sub_key s = k) (subs st) in
  let st' := {| assets := assets st;
                subs := filter (fun s => sub_key s <> k) (subs st);
                loads := loads st;
                renderAssets := renderAssets st;
                extractions := extractions st |} in
  foldl (run_handler ca) (Normal st') fired.

(** Modelled from the spec: the container finishes loading. The registry
    stores the loaded asset and emits ["load:<id>"]. *)
Definition finish_load (ca : ContainerAsset) (rs : list ContainerResource)
    (st : State) : Outcome State :=
  let ca' := {| id := id ca; loaded := true; resources := rs |} in
  fire (EvLoad (id ca))  ca'
    {| assets := <[id ca := ca']> (assets st);
       subs := subs st;
       loads := loads st;
       renderAssets := renderAssets st;
       extractions := extractions st |}.

(** Modelled from the spec: a container asset is registered. The registry
    stores it and emits ["add:<id>"]. *)
Definition add_asset (ca : ContainerAsset) (st : State) : Outcome State :=
  fire (EvAdd (id ca)) ca
    {| assets := <[id ca := ca]> (assets st);
       subs := subs st;
       loads := loads st;
       renderAssets := renderAssets st;
       extractions := extractions st |}.

End Model.

Arguments Render : clear implicits.
Arguments RenderAsset : clear implicits.
Arguments RenderEntry : clear implicits.
Arguments ContainerResource : clear implicits.
Arguments ContainerAsset : clear implicits.
Arguments State : clear implicits.

(** *** Concrete registries: render asset 0 refers to container 7, mesh
    group 1; mesh groups are named by numbers. *)
Definition render_asset_0 (r : option (Render nat)) : RenderAsset nat :=
  {| data_containerAsset := Some 7; data_renderIndex := 1; resource := r |}.

Definition container_7_resources : list (ContainerResource nat) :=
  [{| renders := [{| entry_resource := Some 100%nat |};
                  {| entry_resource := Some 101%nat |}] |}].

Definition container_7_unloaded : ContainerAsset nat :=
  {| id := 7; loaded := false; resources := [] |}.

Definition container_7_loaded : ContainerAsset nat :=
  {| id := 7; loaded := true; resources := container_7_resources |}.

Definition registry_with (cs : list (Z * ContainerAsset nat))
    (r : option (Render nat)) : State nat :=
  {| assets := list_to_map cs;
     subs := [];
     loads := [];
     renderAssets := {[ 0%nat := render_asset_0 r ]};
     extractions := 0 |}.

(** The container is not registered; the render asset has a resource. *)
Definition state_unregistered : State nat :=
  registry_with [] (Some {| meshes := None |}).

(** The container is registered and loaded. *)
Definition state_loaded : State nat :=
  registry_with [(7, container_7_loaded)] (Some {| meshes := None |}).

(** The container is registered, not loaded. *)
Definition state_unloaded : State nat :=
  registry_with [(7, container_7_unloaded)] (Some {| meshes := None |}).

(** The container is registered, not loaded, and the render asset has no
    resource. *)
Definition state_unloaded_no_resource : State nat :=
  registry_with [(7, container_7_unloaded)] None.

Definition state_loaded_no_resource : State nat :=
  registry_with [(7, container_7_loaded)] None.

End RenderHandler.

(** ** Render component *)
Module RenderComponent.
Import Js.

(** Identities of the JavaScript objects the component refers to. *)
Definition ref := nat.            (* a [MeshInstance] object *)
Definition nodeRef := nat.        (* an entity *)
Definition meshRef := nat.        (* a [pc.Mesh] *)
Definition materialRef := nat.    (* a [pc.Material] *)

(** The fields of a mesh instance the component reads or writes. *)
Record MeshInstance := {
  node : nodeRef;
  mesh : meshRef;
  material : materialRef;
  castShadow : bool;
  receiveShadow : bool;
  isStatic : bool;
  visible : bool
}.

(** Collaborators that are not part of these sources: the procedural
    primitives ([getShapePrimitive], [None] when it throws) and the
    constructor and the lightmap method of [MeshInstance]. *)
Class Engine := {
  Area : Type;
  getShapePrimitive : string -> option (Area * meshRef);
  newMeshInstance : nodeRef -> meshRef -> materialRef -> MeshInstance;
  setLightmapped : bool -> MeshInstance -> MeshInstance
}.

(** Modelled from the spec: a layer (section 6 and glossary; the layer
    class is not part of these sources) is an ordered collection of mesh
    instances and a shadow-caster set. Adding appends the instances that
    are not members yet, removing deletes every occurrence. *)
Record Layer := {
  meshInstances : list ref;
  shadowCasters : list ref
}.

Definition push_absent (l xs : list ref) : list ref :=
  foldl (fun acc m => if bool_decide (m ∈ acc) then acc else acc ++ [m]) l xs.

Definition remove_all (l xs : list ref) : list ref :=
  filter (fun m => m ∉ xs) l.

Definition Layer_addMeshInstances (mi : list ref) (L : Layer) : Layer :=
  {| meshInstances := push_absent (meshInstances L) mi;
     shadowCasters := shadowCasters L |}.

Definition Layer_removeMeshInstances (mi : list ref) (L : Layer) : Layer :=
  {| meshInstances := remove_all (meshInstances L) mi;
     shadowCasters := shadowCasters L |}.

Definition Layer_addShadowCasters (mi : list ref) (L : Layer) : Layer :=
  {| meshInstances := meshInstances L;
     shadowCasters := push_absent (shadowCasters L) mi |}.

Definition Layer_removeShadowCasters (mi : list ref) (L : Layer) : Layer :=
  {| meshInstances := meshInstances L;
     shadowCasters := remove_all (shadowCasters L) mi |}.

(** The calls and writes whose order the setters fix, as they happen. *)
Inductive Call :=
| LayerAddMeshInstances (lid : Z) (mi : list ref)
| LayerRemoveMeshInstances (lid : Z) (mi : list ref)
| LayerAddShadowCasters (lid : Z) (mi : list ref)
| LayerRemoveShadowCasters (lid : Z) (mi : list ref)
| BatcherInsert (group : Z) (n : nodeRef)
| BatcherRemove (group : Z) (n : nodeRef)
| WriteCastShadow (r : ref) (v : bool)
| AssignMeshInstances (v : option (list ref)).

Section Model.
Context {EN : Engine}.

(** The component; [enabled] is [this.enabled] and [entity_enabled] is
    [this.entity.enabled]. Fields no modelled method reads are left out. *)
Record Component := {
  entity : nodeRef;
  enabled : bool;
  entity_enabled : bool;
  _type : string;
  _castShadows : bool;
  _receiveShadows : bool;
  _lightmapped : bool;
  _isStatic : bool;
  _batchGroupId : Z;
  _meshInstances : option (list ref);     (* [None]: null *)
  _layers : list Z;
  _material : materialRef;
  _area : option Area
}.

(** The component with the objects it shares with the scene:
    the mesh instances ([heap]), the layers by id
    ([scene.layers.getLayerById]), the members of the render batch groups
    by group id, [system._inTools], and the calls made so far. *)
Record World := {
  comp : Component;
  heap : gmap ref MeshInstance;
  layers : gmap Z Layer;
  batchGroups : gmap Z (list nodeRef);
  inTools : bool;
  trace : list Call
}.

Definition upd_comp (f : Component -> Component) (W : World) : World :=
  {| comp := f (comp W); heap := heap W; layers := layers W;
     batchGroups := batchGroups W; inTools := inTools W; trace := trace W |}.

Definition upd_heap (f : gmap ref MeshInstance -> gmap ref MeshInstance) (W : World) : World :=
  {| comp := comp W; heap := f (heap W); layers := layers W;
     batchGroups := batchGroups W; inTools := inTools W; trace := trace W |}.

Definition upd_layers (f : gmap Z Layer -> gmap Z Layer) (W : World) : World :=
  {| comp := comp W; heap := heap W; layers := f (layers W);
     batchGroups := batchGroups W; inTools := inTools W; trace := trace W |}.

Definition upd_batchGroups (f : gmap Z (list nodeRef) -> gmap Z (list nodeRef)) (W : World) : World :=
  {| comp := comp W; heap := heap W; layers := layers W;
     batchGroups := f (batchGroups W); inTools := inTools W; trace := trace W |}.

Definition log (c : Call) (W : World) : World :=
  {| comp := comp W; heap := heap W; layers := layers W;
     batchGroups := batchGroups W; inTools := inTools W; trace := trace W ++ [c] |}.

Definition with_type (v : string) (c : Component) : Component :=
  {| entity := entity c; enabled := enabled c; entity_enabled := entity_enabled c;
     _type := v; _castShadows := _castShadows c; _receiveShadows := _receiveShadows c;
     _lightmapped := _lightmapped c; _isStatic := _isStatic c;
     _batchGroupId := _batchGroupId c; _meshInstances := _meshInstances c;
     _layers := _layers c; _material := _material c; _area := _area c |}.

Definition with_area (v : option Area) (c : Component) : Component :=
  {| entity := entity c; enabled := enabled c; entity_enabled := entity_enabled c;
     _type := _type c; _castShadows := _castShadows c; _receiveShadows := _receiveShadows c;
     _lightmapped := _lightmapped c; _isStatic := _isStatic c;
     _batchGroupId := _batchGroupId c; _meshInstances := _meshInstances c;
     _layers := _layers c; _material := _material c; _area := v |}.

Definition with_meshInstances (v : option (list ref)) (c : Component) : Component :=
  {| entity := entity c; enabled := enabled c; entity_enabled := entity_enabled c;
     _type := _type c; _castShadows := _castShadows c; _receiveShadows := _receiveShadows c;
     _lightmapped := _lightmapped c; _isStatic := _isStatic c;
     _batchGroupId := _batchGroupId c; _meshInstances := v;
     _layers := _layers c; _material := _material c; _area := _area c |}.

Definition with_castShadows (v : bool) (c : Component) : Component :=
  {| entity := entity c; enabled := enabled c; entity_enabled := entity_enabled c;
     _type := _type c; _castShadows := v; _receiveShadows := _receiveShadows c;
     _lightmapped := _lightmapped c; _isStatic := _isStatic c;
     _batchGroupId := _batchGroupId c; _meshInstances := _meshInstances c;
     _layers := _layers c; _material := _material c; _area := _area c |}.

Definition with_receiveShadows (v : bool) (c : Component) : Component :=
  {| entity := entity c; enabled := enabled c; entity_enabled := entity_enabled c;
     _type := _type c; _castShadows := _castShadows c; _receiveShadows := v;
     _lightmapped := _lightmapped c; _isStatic := _isStatic c;
     _batchGroupId := _batchGroupId c; _meshInstances := _meshInstances c;
     _layers := _layers c; _material := _material c; _area := _area c |}.

Definition with_lightmapped (v : bool) (c : Component) : Component :=
  {| entity := entity c; enabled := enabled c; entity_enabled := entity_enabled c;
     _type := _type c; _castShadows := _castShadows c; _receiveShadows := _receiveShadows c;
     _lightmapped := v; _isStatic := _isStatic c;
     _batchGroupId := _batchGroupId c; _meshInstances := _meshInstances c;
     _layers := _layers c; _material := _material c; _area := _area c |}.

Definition with_batchGroupId (v : Z) (c : Component) : Component :=
  {| entity := entity c; enabled := enabled c; entity_enabled := entity_enabled c;
     _type := _type c; _castShadows := _castShadows c; _receiveShadows := _receiveShadows c;
     _lightmapped := _lightmapped c; _isStatic := _isStatic c;
     _batchGroupId := v; _meshInstances := _meshInstances c;
     _layers := _layers c; _material := _material c; _area := _area c |}.

(** The loop shared by the layer methods:
    [for (i = 0; i < this._layers.length; i++) { layer = layers.getLayerById(this._layers[i]); if (layer) layer.op(...) }]. *)
Definition visit_layer (op : Layer -> Layer) (call : Z -> Call) (W : World) (lid : Z)
    : World :=
  match layers W !! lid with
  | Some L => log (call lid) (upd_layers (insert lid (op L)) W)
  | None => W
  end.

Definition for_each_layer (op : Layer -> Layer) (call : Z -> Call) (W : World) : World :=
  foldl (visit_layer op call) W (_layers (comp W)).

Definition resolvable (W : World) (lid : Z) : bool :=
  bool_decide (is_Some (layers W !! lid)).

(** [addToLayers]. With a null list the first resolvable layer is handed
    null and raises when it reads the length of the list. *)
Definition addToLayers (W : World) : Outcome World :=
  match _meshInstances (comp W) with
  | Some mi =>
      Normal (for_each_layer (Layer_addMeshInstances mi)
                (fun lid => LayerAddMeshInstances lid mi) W)
  | None =>
      if existsb (resolvable W) (_layers (comp W)) then Thrown TypeError W
      else Normal W
  end.

(** [removeFromLayers]. *)
Definition removeFromLayers (W : World) : Outcome World :=
  match _meshInstances (comp W) with
  | Some mi =>
      Normal (for_each_layer (Layer_removeMeshInstances mi)
                (fun lid => LayerRemoveMeshInstances lid mi) W)
  | None =>
      if existsb (resolvable W) (_layers (comp W)) then Thrown TypeError W
      else Normal W
  end.

(** [generateWireframe]: the identifier [RENDERSTYLE_WIREFRAME] is not
    imported by the module, so the second loop raises as soon as there is
    a mesh. *)
Definition generateWireframe (W : World) : Outcome World :=
  match _meshInstances (comp W) with
  | None => Thrown TypeError W
  | Some [] => Normal W
  | Some (_ :: _) => Thrown ReferenceError W
  end.

(** Setter of [type]. *)
Definition set_type (value : string) (W : World) : Outcome World :=
  if String.eqb (_type (comp W)) value then Normal W
  else
    let W1 := upd_comp (fun c => with_type value (with_area None c)) W in
    if negb (String.eqb value "asset") then
      match getShapePrimitive value with
      | None => Thrown OtherError W1
      | Some (area, primMesh) =>
          let r := fresh (dom (heap W1)) in
          let c := comp W1 in
          let W2 :=
            log (AssignMeshInstances (Some [r]))
              (upd_comp (fun c => with_meshInstances (Some [r]) (with_area (Some area) c))
                (upd_heap (insert r (newMeshInstance (entity c) primMesh (_material c))) W1)) in
          if inTools W2 then generateWireframe W2 else Normal W2
      end
    else Normal W1.

(** Setter of [lightmapped]. *)
Definition set_lightmapped (value : bool) (W : World) : World :=
  if eqb value (_lightmapped (comp W)) then W
  else
    let W1 := upd_comp (with_lightmapped value) W in
    match _meshInstances (comp W1) with
    | Some mi => upd_heap (fun h => foldl (fun h r => alter (setLightmapped value) r h) h mi) W1
    | None => W1
    end.

(** The stamping loop of the [meshInstances] setter. *)
Definition stamp_flags (c : Component) (m : MeshInstance) : MeshInstance :=
  {| node := node m; mesh := mesh m; material := material m;
     castShadow := _castShadows c;
     receiveShadow := _receiveShadows c;
     isStatic := _isStatic c;
     visible := visible m |}.

(** Setter of [meshInstances]. *)
Definition set_meshInstances (value : option (list ref)) (W : World) : Outcome World :=
  and_then
    (match _meshInstances (comp W) with
     | Some _ => removeFromLayers W
     | None => Normal W
     end)
    (fun W1 =>
       let W2 := log (AssignMeshInstances value) (upd_comp (with_meshInstances value) W1) in
       match value with
       | Some mi =>
           let W3 :=
             upd_heap (fun h => foldl (fun h r => alter (stamp_flags (comp W2)) r h) h mi) W2 in
           let W4 := set_lightmapped (_lightmapped (comp W3)) W3 in
           if enabled (comp W4) && entity_enabled (comp W4) then addToLayers W4
           else Normal W4
       | None => Normal W2
       end).

Definition write_castShadow (v : bool) (m : MeshInstance) : MeshInstance :=
  {| node := node m; mesh := mesh m; material := material m;
     castShadow := v; receiveShadow := receiveShadow m;
     isStatic := isStatic m; visible := visible m |}.

(** The flag loop of the [castShadows] setter:
    [for (i = 0; i < mi.length; i++) mi[i].castShadow = value]. *)
Definition flip_castShadow (value : bool) (mi : list ref) (W : World) : World :=
  foldl (fun W r => log (WriteCastShadow r value)
                      (upd_heap (alter (write_castShadow value) r) W))
        W mi.

(** Setter of [castShadows]. *)
Definition set_castShadows (value : bool) (W : World) : World :=
  if eqb (_castShadows (comp W)) value then W
  else
    let before := _castShadows (comp W) in
    let W3 :=
      match _meshInstances (comp W) with
      | Some mi =>
          let W1 :=
            if before && negb value then
              for_each_layer (Layer_removeShadowCasters mi)
                (fun lid => LayerRemoveShadowCasters lid mi) W
            else W in
          let W2 := flip_castShadow value mi W1 in
          if negb before && value then
            for_each_layer (Layer_addShadowCasters mi)
              (fun lid => LayerAddShadowCasters lid mi) W2
          else W2
      | None => W
      end in
    upd_comp (with_castShadows value) W3.

(** Setter of [receiveShadows]. The loop body names [meshInstances], which
    is bound neither in the setter nor in the module: evaluating it raises
    a ReferenceError in the first iteration. *)
Definition set_receiveShadows (value : bool) (W : World) : Outcome World :=
  if eqb (_receiveShadows (comp W)) value then Normal W
  else
    let W1 := upd_comp (with_receiveShadows value) W in
    match _meshInstances (comp W1) with
    | Some (_ :: _) => Thrown ReferenceError W1
    | Some [] => Normal W1
    | None => Normal W1
    end.

(** Modelled from the spec: the batcher (the batch-group registry of
    section 6; not part of these sources). [insert] registers the node with
    the group; membership excludes direct per-layer draws for the same
    geometry (glossary), so the batcher takes the node's mesh instances out
    of the layers of its component. [remove] takes the node out of the
    group. The component only uses the group kind [BatchGroup.RENDER]. *)
Definition batcher_insert (group : Z) (n : nodeRef) (W : World) : World :=
  let members := default [] (batchGroups W !! group) in
  let W1 :=
    log (BatcherInsert group n)
      (upd_batchGroups (insert group (push_absent members [n])) W) in
  match _meshInstances (comp W1) with
  | Some mi =>
      if bool_decide (n = entity (comp W1)) then
        for_each_layer (Layer_removeMeshInstances mi)
          (fun lid => LayerRemoveMeshInstances lid mi) W1
      else W1
  | None => W1
  end.

Definition batcher_remove (group : Z) (n : nodeRef) (W : World) : World :=
  log (BatcherRemove group n)
    (upd_batchGroups (alter (fun members => remove_all members [n]) group) W).

(** Setter of [batchGroupId]. *)
Definition set_batchGroupId (value : Z) (W : World) : Outcome World :=
  let c := comp W in
  if _batchGroupId c =? value then Normal W
  else
    let W1 :=
      if entity_enabled c && (0 <=? _batchGroupId c) then
        batcher_remove (_batchGroupId c) (entity c) W
      else W in
    let W2 :=
      if entity_enabled c && (0 <=? value) then batcher_insert value (entity c) W1
      else W1 in
    and_then
      (if (value <? 0) && (0 <=? _batchGroupId c) && enabled c && entity_enabled c then
         addToLayers W2
       else Normal W2)
      (fun W3 => Normal (upd_comp (with_batchGroupId value) W3)).

End Model.

(** *** Concrete scenes *)

(** An engine whose primitives all use mesh 9 and whose new mesh instances
    carry the defaults named here. *)
Definition sample_engine : Engine := {|
  Area := unit;
  getShapePrimitive := fun _ => Some (tt, 9%nat);
  newMeshInstance := fun n m mat =>
    {| node := n; mesh := m; material := mat; castShadow := false;
       receiveShadow := true; isStatic := false; visible := true |};
  setLightmapped := fun _ m => m
|}.

Definition sample_instance : MeshInstance :=
  {| node := 1%nat; mesh := 5%nat; material := 3%nat; castShadow := true;
     receiveShadow := true; isStatic := false; visible := true |}.

(** An enabled asset-driven component on entity 1 with the mesh instances
    10 and 11, registered in the world layer (id 0), where they are shadow
    casters next to the instance 20 of another component; the layer id 4 of
    its layer set does not resolve. *)
Definition sample_world : @World sample_engine :=
  {| comp :=
       {| entity := 1%nat; enabled := true; entity_enabled := true;
          _type := "asset"; _castShadows := true; _receiveShadows := true;
          _lightmapped := false; _isStatic := false; _batchGroupId := -1;
          _meshInstances := Some [10%nat; 11%nat]; _layers := [0; 4];
          _material := 3%nat; _area := None |};
     heap := {[ 10%nat := sample_instance; 11%nat := sample_instance;
                20%nat := sample_instance ]};
     layers := {[ 0 := {| meshInstances := [20%nat; 10%nat; 11%nat];
                         shadowCasters := [10%nat; 20%nat; 11%nat] |};
                  2 := {| meshInstances := [20%nat]; shadowCasters := [] |} ]};
     batchGroups := {[ 6 := [] ]};
     inTools := false;
     trace := [] |}.

End RenderComponent.

(** ** Further parts of the sources *)

(** The state an outcome carries. *)
Module JsMore.
Import Js.

Definition outcome_state {S : Type} (o : Outcome S) : S :=
  match o with
  | Normal s => s
  | Thrown _ s => s
  end.

End JsMore.

(** *** Texture handler: observations on byte data, more concrete inputs *)
Module TextureMore.
Import Js Texture.

(** The exact sum of the footprint of the sampled texel [(x, y)], channel
    [e], over byte data: what the double [sum] of [downsample] holds when
    every read is in range. *)
Definition footprint_total (data : list Z) (width xs ys x y e : Z) : Z :=
  foldl (fun sum sy =>
    foldl (fun sum sx =>
      sum + default 0 (js_index data ((x * xs + sx + (y * ys + sy) * width) * 4 + e)))
      sum (seqZ 0 xs))
    0 (seqZ 0 ys).

(** The invariant of the write loops of [downsample] after the texel
    channels at the positions below [k] have been written: they hold their
    value [val x y e], and the array has its length [N]. *)
Definition written {PA : PixelArith} (N sw sh : Z) (val : Z -> Z -> Z -> px)
    (k : Z) (sd : list px) : Prop :=
  Z.of_nat (length sd) = N
  /\ forall x y e, 0 <= x < sw -> 0 <= y < sh -> 0 <= e < 4 ->
       (x + y * sw) * 4 + e < k ->
       js_index sd ((x + y * sw) * 4 + e) = Some (val x y e).

(** Every element is a byte. *)
Definition all_bytes (data : list Z) : bool :=
  forallb (fun v => (0 <=? v) && (v <=? 255)) data.

(** The levels of a texture, whatever its kind, as lists of face buffers. *)
Definition levels_as_faces {PA : PixelArith} (ls : Levels) : list (list Source) :=
  match ls with
  | Flat l => map (fun s => [s]) l
  | Cube l => l
  end.

Definition same_kind {PA : PixelArith} (a b : Levels) : bool :=
  match a, b with
  | Flat _, Flat _ => true
  | Cube _, Cube _ => true
  | _, _ => false
  end.

(** 4x4 with the levels 4x4 and null: the second level holds no data. *)
Definition null_level_texture : @Texture u8_arith :=
  {| _width := 4; _height := 4; _format := PIXELFORMAT_R8_G8_B8_A8;
     _volume := false; _compressed := false;
     _levels := Flat [TypedArray (PA := u8_arith) Uint8Array (replicate 64 7);
                      NullSource];
     _levelsUpdated := [Flag false] |}.

(** A 2x2 image of four texels: red 10, 20, 30, 40 and the other channels
    0. *)
Definition image_2x2 : list Z :=
  [10; 0; 0; 0; 20; 0; 0; 0; 30; 0; 0; 0; 40; 0; 0; 0].

(** The part of a path from its last dot on, or the empty string. *)
Fixpoint suffix_from_dot (s : string) : string :=
  match s with
  | EmptyString => EmptyString
  | String c r =>
      match suffix_from_dot r with
      | EmptyString => if Ascii.eqb c "."%char then s else EmptyString
      | e => e
      end
  end.

(** A host whose parsers decode every input to [pot_texture]. *)
Definition pot_host : @Host u8_arith := {|
  Data := unit;
  parser_open := fun _ _ _ => PTexture pot_texture;
  getExtension := suffix_from_dot;
  toLowerCase := fun s => s;
  newTexture := fun o =>
    {| _width := opt_width o; _height := opt_height o; _format := opt_format o;
       _volume := false; _compressed := false;
       _levels := Flat [NullSource]; _levelsUpdated := [Flag true] |}
|}.

End TextureMore.

(** *** [TextureHandler.prototype.patch] *)
Module TexturePatch.
Import Js.

(** [pc.FILTER_*], [pc.ADDRESS_*] and [pc.TEXTURETYPE_*]. *)
Inductive FilterMode :=
| FILTER_NEAREST
| FILTER_LINEAR
| FILTER_NEAREST_MIPMAP_NEAREST
| FILTER_LINEAR_MIPMAP_NEAREST
| FILTER_NEAREST_MIPMAP_LINEAR
| FILTER_LINEAR_MIPMAP_LINEAR.

Inductive AddressMode :=
| ADDRESS_REPEAT
| ADDRESS_CLAMP_TO_EDGE
| ADDRESS_MIRRORED_REPEAT.

Inductive TextureType :=
| TEXTURETYPE_DEFAULT
| TEXTURETYPE_RGBM
| TEXTURETYPE_RGBE
| TEXTURETYPE_SWIZZLEGGGR.

(** The value of a texture property that is set from one of the name
    tables: a constant of the table, undefined (the name is not a key), or
    a member that the table inherits from [Object.prototype]. *)
Inductive Slot (A : Type) :=
| Value (a : A)
| Undefined
| Inherited (key : string).
Arguments Value {A} a.
Arguments Undefined {A}.
Arguments Inherited {A} key.

Definition inherited_or_undefined {A : Type} (key : string) : Slot A :=
  if existsb (String.eqb key) Texture.object_prototype_keys then Inherited key
  else Undefined.

(** [JSON_ADDRESS_MODE[key]]. *)
Definition JSON_ADDRESS_MODE (key : string) : Slot AddressMode :=
  if String.eqb key "repeat" then Value ADDRESS_REPEAT
  else if String.eqb key "clamp" then Value ADDRESS_CLAMP_TO_EDGE
  else if String.eqb key "mirror" then Value ADDRESS_MIRRORED_REPEAT
  else inherited_or_undefined key.

(** [JSON_FILTER_MODE[key]]. *)
Definition JSON_FILTER_MODE (key : string) : Slot FilterMode :=
  if String.eqb key "nearest" then Value FILTER_NEAREST
  else if String.eqb key "linear" then Value FILTER_LINEAR
  else if String.eqb key "nearest_mip_nearest" then Value FILTER_NEAREST_MIPMAP_NEAREST
  else if String.eqb key "linear_mip_nearest" then Value FILTER_LINEAR_MIPMAP_NEAREST
  else if String.eqb key "nearest_mip_linear" then Value FILTER_NEAREST_MIPMAP_LINEAR
  else if String.eqb key "linear_mip_linear" then Value FILTER_LINEAR_MIPMAP_LINEAR
  else inherited_or_undefined key.

(** [JSON_TEXTURE_TYPE[key]]. *)
Definition JSON_TEXTURE_TYPE (key : string) : Slot TextureType :=
  if String.eqb key "default" then Value TEXTURETYPE_DEFAULT
  else if String.eqb key "rgbm" then Value TEXTURETYPE_RGBM
  else if String.eqb key "rgbe" then Value TEXTURETYPE_RGBE
  else if String.eqb key "swizzleGGGR" then Value TEXTURETYPE_SWIZZLEGGGR
  else inherited_or_undefined key.

(** [asset.data]: a field is [Some] when the object has the property as
    its own ([hasOwnProperty]); the names given to the tables are
    strings. *)
Record AssetData := {
  minfilter : option string;
  magfilter : option string;
  addressu : option string;
  addressv : option string;
  mipmaps : option JsVal;
  anisotropy : option JsVal;
  flipY : option JsVal;
  type : option string;
  rgbm : option JsVal
}.

(** What [asset.getPreferredFile()] returns, with its [opt] field
    ([None]: undefined). *)
Record PreferredFile := { opt : option Z }.

(** The properties of the texture that [patch] writes, and [cubemap],
    which it reads. *)
Record TextureProps := {
  name : option string;
  minFilter : Slot FilterMode;
  magFilter : Slot FilterMode;
  addressU : Slot AddressMode;
  addressV : Slot AddressMode;
  tex_mipmaps : JsVal;
  tex_anisotropy : JsVal;
  tex_flipY : bool;
  tex_type : Slot TextureType;
  cubemap : bool
}.

(** The texture asset: [asset.name] ([None]: not a string), [asset.data],
    [asset.file] as a boolean, [asset.getPreferredFile] ([None]: the
    method is absent; [Some None]: it returns null) and [asset.resource]
    ([None]: falsy). *)
Record TextureAsset := {
  asset_name : option string;
  data : AssetData;
  file : bool;
  getPreferredFile : option (option PreferredFile);
  resource : option TextureProps
}.

(** [preferredFile.opt && ((preferredFile.opt & 8) !== 0)]. *)
Definition opt_swizzled (f : PreferredFile) : bool :=
  match opt f with
  | Some o => negb (o =? 0) && negb (Z.land (toInt32 o) 8 =? 0)
  | None => false
  end.

(** The type the last statement of [patch] leaves in [texture.type]. *)
Definition patched_type (asset : TextureAsset) (current : Slot TextureType)
    : Slot TextureType :=
  match type (data asset) with
  | Some key => JSON_TEXTURE_TYPE key
  | None =>
      if match rgbm (data asset) with
         | Some v => truthy v
         | None => false
         end
      then Value TEXTURETYPE_RGBM
      else
        match file asset, getPreferredFile asset with
        | true, Some (Some preferredFile) =>
            if opt_swizzled preferredFile then Value TEXTURETYPE_SWIZZLEGGGR
            else current
        | _, _ => current
        end
  end.

(** The body of [patch] on the texture [asset.resource]. *)
Definition patch_texture (asset : TextureAsset) (texture : TextureProps)
    : TextureProps :=
  let assetData := data asset in
  {| name :=
       match asset_name asset with
       | Some n => if negb (String.eqb n "") then Some n else name texture
       | None => name texture
       end;
     minFilter :=
       match minfilter assetData with
       | Some key => JSON_FILTER_MODE key
       | None => minFilter texture
       end;
     magFilter :=
       match magfilter assetData with
       | Some key => JSON_FILTER_MODE key
       | None => magFilter texture
       end;
     addressU :=
       if cubemap texture then addressU texture
       else match addressu assetData with
            | Some key => JSON_ADDRESS_MODE key
            | None => addressU texture
            end;
     addressV :=
       if cubemap texture then addressV texture
       else match addressv assetData with
            | Some key => JSON_ADDRESS_MODE key
            | None => addressV texture
            end;
     tex_mipmaps := default (tex_mipmaps texture) (mipmaps assetData);
     tex_anisotropy := default (tex_anisotropy texture) (anisotropy assetData);
     tex_flipY :=
       match flipY assetData with
       | Some v => truthy v
       | None => tex_flipY texture
       end;
     tex_type := patched_type asset (tex_type texture);
     cubemap := cubemap texture |}.

(** [TextureHandler.prototype.patch(asset, assets)]: the asset after the
    call. *)
Definition patch (asset : TextureAsset) : TextureAsset :=
  match resource asset with
  | None => asset
  | Some texture =>
      {| asset_name := asset_name asset;
         data := data asset;
         file := file asset;
         getPreferredFile := getPreferredFile asset;
         resource := Some (patch_texture asset texture) |}
  end.

(** A cube-map texture and a flat one with default settings. *)
Definition default_props (cube : bool) : TextureProps :=
  {| name := None;
     minFilter := Value FILTER_LINEAR_MIPMAP_LINEAR;
     magFilter := Value FILTER_LINEAR;
     addressU := Value ADDRESS_REPEAT;
     addressV := Value ADDRESS_REPEAT;
     tex_mipmaps := VBool true;
     tex_anisotropy := VNumber 1;
     tex_flipY := false;
     tex_type := Value TEXTURETYPE_DEFAULT;
     cubemap := cube |}.

(** A descriptor that names every setting, with an unknown type name and
    the legacy flag set. *)
Definition full_data : AssetData :=
  {| minfilter := Some "nearest"%string;
     magfilter := Some "nearest"%string;
     addressu := Some "clamp"%string;
     addressv := Some "mirror"%string;
     mipmaps := Some (VBool false);
     anisotropy := Some (VNumber 4);
     flipY := Some (VNumber 1);
     type := Some "hdr"%string;
     rgbm := Some (VBool true) |}.

(** A descriptor without a type: only the legacy flag, which is false. *)
Definition legacy_data (flag : JsVal) : AssetData :=
  {| minfilter := None; magfilter := None; addressu := None; addressv := None;
     mipmaps := None; anisotropy := None; flipY := None;
     type := None; rgbm := Some flag |}.

Definition sample_asset (d : AssetData) (o : Z) (cube : bool) : TextureAsset :=
  {| asset_name := Some "bricks"%string;
     data := d;
     file := true;
     getPreferredFile := Some (Some {| opt := Some o |});
     resource := Some (default_props cube) |}.

End TexturePatch.

(** *** Render component: the remaining methods and setters *)
Module RenderComponentMore.
Import Js RenderComponent.

(** What is assigned to [component.layers]: the component's own array (the
    one its getter returns), another array, or null / undefined. *)
Inductive LayersArg :=
| OwnArray
| NewArray (ids : list Z)
| NullArray.

(** The notifications the component subscribes to while enabled:
    ["set:layers"] on the scene ([onLayersChanged]), ["add"] and
    ["remove"] on [scene.layers] ([onLayerAdded], [onLayerRemoved]). *)
Inductive SceneEvent := EvSetLayers | EvLayerAdd | EvLayerRemove.

#[export] Instance SceneEvent_eq_dec : EqDecision SceneEvent.
Proof. solve_decision. Defined.

Section Model.
Context {EN : Engine}.

Definition with_layers (v : list Z) (c : Component) : Component :=
  {| entity := entity c; enabled := enabled c; entity_enabled := entity_enabled c;
     _type := _type c; _castShadows := _castShadows c; _receiveShadows := _receiveShadows c;
     _lightmapped := _lightmapped c; _isStatic := _isStatic c;
     _batchGroupId := _batchGroupId c; _meshInstances := _meshInstances c;
     _layers := v; _material := _material c; _area := _area c |}.

Definition with_material (v : materialRef) (c : Component) : Component :=
  {| entity := entity c; enabled := enabled c; entity_enabled := entity_enabled c;
     _type := _type c; _castShadows := _castShadows c; _receiveShadows := _receiveShadows c;
     _lightmapped := _lightmapped c; _isStatic := _isStatic c;
     _batchGroupId := _batchGroupId c; _meshInstances := _meshInstances c;
     _layers := _layers c; _material := v; _area := _area c |}.

Definition with_isStatic (v : bool) (c : Component) : Component :=
  {| entity := entity c; enabled := enabled c; entity_enabled := entity_enabled c;
     _type := _type c; _castShadows := _castShadows c; _receiveShadows := _receiveShadows c;
     _lightmapped := _lightmapped c; _isStatic := v;
     _batchGroupId := _batchGroupId c; _meshInstances := _meshInstances c;
     _layers := _layers c; _material := _material c; _area := _area c |}.

(** [for (i = 0; i < list.length; i++) list[i].field = value] on the shared
    mesh instances. *)
Definition write_each (f : MeshInstance -> MeshInstance) (mi : list ref) (W : World)
    : World :=
  upd_heap (fun h => foldl (fun h r => alter f r h) h mi) W.

(** [onRemoveChild]. *)
Definition onRemoveChild (W : World) : Outcome World :=
  match _meshInstances (comp W) with
  | Some _ => removeFromLayers W
  | None => Normal W
  end.

(** [onInsertChild]. *)
Definition onInsertChild (W : World) : Outcome World :=
  match _meshInstances (comp W) with
  | Some _ =>
      if enabled (comp W) && entity_enabled (comp W) then addToLayers W
      else Normal W
  | None => Normal W
  end.

Definition write_visible (v : bool) (m : MeshInstance) : MeshInstance :=
  {| node := node m; mesh := mesh m; material := material m;
     castShadow := castShadow m; receiveShadow := receiveShadow m;
     isStatic := isStatic m; visible := v |}.

(** [hide]. *)
Definition hide (W : World) : World :=
  match _meshInstances (comp W) with
  | Some mi => write_each (write_visible false) mi W
  | None => W
  end.

(** [show]. *)
Definition show (W : World) : World :=
  match _meshInstances (comp W) with
  | Some mi => write_each (write_visible true) mi W
  | None => W
  end.

Definition write_material (v : materialRef) (m : MeshInstance) : MeshInstance :=
  {| node := node m; mesh := mesh m; material := v;
     castShadow := castShadow m; receiveShadow := receiveShadow m;
     isStatic := isStatic m; visible := visible m |}.

(** [_setMaterial(material)]. *)
Definition _setMaterial (value : materialRef) (W : World) : World :=
  if Nat.eqb (_material (comp W)) value then W
  else
    let W1 := upd_comp (with_material value) W in
    match _meshInstances (comp W1) with
    | Some mi =>
        if negb (String.eqb (_type (comp W1)) "asset") then
          write_each (write_material value) mi W1
        else W1
    | None => W1
    end.

(** Setter of [material]. *)
Definition set_material (value : materialRef) (W : World) : World :=
  if Nat.eqb (_material (comp W)) value then W else _setMaterial value W.

Definition write_isStatic (v : bool) (m : MeshInstance) : MeshInstance :=
  {| node := node m; mesh := mesh m; material := material m;
     castShadow := castShadow m; receiveShadow := receiveShadow m;
     isStatic := v; visible := visible m |}.

(** Setter of [isStatic]. *)
Definition set_isStatic (value : bool) (W : World) : World :=
  if eqb (_isStatic (comp W)) value then W
  else
    let W1 := upd_comp (with_isStatic value) W in
    match _meshInstances (comp W1) with
    | Some mi => write_each (write_isStatic value) mi W1
    | None => W1
    end.

(** Setter of [layers]. The stored array is emptied and refilled in place:
    when the value assigned is that very array, it is empty by the time it
    is copied; when it is null or undefined, reading its length raises
    after the stored array has been emptied. *)
Definition set_layers (value : LayersArg) (W : World) : Outcome World :=
  let W1 :=
    match _meshInstances (comp W) with
    | Some mi =>
        for_each_layer (Layer_removeMeshInstances mi)
          (fun lid => LayerRemoveMeshInstances lid mi) W
    | None => W
    end in
  let W2 := upd_comp (with_layers []) W1 in
  match value with
  | NullArray => Thrown TypeError W2
  | OwnArray | NewArray _ =>
      let ids := match value with
                 | NewArray ids => ids
                 | _ => []
                 end in
      let W3 := upd_comp (with_layers ids) W2 in
      if negb (enabled (comp W3)) || negb (entity_enabled (comp W3)) then Normal W3
      else
        match _meshInstances (comp W3) with
        | None => Normal W3
        | Some mi =>
            Normal (for_each_layer (Layer_addMeshInstances mi)
                      (fun lid => LayerAddMeshInstances lid mi) W3)
        end
  end.





End Model.

(** The component of [sample_world] in the batch group 6: the batcher
    holds its entity and has taken its instances out of the world layer. *)
Definition batched_world : @World sample_engine :=
  {| comp :=
       {| entity := 1%nat; enabled := true; entity_enabled := true;
          _type := "asset"; _castShadows := true; _receiveShadows := true;
          _lightmapped := false; _isStatic := false; _batchGroupId := 6;
          _meshInstances := Some [10%nat; 11%nat]; _layers := [0; 4];
          _material := 3%nat; _area := None |};
     heap := heap sample_world;
     layers := {[ 0 := {| meshInstances := [20%nat];
                         shadowCasters := [10%nat; 20%nat; 11%nat] |};
                  2 := {| meshInstances := [20%nat]; shadowCasters := [] |} ]};
     batchGroups := {[ 6 := [1%nat] ]};
     inTools := false;
     trace := [] |}.

(** The component of [sample_world] while its entity is disabled: its
    instances are in no layer. *)
Definition disabled_entity_world : @World sample_engine :=
  {| comp :=
       {| entity := 1%nat; enabled := true; entity_enabled := false;
          _type := "asset"; _castShadows := true; _receiveShadows := true;
          _lightmapped := false; _isStatic := false; _batchGroupId := -1;
          _meshInstances := Some [10%nat; 11%nat]; _layers := [0; 4];
          _material := 3%nat; _area := None |};
     heap := heap sample_world;
     layers := {[ 0 := {| meshInstances := [20%nat]; shadowCasters := [20%nat] |};
                  2 := {| meshInstances := [20%nat]; shadowCasters := [] |} ]};
     batchGroups := {[ 6 := [] ]};
     inTools := false;
     trace := [] |}.

(** The component of [sample_world] before it is bound: its instances are
    in no layer yet. *)
Definition detached_world : @World sample_engine :=
  {| comp := comp sample_world;
     heap := heap sample_world;
     layers := {[ 0 := {| meshInstances := [20%nat]; shadowCasters := [20%nat] |};
                  2 := {| meshInstances := [20%nat]; shadowCasters := [] |} ]};
     batchGroups := {[ 6 := [] ]};
     inTools := false;
     trace := [] |}.

(** The component of [sample_world] inside the editor
    ([system._inTools]). *)
Definition tools_world : @World sample_engine :=
  {| comp := comp sample_world;
     heap := heap sample_world;
     layers := layers sample_world;
     batchGroups := batchGroups sample_world;
     inTools := true;
     trace := [] |}.

End RenderComponentMore.

(** * Properties of the texture handler *)
Module TextureFacts.
Import Js Texture.

(** [a[i]] at an index known to be non-negative. *)
Ltac js_index_nonneg k :=
  unfold js_index; destruct (Z.ltb_spec k 0) as [?|_]; [lia|].

(** ** Indexing *)
Section Indexing.
Context {L : Type}.

Lemma js_index_last (pre : list L) (x : L) :
  js_index (pre ++ [x]) (Z.of_nat (length (pre ++ [x])) - 1) = Some x.
Proof.
  rewrite length_app. simpl.
  js_index_nonneg (Z.of_nat (length pre + 1) - 1).
  replace (Z.to_nat (Z.of_nat (length pre + 1) - 1)) with (length pre) by lia.
  rewrite lookup_app_r by lia.
  replace (length pre - length pre)%nat with 0%nat by lia. reflexivity.
Qed.

Lemma js_index_app_old (levels extra : list L) (k : Z) :
  0 <= k < Z.of_nat (length levels) ->
  js_index (levels ++ extra) k = js_index levels k.
Proof.
  intros Hk. js_index_nonneg k. js_index_nonneg k.
  apply lookup_app_l. lia.
Qed.

Lemma js_index_app_new (levels extra : list L) (sized : Z -> L -> Prop) (k : Z) :
  (forall (i : nat) mip,
     extra !! i = Some mip -> sized (Z.of_nat (length levels) + Z.of_nat i) mip) ->
  Z.of_nat (length levels) <= k < Z.of_nat (length (levels ++ extra)) ->
  exists mip, js_index (levels ++ extra) k = Some mip /\ sized k mip.
Proof.
  intros Hsized Hk. rewrite length_app in Hk. js_index_nonneg k.
  rewrite lookup_app_r by lia.
  destruct (extra !! (Z.to_nat k - length levels)%nat) as [mip|] eqn:Hmip.
  - exists mip. split; [reflexivity|].
    apply Hsized in Hmip.
    replace (Z.of_nat (length levels) + Z.of_nat (Z.to_nat k - length levels))
      with k in Hmip by lia.
    exact Hmip.
  - apply lookup_ge_None in Hmip. lia.
Qed.

End Indexing.

(** ** downsample *)
Section Downsample.
Context {PA : PixelArith}.

Lemma foldl_preserves {A B : Type} (P : A -> Prop) (f : A -> B -> A) (l : list B) :
  (forall a b, P a -> P (f a b)) -> forall a, P a -> P (foldl f a l).
Proof.
  intros Hf. induction l as [|b l IH]; intros a Ha; simpl.
  - exact Ha.
  - apply IH, Hf, Ha.
Qed.

Lemma ta_write_length (a : list px) i v : length (ta_write a i v) = length a.
Proof.
  unfold ta_write. destruct (i <? 0); [reflexivity|]. apply length_insert.
Qed.

(** On a typed array [downsample] returns a typed array of the same
    constructor with [sampledWidth * sampledHeight * 4] elements. *)
Lemma downsample_typed_array width height c elems :
  exists out,
    downsample width height (TypedArray c elems) = Some (TypedArray c out)
    /\ Z.of_nat (length out)
       = Z.max 1 (sar width 1) * Z.max 1 (sar height 1) * 4.
Proof.
  unfold downsample. eexists. split; [reflexivity|].
  set (n := Z.max 1 (sar width 1) * Z.max 1 (sar height 1) * 4).
  assert (Hn : 0 <= n) by (unfold n; lia).
  match goal with
  | |- Z.of_nat (length ?l) = _ =>
      assert (Hlen : length l = Z.to_nat n)
  end.
  { apply (foldl_preserves (fun sd => length sd = Z.to_nat n)).
    - intros sd y Hsd.
      apply (foldl_preserves (fun sd => length sd = Z.to_nat n)); [|exact Hsd].
      intros sd' x Hsd'.
      apply (foldl_preserves (fun sd => length sd = Z.to_nat n)); [|exact Hsd'].
      intros sd'' e Hsd''. rewrite ta_write_length. exact Hsd''.
    - apply length_replicate. }
  rewrite Hlen. lia.
Qed.

End Downsample.

(** ** The level loop *)

Lemma lt_requiredMipLevels_log2_up n m :
  0 <= n -> lt_requiredMipLevels n m = true <-> n < Z.log2_up (2 * m).
Proof.
  intros Hn. unfold lt_requiredMipLevels. rewrite Z.ltb_lt.
  destruct (Z_lt_le_dec 0 (2 * m)) as [Hpos|Hnp].
  - apply Z.log2_up_lt_pow2. exact Hpos.
  - rewrite Z.log2_up_nonpos by exact Hnp.
    assert (0 < 2 ^ n) by (apply Z.pow_pos_nonneg; lia). lia.
Qed.

Lemma loop_fuel_enough W H (n : nat) :
  Z.max (Z.of_nat n) (Z.log2_up (2 * Z.max W H)) < Z.of_nat n + Z.of_nat (loop_fuel W H).
Proof.
  unfold loop_fuel.
  pose proof (Z.log2_up_nonneg (2 * Z.max W H)). lia.
Qed.

Section Loop.
Context {L : Type} (synth : Z -> Z -> option L -> option L) (W H : Z).

(** The loop ends, whatever the body does, when the fuel covers the
    distance to the required level count. *)
Lemma level_loop_total fuel : forall level (levels : list L),
  0 <= level ->
  Z.max level (Z.log2_up (2 * Z.max W H)) < level + Z.of_nat fuel ->
  is_Some (level_loop synth W H fuel level levels).
Proof.
  induction fuel as [|fuel IH]; intros level levels Hlevel Hfuel; [lia|].
  simpl. destruct (lt_requiredMipLevels level (Z.max W H)) eqn:Hlt; [|eauto].
  apply lt_requiredMipLevels_log2_up in Hlt; [|exact Hlevel].
  destruct (synth _ _ _); [|eauto]. apply IH; lia.
Qed.

Context (ready : L -> Prop) (sized : Z -> L -> Prop).
Hypothesis synth_ready : forall level prev,
  ready prev ->
  exists mip,
    synth (Z.max 1 (sar W (level - 1))) (Z.max 1 (sar H (level - 1))) (Some prev)
      = Some mip
    /\ ready mip /\ sized level mip.

(** When the body succeeds on every level it is given, the loop completes
    normally and appends levels up to index [log2_up(2 * max(W, H)) - 1]. *)
Lemma level_loop_run fuel : forall (pre : list L) (lastL : L),
  ready lastL ->
  Z.max (Z.of_nat (length (pre ++ [lastL]))) (Z.log2_up (2 * Z.max W H))
    < Z.of_nat (length (pre ++ [lastL])) + Z.of_nat fuel ->
  exists extra,
    level_loop synth W H fuel (Z.of_nat (length (pre ++ [lastL]))) (pre ++ [lastL])
      = Some (Normal ((pre ++ [lastL]) ++ extra))
    /\ Z.of_nat (length ((pre ++ [lastL]) ++ extra))
       = Z.max (Z.of_nat (length (pre ++ [lastL]))) (Z.log2_up (2 * Z.max W H))
    /\ forall (k : nat) mip,
         extra !! k = Some mip ->
         sized (Z.of_nat (length (pre ++ [lastL])) + Z.of_nat k) mip.
Proof.
  induction fuel as [|fuel IH]; intros pre lastL Hready Hfuel.
  - lia.
  - simpl level_loop.
    pose proof (js_index_last pre lastL) as Hidx.
    set (levels := pre ++ [lastL]) in *.
    destruct (lt_requiredMipLevels (Z.of_nat (length levels)) (Z.max W H)) eqn:Hlt.
    + apply lt_requiredMipLevels_log2_up in Hlt; [|lia].
      rewrite Hidx.
      destruct (synth_ready (Z.of_nat (length levels)) lastL Hready)
        as (mip & Hsynth & Hmip & Hsized).
      rewrite Hsynth.
      destruct (IH levels mip Hmip) as (extra & Hrun & Hlen & Hext).
      { rewrite length_app. simpl. lia. }
      exists (mip :: extra).
      replace (Z.of_nat (length levels) + 1)
        with (Z.of_nat (length (levels ++ [mip])))
        by (rewrite length_app; simpl; lia).
      rewrite Hrun. rewrite <- app_assoc. simpl. split; [reflexivity|].
      split.
      * rewrite <- app_assoc in Hlen. simpl in Hlen. rewrite Hlen.
        rewrite length_app. simpl. lia.
      * intros [|k] mip' Hk; simpl in Hk.
        -- injection Hk as <-. replace (Z.of_nat (length levels) + Z.of_nat 0)
             with (Z.of_nat (length levels)) by lia. exact Hsized.
        -- specialize (Hext k mip' Hk).
           rewrite length_app in Hext. simpl in Hext.
           replace (Z.of_nat (length levels) + Z.of_nat (S k))
             with (Z.of_nat (length levels + 1) + Z.of_nat k) by lia.
           exact Hext.
    + exists []. rewrite app_nil_r. split; [reflexivity|]. split.
      * assert (Hnot : ~ Z.of_nat (length levels) < Z.log2_up (2 * Z.max W H)).
        { intros Hc. apply lt_requiredMipLevels_log2_up in Hc; [|lia]. congruence. }
        lia.
      * intros k mip Hk. rewrite lookup_nil in Hk. discriminate.
Qed.

End Loop.

(** ** The completion pass *)
Section Completion.
Context {PA : PixelArith}.

Lemma synth_flat_ready W H level prev :
  is_typed_array prev = true ->
  exists mip,
    synth_flat (Z.max 1 (sar W (level - 1))) (Z.max 1 (sar H (level - 1))) (Some prev)
      = Some mip
    /\ is_typed_array mip = true
    /\ source_size mip = Some (synthesized_size W H level).
Proof.
  destruct prev as [c elems| |]; try discriminate. intros _.
  destruct (downsample_typed_array (Z.max 1 (sar W (level - 1)))
              (Z.max 1 (sar H (level - 1))) c elems) as (out & Hd & Hlen).
  exists (TypedArray c out). unfold synth_flat. rewrite Hd.
  split; [reflexivity|]. split; [reflexivity|].
  unfold synthesized_size, source_size. rewrite Hlen. reflexivity.
Qed.

Lemma seqZ_0_6 : seqZ 0 6 = [0; 1; 2; 3; 4; 5].
Proof. reflexivity. Qed.

Lemma synth_cube_ready W H level prev :
  six_typed_faces prev = true ->
  exists mips,
    synth_cube (Z.max 1 (sar W (level - 1))) (Z.max 1 (sar H (level - 1))) (Some prev)
      = Some mips
    /\ six_typed_faces mips = true
    /\ map source_size mips = replicate 6 (Some (synthesized_size W H level)).
Proof.
  unfold six_typed_faces, synth_cube. rewrite seqZ_0_6. simpl forallb.
  rewrite !andb_true_iff. intros (H0 & H1 & H2 & H3 & H4 & H5 & _).
  unfold synthesized_size.
  set (w := Z.max 1 (sar W (level - 1))). set (h := Z.max 1 (sar H (level - 1))).
  simpl synth_faces.
  repeat match goal with
  | Hf : match js_index prev ?i with _ => _ end = true |- _ =>
      let c := fresh "c" in let e := fresh "e" in let E := fresh "E" in
      destruct (js_index prev i) as [[c e| |]|] eqn:E; try discriminate Hf; clear Hf;
      let out := fresh "out" in let Hd := fresh "Hd" in let Hl := fresh "Hl" in
      destruct (downsample_typed_array w h c e) as (out & Hd & Hl);
      rewrite Hd
  end.
  eexists. split; [reflexivity|]. split; [reflexivity|].
  simpl. repeat match goal with Hl : Z.of_nat (length _) = _ |- _ => rewrite Hl; clear Hl end.
  reflexivity.
Qed.

(** The pass always returns or raises: the fuel of the model never runs
    out. *)
Lemma complete_chain_total (t : Texture) :
  is_Some (_completePartialMipmapChain t).
Proof.
  unfold _completePartialMipmapChain.
  destruct (skips_completion t); [eauto|].
  destruct (level0_isHtmlElement t) as [[|]|]; [eauto| |eauto].
  destruct (_levels t) as [ls|ls].
  - destruct (level_loop_total synth_flat (_width t) (_height t)
                (loop_fuel (_width t) (_height t)) (Z.of_nat (length ls)) ls)
      as [[ls'|e ls'] ->]; [lia|apply loop_fuel_enough|eauto|eauto].
  - destruct (level_loop_total synth_cube (_width t) (_height t)
                (loop_fuel (_width t) (_height t)) (Z.of_nat (length ls)) ls)
      as [[ls'|e ls'] ->]; [lia|apply loop_fuel_enough|eauto|eauto].
Qed.

(** The pass on a texture that passes the guard and whose last level holds
    pixel data: it completes normally, the chain grows to
    [max(length, log2_up(2 * max(W, H)))] levels, the existing levels are
    kept, each synthesized level has the halved size, and the
    levels-updated state is reset to a single entry. *)
Lemma complete_chain_run (t : Texture) :
  skips_completion t = false ->
  level0_isHtmlElement t = Some false ->
  last_level_ready t = true ->
  exists t',
    _completePartialMipmapChain t = Some (Normal t')
    /\ levels_length t'
       = Z.max (levels_length t) (Z.log2_up (2 * Z.max (_width t) (_height t)))
    /\ _levelsUpdated t' = (if _cubemap t then all_faces_updated else [Flag true])
    /\ (forall k, levels_length t <= k < levels_length t' ->
          level_sizes t' k
          = Some (replicate (if _cubemap t then 6 else 1)
                    (Some (synthesized_size (_width t) (_height t) k))))
    /\ (forall k, 0 <= k < levels_length t -> level_sizes t' k = level_sizes t k).
Proof.
  intros Hskip Hl0 Hready.
  unfold _completePartialMipmapChain. rewrite Hskip, Hl0.
  unfold last_level_ready, levels_length, _cubemap, level_sizes in *.
  destruct (_levels t) as [ls|ls] eqn:Hlevels.
  - destruct (last ls) as [s|] eqn:Hlast; [|discriminate].
    apply last_Some in Hlast as [pre ->].
    destruct (level_loop_run synth_flat (_width t) (_height t)
                (fun s => is_typed_array s = true)
                (fun level s =>
                   source_size s = Some (synthesized_size (_width t) (_height t) level))
                (fun level prev => synth_flat_ready (_width t) (_height t) level prev)
                (loop_fuel (_width t) (_height t)) pre s Hready
                (loop_fuel_enough _ _ _))
      as (extra & Hrun & Hlen & Hsized).
    rewrite Hrun. eexists. split; [reflexivity|]. simpl.
    split; [exact Hlen|]. split; [reflexivity|]. split.
    + intros k Hk.
      destruct (js_index_app_new (pre ++ [s]) extra
                  (fun level s =>
                     source_size s
                     = Some (synthesized_size (_width t) (_height t) level))
                  k Hsized Hk) as (mip & -> & Hs).
      simpl. rewrite Hs. reflexivity.
    + intros k Hk. rewrite js_index_app_old by exact Hk. reflexivity.
  - destruct (last ls) as [s|] eqn:Hlast; [|discriminate].
    apply last_Some in Hlast as [pre ->].
    destruct (level_loop_run synth_cube (_width t) (_height t)
                (fun faces => six_typed_faces faces = true)
                (fun level faces =>
                   map source_size faces
                   = replicate 6 (Some (synthesized_size (_width t) (_height t) level)))
                (fun level prev => synth_cube_ready (_width t) (_height t) level prev)
                (loop_fuel (_width t) (_height t)) pre s Hready
                (loop_fuel_enough _ _ _))
      as (extra & Hrun & Hlen & Hsized).
    rewrite Hrun. eexists. split; [reflexivity|]. simpl.
    split; [exact Hlen|]. split; [reflexivity|]. split.
    + intros k Hk.
      destruct (js_index_app_new (pre ++ [s]) extra
                  (fun level faces =>
                     map source_size faces
                     = replicate 6
                         (Some (synthesized_size (_width t) (_height t) level)))
                  k Hsized Hk) as (mip & -> & Hs).
      simpl. rewrite Hs. reflexivity.
    + intros k Hk. rewrite js_index_app_old by exact Hk. reflexivity.
Qed.

(** A texture that is eligible in the words of the specification passes
    the guard of the source. *)
Lemma spec_eligible_guard (t : Texture) :
  spec_eligible t = true ->
  skips_completion t = false /\ level0_isHtmlElement t = Some false
  /\ 1 < levels_length t < full_chain_length t
  /\ 0 < Z.max (_width t) (_height t).
Proof.
  unfold spec_eligible, skips_completion, full_chain_length.
  rewrite !andb_true_iff.
  intros (((((Hfmt & Hvol) & Hcomp) & Hlo) & Hhi) & Hl0).
  apply Z.ltb_lt in Hlo, Hhi.
  destruct (level0_isHtmlElement t) as [[|]|]; try discriminate Hl0.
  set (m := Z.max (_width t) (_height t)) in *.
  assert (Hm : 0 < m).
  { destruct (Z_lt_le_dec 0 m) as [?|Hle]; [assumption|].
    rewrite Z.log2_nonpos in Hhi by exact Hle. lia. }
  split; [|split; [reflexivity|split; [lia|exact Hm]]].
  rewrite Hfmt. apply negb_true_iff in Hvol, Hcomp. rewrite Hvol, Hcomp. simpl.
  apply orb_false_iff. split; [apply Z.eqb_neq; lia|].
  unfold eq_requiredMipLevels. apply Z.eqb_neq.
  pose proof (Z.log2_spec m Hm) as [Hpow _].
  assert (2 ^ levels_length t <= 2 ^ Z.log2 m)
    by (apply Z.pow_le_mono_r; lia).
  lia.
Qed.

(** On every texture that is eligible in the words of the specification
    the pass completes, and the chain it leaves has
    [log2_up(max(W, H)) + 1] levels: the logarithm is rounded up, not
    down. Each synthesized level has the halved size. *)
Lemma complete_chain_length (t : Texture) :
  spec_eligible t = true ->
  last_level_ready t = true ->
  exists t',
    _completePartialMipmapChain t = Some (Normal t')
    /\ levels_length t' = Z.log2_up (Z.max (_width t) (_height t)) + 1
    /\ (forall k, levels_length t <= k < levels_length t' ->
          level_sizes t' k
          = Some (replicate (if _cubemap t then 6 else 1)
                    (Some (synthesized_size (_width t) (_height t) k)))).
Proof.
  intros Hel Hready.
  destruct (spec_eligible_guard t Hel) as (Hskip & Hl0 & Hlen & Hm).
  destruct (complete_chain_run t Hskip Hl0 Hready) as (t' & Hrun & Hlen' & _ & Hsz & _).
  exists t'. split; [exact Hrun|]. split; [|exact Hsz].
  rewrite Hlen'. unfold full_chain_length in Hlen.
  set (m := Z.max (_width t) (_height t)) in *.
  replace (2 * m) with (m * 2 ^ 1) by lia.
  rewrite Z.log2_up_mul_pow2 by lia.
  pose proof (Z.le_log2_log2_up m). lia.
Qed.

(** When the larger dimension is a power of two the two counts agree. *)
Lemma complete_chain_length_pow2 (t : Texture) (k : Z) :
  spec_eligible t = true ->
  last_level_ready t = true ->
  Z.max (_width t) (_height t) = 2 ^ k ->
  exists t',
    _completePartialMipmapChain t = Some (Normal t')
    /\ levels_length t' = full_chain_length t.
Proof.
  intros Hel Hready Hpow.
  destruct (complete_chain_length t Hel Hready) as (t' & Hrun & Hlen & _).
  exists t'. split; [exact Hrun|]. rewrite Hlen. unfold full_chain_length.
  destruct (spec_eligible_guard t Hel) as (_ & _ & _ & Hm).
  f_equal. symmetry. apply Z.log2_log2_up_exact; [exact Hm|]. exists k. exact Hpow.
Qed.

(** C8, amended. Whenever the pass synthesizes one or more levels it
    replaces the levels-updated state by a single entry, which marks level
    0 dirty (each of its six faces for a cube map); no other level index
    has an entry. *)
Theorem synthesized_levels_updated_state (t t' : Texture) :
  _completePartialMipmapChain t = Some (Normal t') ->
  levels_length t < levels_length t' ->
  _levelsUpdated t' = (if _cubemap t' then all_faces_updated else [Flag true])
  /\ (forall face, (face < (if _cubemap t' then 6 else 1))%nat ->
         level_dirty t' 0 face = true)
  /\ (forall level face, (0 < level)%nat -> level_dirty t' level face = false).
Proof.
  unfold _completePartialMipmapChain.
  destruct (skips_completion t); [intros [= <-]; lia|].
  destruct (level0_isHtmlElement t) as [[|]|]; try (intros [= <-]; lia); try discriminate.
  destruct (_levels t) as [ls|ls] eqn:Hls.
  - destruct (level_loop synth_flat _ _ _ _ ls) as [[ls'|e ls']|];
      try discriminate.
    intros [= <-] _. unfold level_dirty. simpl. split; [reflexivity|].
    split; [reflexivity|]. intros [|level] face Hl; [lia|reflexivity].
  - destruct (level_loop synth_cube _ _ _ _ ls) as [[ls'|e ls']|];
      try discriminate.
    intros [= <-] _. unfold level_dirty. simpl. split; [reflexivity|].
    split.
    + intros face Hf. do 6 (destruct face as [|face]; [reflexivity|]). lia.
    + intros [|level] face Hl; [lia|reflexivity].
Qed.

End Completion.

(** C1. On the 5x5 texture with two levels, which the eligibility predicate
    of the specification accepts, the pass leaves four levels, while
    [floor(log2(max(5, 5))) + 1] is three: [requiredMipLevels] is computed
    without rounding down, so the loop runs once more for every size that
    is not a power of two. The fourth level is a second 1x1 level. *)
Theorem complete_chain_npot_overshoots :
  spec_eligible npot_texture = true
  /\ full_chain_length npot_texture = 3
  /\ match _completePartialMipmapChain npot_texture with
     | Some (Normal t') =>
         levels_length t' = 4
         /\ level_sizes t' 2 = Some [Some 4]
         /\ level_sizes t' 3 = Some [Some 4]
     | _ => False
     end.
Proof.
  split; [vm_compute; reflexivity|]. split; [vm_compute; reflexivity|].
  vm_compute. repeat split; reflexivity.
Qed.

(** The power-of-two texture gets the one level it lacks. *)
Lemma pot_texture_completes :
  _completePartialMipmapChain pot_texture = Some (Normal pot_completed).
Proof. vm_cast_no_check (@eq_refl _ (Some (Normal pot_completed))). Qed.

(** C8, as stated, fails: on the 4x4 texture with two levels the pass
    synthesizes level 2, and that level has no dirty entry in the
    levels-updated state. *)
Lemma synthesized_levels_not_flagged :
  _completePartialMipmapChain pot_texture = Some (Normal pot_completed)
  /\ levels_length pot_texture = 2
  /\ levels_length pot_completed = 3
  /\ level_dirty pot_completed 2 0 = false.
Proof.
  split; [exact pot_texture_completes|].
  repeat split; vm_compute; reflexivity.
Qed.

Lemma synthesized_levels_updated_state_witness :
  levels_length pot_texture < levels_length pot_completed
  /\ _levelsUpdated pot_completed = [Flag true].
Proof.
  assert (Hlen : levels_length pot_texture < levels_length pot_completed)
    by (vm_compute; reflexivity).
  split; [exact Hlen|].
  exact (proj1 (synthesized_levels_updated_state pot_texture pot_completed
                  pot_texture_completes Hlen)).
Defined.

(** ** open *)
Section Handler.
Context {PA : PixelArith} {HO : Host}.

(** [open] always returns or raises. *)
Lemma open_total (url : JsVal) (data : Data) : is_Some (open url data).
Proof.
  unfold open. destruct (negb (truthy url)); [eauto|].
  destruct url; eauto.
  destruct (_getParser s); [|eauto].
  destruct (parser_open p s data) as [t| | |e]; eauto.
  destruct (complete_chain_total t) as [[t'|e t'] ->]; eauto.
Qed.

(** C7. For a non-falsy url whose selected parser reports non-decodable
    data (its [open] returns null), [open] returns the placeholder texture:
    [new pc.Texture] with width 4, height 4 and format
    [PIXELFORMAT_R8_G8_B8], not a failure and not undefined. *)
Theorem open_null_gives_placeholder (url : string) (data : Data) (p : ParserId) :
  truthy (VString url) = true ->
  _getParser url = SelParser p ->
  parser_open p url data = PNull ->
  open (VString url) data
    = Some ([ParserOpen p url; NewTexture placeholder_options],
            Returned (Some (newTexture placeholder_options)))
  /\ opt_width placeholder_options = 4
  /\ opt_height placeholder_options = 4
  /\ opt_format placeholder_options = PIXELFORMAT_R8_G8_B8.
Proof.
  intros Hurl Hsel Hnull. unfold open.
  rewrite Hurl, Hsel, Hnull. simpl. repeat split; reflexivity.
Qed.

(** C10. For a falsy url, whatever the data, [open] returns undefined; no
    parser is called and no placeholder texture is constructed. *)
Theorem open_falsy_url (url : JsVal) (data : Data) :
  truthy url = false ->
  open url data = Some ([], Returned None).
Proof.
  intros Hurl. unfold open. rewrite Hurl. reflexivity.
Qed.

End Handler.

Lemma open_null_gives_placeholder_witness :
  @open u8_arith null_host (VString "a.png") tt
  = Some ([ParserOpen ImgParser "a.png"; NewTexture placeholder_options],
          Returned (Some (@newTexture u8_arith null_host placeholder_options))).
Proof.
  refine (proj1 (@open_null_gives_placeholder u8_arith null_host
                   "a.png" tt ImgParser _ _ _)); reflexivity.
Defined.

Lemma open_falsy_url_witness :
  @open u8_arith null_host (VString "") tt = Some ([], Returned None).
Proof.
  apply (@open_falsy_url u8_arith null_host (VString "") tt). reflexivity.
Defined.

End TextureFacts.

(** * Properties of the render-asset handler *)
Module RenderHandlerFacts.
Import Js RenderHandler.

Section Facts.
Context {Meshes : Type}.

(** Case (iii) in general: when the container id is not registered,
    [patch] raises a TypeError and leaves the state as it was; no
    subscription to the "add" notification is made. *)
Lemma patch_unregistered_raises (a : assetRef) (st : State Meshes) ra cid :
  renderAssets st !! a = Some ra ->
  id_truthy (data_containerAsset ra) = Some cid ->
  registry_get cid st = None ->
  patch a st = Thrown TypeError st.
Proof.
  intros Ha Hid Hget. unfold patch. rewrite Ha, Hid, Hget. reflexivity.
Qed.

(** Case (i): the container is registered and loaded. *)
Lemma patch_loaded_extracts (a : assetRef) (st : State Meshes) ra r cid ca cr rest entry :
  renderAssets st !! a = Some ra ->
  resource ra = Some r ->
  id_truthy (data_containerAsset ra) = Some cid ->
  registry_get cid st = Some ca ->
  loaded ca = true ->
  resources ca = cr :: rest ->
  0 <= data_renderIndex ra ->
  renders cr !! Z.to_nat (data_renderIndex ra) = Some entry ->
  patch a st = Normal (assign_meshes a (entry_resource entry) st).
Proof.
  intros Ha Hr Hid Hget Hl Hres Hi Hentry.
  unfold patch. rewrite Ha, Hid, Hget, Hl. simpl.
  unfold onContainerAssetLoaded. rewrite Ha, Hr, Hres.
  destruct (Z.ltb_spec (data_renderIndex ra) 0) as [?|_]; [lia|].
  rewrite Hentry. reflexivity.
Qed.

(** Case (ii): the container is registered and not loaded. [patch]
    subscribes and requests the load; when the load finishes the callback
    performs the one extraction, and the render asset ends as in case
    (i). *)
Lemma patch_unloaded_then_load (a : assetRef) (st : State Meshes) ra r cid ca cr rest entry :
  renderAssets st !! a = Some ra ->
  resource ra = Some r ->
  id_truthy (data_containerAsset ra) = Some cid ->
  registry_get cid st = Some ca ->
  loaded ca = false ->
  Forall (fun s => sub_key s <> EvLoad (id ca)) (subs st) ->
  0 <= data_renderIndex ra ->
  renders cr !! Z.to_nat (data_renderIndex ra) = Some entry ->
  exists st1 st2,
    patch a st = Normal st1
    /\ subs st1 = subs st ++ [{| sub_key := EvLoad (id ca);
                                 sub_handler := OnContainerAssetLoaded;
                                 sub_scope := a |}]
    /\ loads st1 = loads st ++ [id ca]
    /\ finish_load ca (cr :: rest) st1 = Normal st2
    /\ renderAssets st2 = renderAssets (assign_meshes a (entry_resource entry) st)
    /\ extractions st2 = S (extractions st)
    /\ subs st2 = subs st.
Proof.
  intros Ha Hr Hid Hget Hl Hsubs Hi Hentry.
  unfold patch. rewrite Ha, Hid, Hget, Hl. simpl.
  eexists. eexists. split; [reflexivity|]. simpl.
  split; [reflexivity|]. split; [reflexivity|].
  unfold finish_load, fire. simpl.
  rewrite !filter_app. simpl.
  assert (Hnone : filter (fun s : Subscription => sub_key s = EvLoad (id ca)) (subs st) = []).
  { clear -Hsubs. induction Hsubs as [|s l Hs _ IH]; [reflexivity|].
    rewrite filter_cons. destruct (decide (sub_key s = EvLoad (id ca))); [contradiction|exact IH]. }
  assert (Hall : filter (fun s : Subscription => sub_key s <> EvLoad (id ca)) (subs st) = subs st).
  { clear -Hsubs. induction Hsubs as [|s l Hs _ IH]; [reflexivity|].
    rewrite filter_cons. destruct (decide (sub_key s <> EvLoad (id ca))); [|contradiction].
    f_equal. exact IH. }
  rewrite Hnone, Hall.
  rewrite !filter_cons. simpl.
  destruct (decide (EvLoad (id ca) = EvLoad (id ca))) as [_|Hne]; [|contradiction].
  destruct (decide (EvLoad (id ca) <> EvLoad (id ca))) as [Hne|_]; [contradiction|].
  simpl. unfold onContainerAssetLoaded. simpl. rewrite Ha, Hr.
  destruct (Z.ltb_spec (data_renderIndex ra) 0) as [?|_]; [lia|].
  rewrite Hentry. split; [reflexivity|]. simpl.
  split; [reflexivity|]. split; [reflexivity|]. apply app_nil_r.
Qed.

(** C6, amended. For a render asset whose resource is falsy the load
    callback returns at once and changes nothing, and so does [patch] when
    the asset names no container or the container is registered and
    loaded. When the container is registered and not loaded, [patch] does
    not look at the resource: it subscribes to the load notification and
    requests the load. *)
Theorem falsy_resource_patch (a : assetRef) (st : State Meshes) ra :
  renderAssets st !! a = Some ra ->
  resource ra = None ->
  (forall ca, onContainerAssetLoaded a ca st = Normal st)
  /\ (id_truthy (data_containerAsset ra) = None -> patch a st = Normal st)
  /\ (forall cid ca,
        id_truthy (data_containerAsset ra) = Some cid ->
        registry_get cid st = Some ca ->
        patch a st
        = if loaded ca then Normal st
          else Normal (registry_load ca
                         (registry_once (EvLoad (id ca)) OnContainerAssetLoaded a st))).
Proof.
  intros Ha Hr.
  assert (Hcb : forall ca, onContainerAssetLoaded a ca st = Normal st).
  { intros ca. unfold onContainerAssetLoaded. rewrite Ha, Hr. reflexivity. }
  split; [exact Hcb|]. split.
  - intros Hid. unfold patch. rewrite Ha, Hid. reflexivity.
  - intros cid ca Hid Hget. unfold patch. rewrite Ha, Hid, Hget.
    destruct (loaded ca); simpl; [apply Hcb|reflexivity].
Qed.

End Facts.

(** C2. With the container not registered (case iii) [patch] raises a
    TypeError: the event key is built from [containerAsset.id] while
    [containerAsset] is undefined. The state is unchanged, so no
    subscription waits for the container: when the loaded container is
    registered afterwards nothing is extracted and the render asset stays
    without its mesh group, unlike in the cases (i) and (ii). *)
Theorem patch_unregistered_container_raises :
  registry_get 7 state_unregistered = None
  /\ patch 0%nat state_unregistered = Thrown TypeError state_unregistered
  /\ subs state_unregistered = []
  /\ exists st',
       add_asset container_7_loaded state_unregistered = Normal st'
       /\ renderAssets st' !! 0%nat = Some (render_asset_0 (Some {| meshes := None |}))
       /\ extractions st' = 0%nat.
Proof.
  split; [reflexivity|]. split; [|split; [reflexivity|]].
  - apply (patch_unregistered_raises 0%nat state_unregistered
             (render_asset_0 (Some {| meshes := None |})) 7); reflexivity.
  - eexists. split; [reflexivity|]. split; reflexivity.
Qed.

(** Cases (i) and (ii) on the concrete registries: both end with mesh
    group 101 assigned after one extraction. *)
Example patch_loaded_example :
  exists st',
    patch 0%nat state_loaded = Normal st'
    /\ renderAssets st' !! 0%nat = Some (render_asset_0 (Some {| meshes := Some 101%nat |}))
    /\ extractions st' = 1%nat.
Proof.
  eexists. split; [reflexivity|]. split; reflexivity.
Qed.

Example patch_unloaded_example :
  exists st1 st2,
    patch 0%nat state_unloaded = Normal st1
    /\ finish_load container_7_unloaded container_7_resources st1 = Normal st2
    /\ renderAssets st2 !! 0%nat = Some (render_asset_0 (Some {| meshes := Some 101%nat |}))
    /\ extractions st2 = 1%nat.
Proof.
  eexists. eexists. split; [reflexivity|]. split; [reflexivity|].
  split; reflexivity.
Qed.

(** C6, as stated, fails: the render asset has no resource, the container
    is registered and not loaded, and [patch] adds a subscription and
    requests the load. *)
Lemma patch_falsy_resource_subscribes :
  renderAssets state_unloaded_no_resource !! 0%nat = Some (render_asset_0 None)
  /\ exists st',
       patch 0%nat state_unloaded_no_resource = Normal st'
       /\ subs st' = [{| sub_key := EvLoad 7;
                        sub_handler := OnContainerAssetLoaded;
                        sub_scope := 0%nat |}]
       /\ loads st' = [7]
       /\ st' <> state_unloaded_no_resource.
Proof.
  split; [reflexivity|]. eexists. split; [reflexivity|].
  split; [reflexivity|]. split; [reflexivity|].
  intros Heq. apply (f_equal loads) in Heq. discriminate Heq.
Qed.

Lemma falsy_resource_patch_witness :
  patch 0%nat state_loaded_no_resource = Normal state_loaded_no_resource.
Proof.
  pose proof (proj2 (proj2 (falsy_resource_patch 0%nat state_loaded_no_resource
                              (render_asset_0 None) eq_refl eq_refl))
                7 container_7_loaded eq_refl eq_refl) as H.
  exact H.
Defined.

End RenderHandlerFacts.

(** * Properties of the render component *)
Module RenderComponentFacts.
Import Js RenderComponent.

(** ** The layer collections *)

Lemma elem_of_push_absent (l xs : list ref) (x : ref) :
  x ∈ push_absent l xs <-> x ∈ l \/ x ∈ xs.
Proof.
  unfold push_absent. revert l.
  induction xs as [|m xs IH]; intros l; simpl.
  - rewrite elem_of_nil. tauto.
  - rewrite IH. rewrite elem_of_cons.
    destruct (bool_decide_reflect (m ∈ l)) as [Hin|Hout].
    + split; [tauto|]. intros [?|[->|?]]; tauto.
    + rewrite elem_of_app, list_elem_of_singleton. tauto.
Qed.

Lemma NoDup_push_absent (l xs : list ref) :
  NoDup l -> NoDup (push_absent l xs).
Proof.
  unfold push_absent. revert l.
  induction xs as [|m xs IH]; intros l Hl; simpl; [exact Hl|].
  apply IH. destruct (bool_decide_reflect (m ∈ l)) as [Hin|Hout]; [exact Hl|].
  apply NoDup_app. split; [exact Hl|]. split.
  - intros x Hx Hx'. apply list_elem_of_singleton in Hx'. subst. contradiction.
  - apply NoDup_singleton.
Qed.

Lemma push_absent_present (l xs : list ref) :
  (forall x, x ∈ xs -> x ∈ l) -> push_absent l xs = l.
Proof.
  unfold push_absent. induction xs as [|m xs IH]; intros Hall; simpl; [reflexivity|].
  rewrite bool_decide_eq_true_2 by (apply Hall; left).
  apply IH. intros x Hx. apply Hall. right. exact Hx.
Qed.

Lemma push_absent_idemp (l xs : list ref) :
  push_absent (push_absent l xs) xs = push_absent l xs.
Proof.
  apply push_absent_present. intros x Hx. apply elem_of_push_absent. right. exact Hx.
Qed.

Lemma elem_of_remove_all (l xs : list ref) (x : ref) :
  x ∈ remove_all l xs <-> x ∈ l /\ x ∉ xs.
Proof.
  unfold remove_all. rewrite list_elem_of_filter. tauto.
Qed.

Lemma NoDup_remove_all (l xs : list ref) :
  NoDup l -> NoDup (remove_all l xs).
Proof. apply NoDup_filter. Qed.

Lemma remove_all_absent (l xs : list ref) :
  (forall x, x ∈ l -> x ∉ xs) -> remove_all l xs = l.
Proof.
  unfold remove_all. induction l as [|m l IH]; intros Hall; [reflexivity|].
  rewrite filter_cons. destruct (decide (m ∉ xs)) as [_|Hin].
  - f_equal. apply IH. intros x Hx. apply Hall. right. exact Hx.
  - exfalso. apply Hin, Hall. left.
Qed.

Lemma remove_all_idemp (l xs : list ref) :
  remove_all (remove_all l xs) xs = remove_all l xs.
Proof.
  apply remove_all_absent. intros x Hx. apply elem_of_remove_all in Hx. tauto.
Qed.

(** ** The loop over the layer set *)
Section Facts.
Context {EN : Engine}.

Lemma visit_layer_fields op call (W : World) lid :
  comp (visit_layer op call W lid) = comp W
  /\ heap (visit_layer op call W lid) = heap W
  /\ batchGroups (visit_layer op call W lid) = batchGroups W
  /\ inTools (visit_layer op call W lid) = inTools W.
Proof.
  unfold visit_layer. destruct (layers W !! lid); repeat split; reflexivity.
Qed.

Lemma visit_layer_lookup op call (W : World) lid lid' :
  layers (visit_layer op call W lid) !! lid'
  = if decide (lid = lid') then op <$> layers W !! lid' else layers W !! lid'.
Proof.
  unfold visit_layer. destruct (decide (lid = lid')) as [->|Hne].
  - destruct (layers W !! lid') as [L|] eqn:HL; simpl.
    + rewrite lookup_insert_eq. reflexivity.
    + exact HL.
  - destruct (layers W !! lid) as [L|] eqn:HL; simpl; [|reflexivity].
    rewrite lookup_insert_ne by exact Hne. reflexivity.
Qed.

Lemma visit_layer_trace op call (W : World) lid :
  trace (visit_layer op call W lid)
  = trace W ++ (if resolvable W lid then [call lid] else []).
Proof.
  unfold visit_layer, resolvable. destruct (layers W !! lid) as [L|] eqn:HL; simpl.
  - reflexivity.
  - symmetry. apply app_nil_r.
Qed.

Lemma visit_layer_resolvable op call (W : World) lid lid' :
  resolvable (visit_layer op call W lid) lid' = resolvable W lid'.
Proof.
  unfold resolvable. rewrite visit_layer_lookup.
  destruct (decide (lid = lid')); [|reflexivity].
  destruct (layers W !! lid'); reflexivity.
Qed.

Lemma fold_layers_fields op call ids : forall W : World,
  comp (foldl (visit_layer op call) W ids) = comp W
  /\ heap (foldl (visit_layer op call) W ids) = heap W
  /\ batchGroups (foldl (visit_layer op call) W ids) = batchGroups W
  /\ inTools (foldl (visit_layer op call) W ids) = inTools W.
Proof.
  induction ids as [|lid ids IH]; intros W; simpl; [repeat split; reflexivity|].
  destruct (IH (visit_layer op call W lid)) as (-> & -> & -> & ->).
  apply visit_layer_fields.
Qed.

Lemma fold_layers_lookup_notin op call ids lid' : forall W : World,
  lid' ∉ ids ->
  layers (foldl (visit_layer op call) W ids) !! lid' = layers W !! lid'.
Proof.
  induction ids as [|lid ids IH]; intros W Hout; simpl; [reflexivity|].
  apply not_elem_of_cons in Hout as [Hne Hout].
  rewrite IH by exact Hout. rewrite visit_layer_lookup.
  destruct (decide (lid = lid')); [congruence|reflexivity].
Qed.

Lemma fold_layers_lookup_in op call ids lid' :
  (forall L, op (op L) = op L) ->
  forall W : World,
  lid' ∈ ids ->
  layers (foldl (visit_layer op call) W ids) !! lid' = op <$> layers W !! lid'.
Proof.
  intros Hidem. induction ids as [|lid ids IH]; intros W Hin; simpl.
  - apply elem_of_nil in Hin. contradiction.
  - destruct (decide (lid' ∈ ids)) as [Hrest|Hrest].
    + rewrite IH by exact Hrest. rewrite visit_layer_lookup.
      destruct (decide (lid = lid')); [|reflexivity].
      destruct (layers W !! lid'); simpl; [|reflexivity]. rewrite Hidem. reflexivity.
    + rewrite fold_layers_lookup_notin by exact Hrest.
      rewrite visit_layer_lookup.
      apply elem_of_cons in Hin as [->|?]; [|contradiction].
      rewrite decide_True by reflexivity. reflexivity.
Qed.

Lemma fold_layers_trace op call ids : forall W : World,
  trace (foldl (visit_layer op call) W ids)
  = trace W ++ (call <$> filter (fun lid => resolvable W lid = true) ids).
Proof.
  induction ids as [|lid ids IH]; intros W; simpl.
  - symmetry. apply app_nil_r.
  - rewrite IH, visit_layer_trace, <- app_assoc. f_equal.
    rewrite filter_cons.
    assert (Hsame : filter (fun l => resolvable (visit_layer op call W lid) l = true) ids
                    = filter (fun l => resolvable W l = true) ids).
    { apply list_filter_iff. intros l. rewrite visit_layer_resolvable. reflexivity. }
    rewrite Hsame.
    destruct (resolvable W lid) eqn:Hres.
    + rewrite decide_True by reflexivity. reflexivity.
    + rewrite decide_False by discriminate. reflexivity.
Qed.

(** The names of the layers of the layer set that resolve. *)
Lemma for_each_layer_trace op call (W : World) :
  trace (for_each_layer op call W)
  = trace W ++ (call <$> filter (fun lid => resolvable W lid = true) (_layers (comp W))).
Proof. apply fold_layers_trace. Qed.

Lemma for_each_layer_fields op call (W : World) :
  comp (for_each_layer op call W) = comp W
  /\ heap (for_each_layer op call W) = heap W
  /\ batchGroups (for_each_layer op call W) = batchGroups W
  /\ inTools (for_each_layer op call W) = inTools W.
Proof. apply fold_layers_fields. Qed.

Lemma for_each_layer_lookup op call (W : World) lid :
  (forall L, op (op L) = op L) ->
  layers (for_each_layer op call W) !! lid
  = if decide (lid ∈ _layers (comp W)) then op <$> layers W !! lid
    else layers W !! lid.
Proof.
  intros Hidem. unfold for_each_layer. destruct (decide (lid ∈ _layers (comp W))).
  - apply fold_layers_lookup_in; assumption.
  - apply fold_layers_lookup_notin; assumption.
Qed.

Lemma Layer_addMeshInstances_idemp mi L :
  Layer_addMeshInstances mi (Layer_addMeshInstances mi L) = Layer_addMeshInstances mi L.
Proof. unfold Layer_addMeshInstances. simpl. rewrite push_absent_idemp. reflexivity. Qed.

Lemma Layer_removeMeshInstances_idemp mi L :
  Layer_removeMeshInstances mi (Layer_removeMeshInstances mi L)
  = Layer_removeMeshInstances mi L.
Proof. unfold Layer_removeMeshInstances. simpl. rewrite remove_all_idemp. reflexivity. Qed.

Lemma Layer_addShadowCasters_idemp mi L :
  Layer_addShadowCasters mi (Layer_addShadowCasters mi L) = Layer_addShadowCasters mi L.
Proof. unfold Layer_addShadowCasters. simpl. rewrite push_absent_idemp. reflexivity. Qed.

Lemma Layer_removeShadowCasters_idemp mi L :
  Layer_removeShadowCasters mi (Layer_removeShadowCasters mi L)
  = Layer_removeShadowCasters mi L.
Proof. unfold Layer_removeShadowCasters. simpl. rewrite remove_all_idemp. reflexivity. Qed.

Create HintDb layer_ops discriminated.
#[local] Hint Resolve Layer_addMeshInstances_idemp Layer_removeMeshInstances_idemp
  Layer_addShadowCasters_idemp Layer_removeShadowCasters_idemp : layer_ops.

(** Side conditions of the lookup lemmas: the layer operation at hand is
    idempotent. *)
Ltac layer_idem :=
  repeat match goal with
         | x := _ : Layer -> Layer |- _ => progress unfold x
         end;
  auto with layer_ops.

Lemma flip_castShadow_fields v mi : forall W : World,
  comp (flip_castShadow v mi W) = comp W
  /\ layers (flip_castShadow v mi W) = layers W
  /\ batchGroups (flip_castShadow v mi W) = batchGroups W
  /\ trace (flip_castShadow v mi W) = trace W ++ ((fun r => WriteCastShadow r v) <$> mi).
Proof.
  unfold flip_castShadow. induction mi as [|r mi IH]; intros W; simpl.
  - repeat split; try reflexivity. symmetry. apply app_nil_r.
  - destruct (IH (log (WriteCastShadow r v) (upd_heap (alter (write_castShadow v) r) W)))
      as (-> & -> & -> & ->).
    simpl. rewrite <- app_assoc. repeat split; reflexivity.
Qed.





(** ** castShadows *)

(** Turning [castShadows] on makes the instances shadow casters of every
    layer of the layer set that resolves: the state the round trip below
    starts from. *)
Lemma set_castShadows_true_registers (W : World) (mi : list ref) :
  _castShadows (comp W) = false ->
  _meshInstances (comp W) = Some mi ->
  forall lid L', lid ∈ _layers (comp W) ->
    layers (set_castShadows true W) !! lid = Some L' ->
    forall m, m ∈ mi -> m ∈ shadowCasters L'.
Proof.
  intros Hcs Hmi lid L' Hin HL' m Hm.
  unfold set_castShadows in HL'. rewrite Hcs, Hmi in HL'. simpl in HL'.
  destruct (flip_castShadow_fields true mi W) as (Hfc & Hfl & _ & _).
  rewrite for_each_layer_lookup in HL' by layer_idem.
  rewrite Hfc, Hfl, decide_True in HL' by exact Hin.
  destruct (layers W !! lid) as [L|]; [|discriminate].
  injection HL' as <-. unfold Layer_addShadowCasters. cbn [shadowCasters].
  apply elem_of_push_absent. right. exact Hm.
Qed.


(** ** batchGroupId *)

Lemma batcher_insert_spec (W : World) (mi : list ref) (g : Z) :
  _meshInstances (comp W) = Some mi ->
  let W' := batcher_insert g (entity (comp W)) W in
  comp W' = comp W
  /\ batchGroups W'
     = <[g := push_absent (default [] (batchGroups W !! g)) [entity (comp W)]]>
         (batchGroups W)
  /\ (forall lid,
        layers W' !! lid
        = if decide (lid ∈ _layers (comp W))
          then Layer_removeMeshInstances mi <$> layers W !! lid
          else layers W !! lid).
Proof.
  intros Hmi W'. unfold W', batcher_insert. simpl. rewrite Hmi.
  rewrite bool_decide_eq_true_2 by reflexivity.
  match goal with
  | |- context [for_each_layer ?op ?call ?X] =>
      destruct (for_each_layer_fields op call X) as (-> & _ & -> & _);
      split; [reflexivity|]; split; [reflexivity|];
      intros lid; rewrite (for_each_layer_lookup op call X lid)
        by layer_idem
  end.
  reflexivity.
Qed.

Lemma set_batchGroupId_assign (W : World) (g : Z) :
  entity_enabled (comp W) = true ->
  _batchGroupId (comp W) = -1 ->
  0 <= g ->
  set_batchGroupId g W
  = Normal (upd_comp (with_batchGroupId g) (batcher_insert g (entity (comp W)) W)).
Proof.
  intros Hee Hbg Hg. unfold set_batchGroupId. rewrite Hbg, Hee.
  assert (Hg1 : (-1 =? g) = false) by (apply Z.eqb_neq; lia).
  assert (Hg2 : (0 <=? g) = true) by (apply Z.leb_le; lia).
  assert (Hg3 : (g <? 0) = false) by (apply Z.ltb_ge; lia).
  rewrite Hg1, Hg2, Hg3. reflexivity.
Qed.

Lemma set_batchGroupId_clear (W : World) (mi : list ref) (g : Z) :
  enabled (comp W) = true ->
  entity_enabled (comp W) = true ->
  _meshInstances (comp W) = Some mi ->
  _batchGroupId (comp W) = g ->
  0 <= g ->
  set_batchGroupId (-1) W
  = Normal (upd_comp (with_batchGroupId (-1))
              (for_each_layer (Layer_addMeshInstances mi)
                 (fun lid => LayerAddMeshInstances lid mi)
                 (batcher_remove g (entity (comp W)) W))).
Proof.
  intros He Hee Hmi Hbg Hg. unfold set_batchGroupId. rewrite Hbg, Hee, He.
  assert (Hg1 : (g =? -1) = false) by (apply Z.eqb_neq; lia).
  assert (Hg2 : (0 <=? g) = true) by (apply Z.leb_le; lia).
  rewrite Hg1, Hg2. simpl. unfold addToLayers. simpl. rewrite Hmi. reflexivity.
Qed.

(** C5. Take a component with mesh instances, enabled together with its
    entity, and no batch group. Setting [batchGroupId] to an id [g >= 0]
    registers the entity with group [g], and no mesh instance of the
    component is left in the mesh-instance list of a layer of its layer
    set. Setting it back to -1 takes the entity out of the group and
    registers the mesh instances in every layer of the layer set that
    resolves: such a layer then holds what it held at the start together
    with the component's instances (so exactly what it held, when they were
    registered), and no instance twice if none was there twice at the
    start. *)
Theorem batchGroupId_round_trip (W : World) (mi : list ref) (g : Z) :
  enabled (comp W) = true ->
  entity_enabled (comp W) = true ->
  _meshInstances (comp W) = Some mi ->
  _batchGroupId (comp W) = -1 ->
  0 <= g ->
  exists W1 W2,
    set_batchGroupId g W = Normal W1
    /\ set_batchGroupId (-1) W1 = Normal W2
    /\ _batchGroupId (comp W1) = g
    /\ (exists members,
          batchGroups W1 !! g = Some members /\ entity (comp W) ∈ members)
    /\ (forall lid L1, lid ∈ _layers (comp W) -> layers W1 !! lid = Some L1 ->
          forall m, m ∈ mi -> m ∉ meshInstances L1)
    /\ _batchGroupId (comp W2) = -1
    /\ (forall members, batchGroups W2 !! g = Some members ->
          entity (comp W) ∉ members)
    /\ (forall lid L, lid ∈ _layers (comp W) -> layers W !! lid = Some L ->
          exists L2,
            layers W2 !! lid = Some L2
            /\ (forall x, x ∈ meshInstances L2 <-> x ∈ meshInstances L \/ x ∈ mi)
            /\ (NoDup (meshInstances L) -> NoDup (meshInstances L2))).
Proof.
  intros He Hee Hmi Hbg Hg.
  set (e := entity (comp W)).
  set (Wi := batcher_insert g e W).
  set (W1 := upd_comp (with_batchGroupId g) Wi).
  destruct (batcher_insert_spec W mi g Hmi) as (Hic & Hib & Hil).
  fold e Wi in Hic, Hib, Hil.
  assert (Hc1 : comp W1 = with_batchGroupId g (comp W)).
  { unfold W1. simpl. rewrite Hic. reflexivity. }
  set (Wr := batcher_remove g e W1).
  set (Wa := for_each_layer (Layer_addMeshInstances mi)
               (fun lid => LayerAddMeshInstances lid mi) Wr).
  set (W2 := upd_comp (with_batchGroupId (-1)) Wa).
  exists W1, W2.
  split; [apply set_batchGroupId_assign; assumption|].
  split.
  { rewrite (set_batchGroupId_clear W1 mi g); rewrite ?Hc1; simpl; try assumption.
    - reflexivity.
    - reflexivity. }
  destruct (for_each_layer_fields (Layer_addMeshInstances mi)
              (fun lid => LayerAddMeshInstances lid mi) Wr) as (Hac & _ & Hab & _).
  fold Wa in Hac, Hab.
  split; [rewrite Hc1; reflexivity|].
  split.
  { exists (push_absent (default [] (batchGroups W !! g)) [e]). split.
    - change (batchGroups W1) with (batchGroups Wi). rewrite Hib.
      apply lookup_insert_eq.
    - apply elem_of_push_absent. right. left. }
  split.
  { intros lid L1 Hin HL1 m Hm.
    change (layers W1) with (layers Wi) in HL1.
    rewrite Hil, decide_True in HL1 by exact Hin.
    destruct (layers W !! lid) as [L|]; [|discriminate].
    injection HL1 as <-. simpl. rewrite elem_of_remove_all. tauto. }
  split; [reflexivity|].
  split.
  { intros members Hm.
    change (batchGroups W2) with (batchGroups Wa) in Hm. rewrite Hab in Hm.
    change (batchGroups Wr)
      with (alter (fun ms => remove_all ms [e]) g (batchGroups Wi)) in Hm.
    rewrite lookup_alter_eq in Hm.
    destruct (batchGroups Wi !! g) as [ms|]; [|discriminate].
    injection Hm as <-. rewrite elem_of_remove_all. intros [_ Hne].
    apply Hne. left. }
  intros lid L Hin HL.
  change (layers W2) with (layers Wa). unfold Wa.
  rewrite for_each_layer_lookup by layer_idem.
  assert (Hlr : _layers (comp Wr) = _layers (comp W)).
  { change (comp Wr) with (comp W1). rewrite Hc1. reflexivity. }
  rewrite Hlr, decide_True by exact Hin.
  change (layers Wr) with (layers Wi).
  rewrite Hil, decide_True, HL by exact Hin.
  eexists. split; [reflexivity|].
  unfold Layer_addMeshInstances, Layer_removeMeshInstances.
  cbn [meshInstances]. split.
  - intros x. rewrite elem_of_push_absent, elem_of_remove_all.
    split; [tauto|]. intros [Hx|Hx]; [|tauto].
    destruct (decide (x ∈ mi)); tauto.
  - intros Hnd. apply NoDup_push_absent, NoDup_remove_all, Hnd.
Qed.

(** ** meshInstances and type *)

Lemma set_lightmapped_same (W : World) :
  set_lightmapped (_lightmapped (comp W)) W = W.
Proof. unfold set_lightmapped. rewrite eqb_reflx. reflexivity. Qed.

(** The sibling path of C3: the [meshInstances] setter takes the old
    instances out of every layer of the layer set before it assigns the new
    list; an old instance is in such a layer afterwards only if it is in
    the new list as well. *)
Lemma set_meshInstances_unbinds_first (W : World) (old : list ref)
    (value : option (list ref)) :
  _meshInstances (comp W) = Some old ->
  exists W' rest,
    set_meshInstances value W = Normal W'
    /\ _meshInstances (comp W') = value
    /\ trace W'
       = trace W
         ++ ((fun lid => LayerRemoveMeshInstances lid old)
               <$> filter (fun lid => resolvable W lid = true) (_layers (comp W)))
         ++ AssignMeshInstances value :: rest
    /\ (forall lid L', lid ∈ _layers (comp W) -> layers W' !! lid = Some L' ->
          forall m, m ∈ old -> m ∈ meshInstances L' ->
          exists new, value = Some new /\ m ∈ new).
Proof.
  intros Hold. unfold set_meshInstances, removeFromLayers. rewrite Hold.
  cbn [and_then]. cbv zeta.
  set (rm := Layer_removeMeshInstances old).
  set (Wr := for_each_layer rm (fun lid => LayerRemoveMeshInstances lid old) W).
  destruct (for_each_layer_fields rm (fun lid => LayerRemoveMeshInstances lid old) W)
    as (Hrc & _ & _ & _). fold Wr in Hrc.
  pose proof (for_each_layer_trace rm (fun lid => LayerRemoveMeshInstances lid old) W) as Hrt.
  fold Wr in Hrt.
  assert (Hrl : forall lid L', lid ∈ _layers (comp W) -> layers Wr !! lid = Some L' ->
                  forall m, m ∈ old -> m ∉ meshInstances L').
  { intros lid L' Hin HL' m Hm. unfold Wr in HL'.
    rewrite for_each_layer_lookup, decide_True in HL'
      by (exact Hin || layer_idem).
    destruct (layers W !! lid) as [L|]; [|discriminate].
    injection HL' as <-. simpl. rewrite elem_of_remove_all. tauto. }
  destruct value as [new|].
  - rewrite set_lightmapped_same.
    match goal with
    | |- context [if _ then addToLayers ?X else Normal ?X] => set (W4 := X)
    end.
    destruct (enabled (comp W4) && entity_enabled (comp W4)).
    + unfold addToLayers.
      assert (Hm4 : _meshInstances (comp W4) = Some new) by reflexivity.
      rewrite Hm4.
      set (ad := Layer_addMeshInstances new).
      set (Wd := for_each_layer ad (fun lid => LayerAddMeshInstances lid new) W4).
      destruct (for_each_layer_fields ad (fun lid => LayerAddMeshInstances lid new) W4)
        as (Hdc & _ & _ & _). fold Wd in Hdc.
      pose proof (for_each_layer_trace ad (fun lid => LayerAddMeshInstances lid new) W4) as Hdt.
      fold Wd in Hdt.
      eexists. eexists. split; [reflexivity|].
      split; [rewrite Hdc; reflexivity|]. split.
      * rewrite Hdt. unfold W4. simpl. rewrite Hrt, <- !app_assoc. simpl. reflexivity.
      * intros lid L' Hin HL' m Hm HmL. exists new. split; [reflexivity|].
        unfold Wd in HL'.
        rewrite for_each_layer_lookup in HL' by layer_idem.
        assert (Hl4 : _layers (comp W4) = _layers (comp W))
          by (unfold W4; simpl; rewrite Hrc; reflexivity).
        rewrite Hl4, decide_True in HL' by exact Hin.
        assert (Hlay4 : layers W4 = layers Wr) by reflexivity.
        rewrite Hlay4 in HL'.
        destruct (layers Wr !! lid) as [Lr|] eqn:HLr; [|discriminate].
        injection HL' as <-. simpl in HmL.
        apply elem_of_push_absent in HmL as [HmL|HmL]; [|exact HmL].
        exfalso. exact (Hrl lid Lr Hin HLr m Hm HmL).
    + eexists. exists []. split; [reflexivity|]. split; [reflexivity|]. split.
      * unfold W4. simpl. rewrite Hrt, <- app_assoc. reflexivity.
      * intros lid L' Hin HL' m Hm HmL. exfalso.
        exact (Hrl lid L' Hin HL' m Hm HmL).
  - eexists. exists []. split; [reflexivity|]. split; [reflexivity|]. split.
    + simpl. rewrite Hrt, <- app_assoc. reflexivity.
    + intros lid L' Hin HL' m Hm HmL. exfalso.
      exact (Hrl lid L' Hin HL' m Hm HmL).
Qed.

(** The [type] setter in general: switching to a primitive shape assigns a
    fresh instance and calls no layer. *)
Lemma set_type_keeps_layers (W : World) (value : string) area primMesh :
  _type (comp W) <> value ->
  value <> "asset"%string ->
  getShapePrimitive value = Some (area, primMesh) ->
  inTools W = false ->
  exists W',
    set_type value W = Normal W'
    /\ _meshInstances (comp W') = Some [fresh (dom (heap W))]
    /\ layers W' = layers W
    /\ trace W' = trace W ++ [AssignMeshInstances (Some [fresh (dom (heap W))])].
Proof.
  intros Hty Hna Hprim Htools. unfold set_type.
  apply String.eqb_neq in Hty, Hna. rewrite Hty, Hna. simpl.
  rewrite Hprim. simpl. rewrite Htools.
  eexists. split; [reflexivity|]. repeat split; reflexivity.
Qed.

(** ** receiveShadows *)

(** The [receiveShadows] setter in general: with a non-empty list and a
    new value it raises, after storing the value, with no flag written. *)
Lemma set_receiveShadows_raises (W : World) (value : bool) r rs :
  _receiveShadows (comp W) <> value ->
  _meshInstances (comp W) = Some (r :: rs) ->
  set_receiveShadows value W
  = Thrown ReferenceError (upd_comp (with_receiveShadows value) W).
Proof.
  intros Hne Hmi. unfold set_receiveShadows.
  destruct (eqb (_receiveShadows (comp W)) value) eqn:Heq.
  - apply eqb_prop in Heq. contradiction.
  - simpl. rewrite Hmi. reflexivity.
Qed.

End Facts.



Lemma batchGroupId_round_trip_witness :
  exists W1 W2,
    set_batchGroupId 6 sample_world = Normal W1
    /\ set_batchGroupId (-1) W1 = Normal W2
    /\ layers W1 !! 0 = Some {| meshInstances := [20%nat];
                                shadowCasters := [10%nat; 20%nat; 11%nat] |}
    /\ batchGroups W1 !! 6 = Some [1%nat]
    /\ layers W2 !! 0 = Some {| meshInstances := [20%nat; 10%nat; 11%nat];
                                shadowCasters := [10%nat; 20%nat; 11%nat] |}
    /\ batchGroups W2 !! 6 = Some [].
Proof.
  destruct (batchGroupId_round_trip sample_world [10%nat; 11%nat] 6
              eq_refl eq_refl eq_refl eq_refl ltac:(lia))
    as (W1 & W2 & H1 & H2 & _).
  exists W1, W2. split; [exact H1|]. split; [exact H2|].
  vm_compute in H1. injection H1 as <-.
  vm_compute in H2. injection H2 as <-.
  repeat split; vm_compute; reflexivity.
Defined.

(** C3. On the sample scene, whose component is asset-driven with the
    instances 10 and 11 registered in the world layer, switching [type] to
    "box" replaces the list by one fresh instance without calling any
    layer: 10 and 11 stay in the mesh-instance list and among the shadow
    casters of the layer while the component no longer owns them (and the
    new instance is in no layer). The [meshInstances] setter does unbind
    first ([set_meshInstances_unbinds_first]). *)
Theorem set_type_leaves_old_instances_in_layers :
  _meshInstances (comp sample_world) = Some [10%nat; 11%nat]
  /\ match set_type "box" sample_world with
     | Normal W' =>
         _meshInstances (comp W') = Some [21%nat]
         /\ layers W' !! 0 = Some {| meshInstances := [20%nat; 10%nat; 11%nat];
                                     shadowCasters := [10%nat; 20%nat; 11%nat] |}
         /\ trace W' = [AssignMeshInstances (Some [21%nat])]
     | Thrown _ _ => False
     end.
Proof.
  split; [reflexivity|]. vm_compute. repeat split; reflexivity.
Qed.

(** C9. On the sample scene, whose component has two instances and
    [receiveShadows] true, setting [receiveShadows] to false raises a
    ReferenceError: the loop body names [meshInstances], which is not
    bound. The component's own field has been updated, the flag of no
    instance has. *)
Theorem set_receiveShadows_raises_on_instances :
  match set_receiveShadows false sample_world with
  | Thrown err W' =>
      err = ReferenceError
      /\ _receiveShadows (comp W') = false
      /\ heap W' = heap sample_world
      /\ receiveShadow <$> heap W' !! 10%nat = Some true
  | Normal _ => False
  end.
Proof.
  rewrite (set_receiveShadows_raises sample_world false 10%nat [11%nat])
    by (discriminate || reflexivity).
  repeat split; reflexivity.
Qed.

End RenderComponentFacts.

(** * Further properties of the texture handler *)
Module TextureMoreFacts.
Import Js JsMore Texture TextureMore TextureFacts.

(** ** Query parameters and parser selection *)

Lemma has_question_append (a q : string) :
  has_question (String.append a (String "?"%char q)) = true.
Proof.
  induction a as [|c a IH]; simpl; [reflexivity|].
  rewrite IH. apply orb_true_r.
Qed.

Lemma split_question_head_append (a q : string) :
  has_question a = false ->
  split_question_head (String.append a (String "?"%char q)) = a.
Proof.
  induction a as [|c a IH]; simpl; [reflexivity|].
  intros Hq. apply orb_false_iff in Hq as [Hc Ha].
  rewrite Hc. f_equal. apply IH, Ha.
Qed.

Lemma split_question_head_clean (url : string) :
  has_question (split_question_head url) = false.
Proof.
  induction url as [|c url IH]; simpl; [reflexivity|].
  destruct (Ascii.eqb c "?"%char) eqn:Hc; simpl; [reflexivity|].
  rewrite Hc. exact IH.
Qed.

(** X1. [_getUrlWithoutParams] cuts a url at its first question mark: a url
    [a?q] with no question mark in [a] gives [a], a url without question
    mark is returned as it is, and the result never holds a question
    mark. *)
Theorem getUrlWithoutParams_strips_query (a q : string) :
  has_question a = false ->
  _getUrlWithoutParams (String.append a (String "?"%char q)) = a
  /\ _getUrlWithoutParams a = a
  /\ forall url, has_question (_getUrlWithoutParams url) = false.
Proof.
  intros Ha. unfold _getUrlWithoutParams.
  rewrite has_question_append, Ha.
  split; [apply split_question_head_append, Ha|]. split; [reflexivity|].
  intros url. destruct (has_question url) eqn:Hu; [|exact Hu].
  apply split_question_head_clean.
Qed.

Lemma getUrlWithoutParams_strips_query_witness :
  _getUrlWithoutParams "tex/wall.dds?t=12&v=3" = "tex/wall.dds"%string.
Proof.
  exact (proj1 (getUrlWithoutParams_strips_query "tex/wall.dds" "t=12&v=3" eq_refl)).
Defined.

Section Parser.
Context {PA : PixelArith} {HO : Host}.

(** X2. The query parameters of a url have no part in the choice of the
    parser. *)
Theorem getParser_ignores_query (a q : string) :
  has_question a = false ->
  _getParser (String.append a (String "?"%char q)) = _getParser a.
Proof.
  intros Ha. unfold _getParser, _getUrlWithoutParams.
  rewrite has_question_append, Ha, (split_question_head_append a q Ha).
  reflexivity.
Qed.

End Parser.

Lemma getParser_ignores_query_witness :
  @_getParser u8_arith pot_host "wall.dds?v=3" = SelParser DdsParser.
Proof.
  exact (eq_trans
           (@getParser_ignores_query u8_arith pot_host "wall.dds" "v=3" eq_refl)
           eq_refl).
Defined.

(** ** The level loop keeps what it is given *)
Section LoopMore.
Context {L : Type} (synth : Z -> Z -> option L -> option L) (W H : Z).

Lemma level_loop_extends fuel : forall level (levels : list L) o,
  level_loop synth W H fuel level levels = Some o ->
  exists extra, outcome_state o = levels ++ extra.
Proof.
  induction fuel as [|fuel IH]; intros level levels o; simpl; [discriminate|].
  destruct (lt_requiredMipLevels level (Z.max W H)).
  - destruct (synth _ _ _) as [mip|].
    + intros Hrun. destruct (IH _ _ _ Hrun) as [extra ->].
      exists (mip :: extra). rewrite <- app_assoc. reflexivity.
    + intros [= <-]. exists []. simpl. symmetry. apply app_nil_r.
  - intros [= <-]. exists []. simpl. symmetry. apply app_nil_r.
Qed.

Lemma level_loop_normal_stops fuel : forall (levels levels' : list L),
  level_loop synth W H fuel (Z.of_nat (length levels)) levels = Some (Normal levels') ->
  lt_requiredMipLevels (Z.of_nat (length levels')) (Z.max W H) = false.
Proof.
  induction fuel as [|fuel IH]; intros levels levels'; simpl; [discriminate|].
  destruct (lt_requiredMipLevels (Z.of_nat (length levels)) (Z.max W H)) eqn:Hlt.
  - destruct (synth _ _ _) as [mip|]; [|discriminate].
    replace (Z.of_nat (length levels) + 1)
      with (Z.of_nat (length (levels ++ [mip])))
      by (rewrite length_app; simpl; lia).
    apply IH.
  - intros [= <-]. exact Hlt.
Qed.

Lemma level_loop_stopped fuel (levels : list L) level :
  lt_requiredMipLevels level (Z.max W H) = false ->
  level_loop synth W H (S fuel) level levels = Some (Normal levels).
Proof. intros Hlt. simpl. rewrite Hlt. reflexivity. Qed.

End LoopMore.

(** ** The completion pass *)
Section PassMore.
Context {PA : PixelArith}.

Lemma set_levels_same (t : Texture) : set_levels t (_levels t) = t.
Proof. destruct t. reflexivity. Qed.

Lemma complete_chain_frame (t : Texture) :
  exists o,
    _completePartialMipmapChain t = Some o
    /\ _width (outcome_state o) = _width t
    /\ _height (outcome_state o) = _height t
    /\ _format (outcome_state o) = _format t
    /\ _volume (outcome_state o) = _volume t
    /\ _compressed (outcome_state o) = _compressed t
    /\ same_kind (_levels t) (_levels (outcome_state o)) = true
    /\ levels_as_faces (_levels t)
         `prefix_of` levels_as_faces (_levels (outcome_state o)).
Proof.
  destruct (complete_chain_total t) as [o Ho]. exists o. split; [exact Ho|].
  revert Ho. unfold _completePartialMipmapChain.
  assert (Hsame : forall ls : Levels, same_kind ls ls = true)
    by (intros [?|?]; reflexivity).
  destruct (skips_completion t);
    [intros [= <-]; simpl; repeat split; auto|].
  destruct (level0_isHtmlElement t) as [[|]|];
    try (intros [= <-]; simpl; repeat split; auto).
  destruct (_levels t) as [ls|ls] eqn:Hls.
  - destruct (level_loop synth_flat _ _ _ _ ls) as [r|] eqn:Hrun; [|discriminate].
    destruct (level_loop_extends _ _ _ _ _ _ _ Hrun) as [extra Hex].
    destruct r as [ls'|e ls']; simpl in Hex; subst ls'; intros [= <-]; simpl;
      (repeat split; try reflexivity; rewrite ?Hls; simpl; try reflexivity;
       rewrite map_app; apply prefix_app_r; reflexivity).
  - destruct (level_loop synth_cube _ _ _ _ ls) as [r|] eqn:Hrun; [|discriminate].
    destruct (level_loop_extends _ _ _ _ _ _ _ Hrun) as [extra Hex].
    destruct r as [ls'|e ls']; simpl in Hex; subst ls'; intros [= <-]; simpl;
      (repeat split; try reflexivity; rewrite ?Hls; simpl; try reflexivity;
       apply prefix_app_r; reflexivity).
Qed.

(** X3. The pass always ends, normally or by raising, and either way it
    leaves the size, the format and the flags of the texture as they were
    and the levels it found in place: levels are only appended. *)
Theorem complete_chain_keeps_levels (t : Texture) :
  exists o,
    _completePartialMipmapChain t = Some o
    /\ _width (outcome_state o) = _width t
    /\ _height (outcome_state o) = _height t
    /\ _format (outcome_state o) = _format t
    /\ _volume (outcome_state o) = _volume t
    /\ _compressed (outcome_state o) = _compressed t
    /\ same_kind (_levels t) (_levels (outcome_state o)) = true
    /\ levels_as_faces (_levels t)
         `prefix_of` levels_as_faces (_levels (outcome_state o)).
Proof. apply complete_chain_frame. Qed.

Lemma level0_app_flat (t : Texture) (ls extra : list Source) upd :
  level0_isHtmlElement t = Some false ->
  _levels t = Flat ls ->
  (ls = [] -> extra = []) ->
  level0_isHtmlElement (set_levelsUpdated (set_levels t (Flat (ls ++ extra))) upd)
  = Some false.
Proof.
  unfold level0_isHtmlElement. intros H0 Hls Hnil. rewrite Hls in H0. simpl.
  destruct ls as [|s ls]; [rewrite (Hnil eq_refl); exact H0|exact H0].
Qed.

Lemma level0_app_cube (t : Texture) (ls extra : list (list Source)) upd :
  level0_isHtmlElement t = Some false ->
  _levels t = Cube ls ->
  level0_isHtmlElement (set_levelsUpdated (set_levels t (Cube (ls ++ extra))) upd)
  = Some false.
Proof.
  unfold level0_isHtmlElement. intros H0 Hls. rewrite Hls in H0. simpl.
  destruct ls as [|s ls]; [discriminate H0|exact H0].
Qed.

(** X4. The pass is idempotent. For a texture whose sizes are in the range
    [log2_exact], if the pass returns normally, then run again on the
    texture it returned it returns normally with that same texture: every
    field, the levels and the update flags included, is as the first run
    left it. *)
Theorem complete_chain_idempotent (t t' : Texture) :
  log2_exact t ->
  _completePartialMipmapChain t = Some (Normal t') ->
  _completePartialMipmapChain t' = Some (Normal t').
Proof.
  intros _ Hrun. pose proof Hrun as Hrun0. revert Hrun.
  unfold _completePartialMipmapChain at 1.
  destruct (skips_completion t) eqn:Hskip; [intros [= <-]; exact Hrun0|].
  destruct (level0_isHtmlElement t) as [[|]|] eqn:Hl0;
    try (intros [= <-]; exact Hrun0); try discriminate.
  clear Hrun0.
  destruct (_levels t) as [ls|ls] eqn:Hls.
  - destruct (level_loop synth_flat _ _ _ _ ls) as [[ls'|e ls']|] eqn:Hloop;
      try discriminate.
    intros [= <-].
    pose proof (level_loop_normal_stops _ _ _ _ _ _ Hloop) as Hstop.
    destruct (level_loop_extends _ _ _ _ _ _ _ Hloop) as [extra Hex].
    simpl in Hex. subst ls'.
    assert (Hnil : ls = [] -> extra = []).
    { intros ->. destruct extra as [|x extra]; [reflexivity|]. exfalso.
      unfold loop_fuel in Hloop. simpl in Hloop.
      destruct (lt_requiredMipLevels (Z.of_nat 0) _) in Hloop; discriminate Hloop. }
    unfold _completePartialMipmapChain.
    destruct (skips_completion (set_levelsUpdated _ _)); [reflexivity|].
    rewrite (level0_app_flat t ls extra _ Hl0 Hls Hnil).
    simpl _levels. simpl _width. simpl _height.
    unfold loop_fuel. rewrite level_loop_stopped by exact Hstop.
    reflexivity.
  - destruct (level_loop synth_cube _ _ _ _ ls) as [[ls'|e ls']|] eqn:Hloop;
      try discriminate.
    intros [= <-].
    pose proof (level_loop_normal_stops _ _ _ _ _ _ Hloop) as Hstop.
    destruct (level_loop_extends _ _ _ _ _ _ _ Hloop) as [extra Hex].
    simpl in Hex. subst ls'.
    unfold _completePartialMipmapChain.
    destruct (skips_completion (set_levelsUpdated _ _)); [reflexivity|].
    rewrite (level0_app_cube t ls extra _ Hl0 Hls).
    simpl _levels. simpl _width. simpl _height.
    unfold loop_fuel. rewrite level_loop_stopped by exact Hstop.
    reflexivity.
Qed.

Lemma synth_cube_not_ready w h (faces : list Source) :
  six_typed_faces faces = false -> synth_cube w h (Some faces) = None.
Proof.
  unfold six_typed_faces, synth_cube. rewrite seqZ_0_6. simpl forallb. simpl synth_faces.
  repeat match goal with
  | |- context [js_index faces ?i] =>
      let c := fresh "c" in let e := fresh "e" in
      destruct (js_index faces i) as [[c e| |]|];
      [destruct (downsample_typed_array w h c e) as (? & -> & _)
      |simpl; try reflexivity; intros; reflexivity..]
  end.
  simpl. discriminate.
Qed.

(** X5. For a texture whose sizes are in the range [log2_exact]: when the
    guard does not skip the pass, levels are missing and the last level
    present holds no pixel data (it is null, a media element, an
    incomplete set of cube faces, or there is no level at all), the pass
    raises a TypeError and leaves the texture as it was. *)
Theorem complete_chain_raises_without_data (t : Texture) :
  log2_exact t ->
  skips_completion t = false ->
  level0_isHtmlElement t = Some false ->
  lt_requiredMipLevels (levels_length t) (Z.max (_width t) (_height t)) = true ->
  last_level_ready t = false ->
  _completePartialMipmapChain t = Some (Thrown TypeError t).
Proof.
  intros _ Hskip Hl0 Hlt Hready.
  unfold _completePartialMipmapChain. rewrite Hskip, Hl0.
  unfold levels_length, last_level_ready in *.
  destruct (_levels t) as [ls|ls] eqn:Hls; unfold loop_fuel; simpl level_loop;
    rewrite Hlt.
  - assert (Hsynth : forall w h,
              synth_flat w h (js_index ls (Z.of_nat (length ls) - 1)) = None).
    { intros w h. destruct (last ls) as [s|] eqn:Hlast.
      - apply last_Some in Hlast as [pre ->]. rewrite js_index_last.
        destruct s; [discriminate Hready|reflexivity|reflexivity].
      - apply last_None in Hlast as ->. reflexivity. }
    rewrite Hsynth. rewrite <- Hls, set_levels_same. reflexivity.
  - assert (Hsynth : forall w h,
              synth_cube w h (js_index ls (Z.of_nat (length ls) - 1)) = None).
    { intros w h. destruct (last ls) as [s|] eqn:Hlast.
      - apply last_Some in Hlast as [pre ->]. rewrite js_index_last.
        apply synth_cube_not_ready, Hready.
      - apply last_None in Hlast as ->. reflexivity. }
    rewrite Hsynth. rewrite <- Hls, set_levels_same. reflexivity.
Qed.

End PassMore.

Lemma complete_chain_idempotent_witness :
  _completePartialMipmapChain pot_completed = Some (Normal pot_completed).
Proof.
  exact (complete_chain_idempotent pot_texture pot_completed eq_refl
           pot_texture_completes).
Defined.

Lemma complete_chain_raises_without_data_witness :
  _completePartialMipmapChain null_level_texture
  = Some (Thrown TypeError null_level_texture).
Proof.
  apply complete_chain_raises_without_data; reflexivity.
Defined.

(** ** open *)
Section OpenMore.
Context {PA : PixelArith} {HO : Host}.

(** X6. [open] hands the texture of the parser to the completion pass: when
    the parser returns an eligible partial chain whose larger dimension is
    a power of two, the texture [open] returns has the full chain, and the
    parser was called once. *)
Theorem open_completes_power_of_two (url : string) (data : Data) (p : ParserId)
    (t : Texture) (k : Z) :
  truthy (VString url) = true ->
  _getParser url = SelParser p ->
  parser_open p url data = PTexture t ->
  spec_eligible t = true ->
  last_level_ready t = true ->
  Z.max (_width t) (_height t) = 2 ^ k ->
  exists t',
    open (VString url) data = Some ([ParserOpen p url], Returned (Some t'))
    /\ levels_length t' = full_chain_length t
    /\ _width t' = _width t /\ _height t' = _height t.
Proof.
  intros Hurl Hsel Hp Hel Hready Hpow.
  destruct (complete_chain_length_pow2 t k Hel Hready Hpow) as (t' & Hrun & Hlen).
  exists t'. unfold open. rewrite Hurl, Hsel, Hp, Hrun. simpl.
  split; [reflexivity|]. split; [exact Hlen|].
  destruct (complete_chain_frame t) as (o & Ho & Hw & Hh & _).
  rewrite Hrun in Ho. injection Ho as <-. simpl in Hw, Hh. auto.
Qed.

End OpenMore.

Lemma open_completes_power_of_two_witness :
  exists t',
    @open u8_arith pot_host (VString "a.ktx") tt
    = Some ([ParserOpen KtxParser "a.ktx"], Returned (Some t'))
    /\ levels_length t' = 3.
Proof.
  destruct (@open_completes_power_of_two u8_arith pot_host "a.ktx" tt KtxParser
              pot_texture 2 eq_refl eq_refl eq_refl eq_refl eq_refl eq_refl)
    as (t' & Hopen & Hlen & _).
  exists t'. split; [exact Hopen|exact Hlen].
Defined.

End TextureMoreFacts.

(** * downsample: the texels it writes *)
Module DownsampleFacts.
Import Js JsMore Texture TextureMore TextureFacts.

(** Induction over a counting loop [for (i = 0; i < n; ++i)]. *)
Lemma foldl_seqZ_ind_nat {A : Type} (P : Z -> A -> Prop) (f : A -> Z -> A) (a : A)
    (k : nat) :
  P 0 a ->
  (forall i a, 0 <= i < Z.of_nat k -> P i a -> P (i + 1) (f a i)) ->
  P (Z.of_nat k) (foldl f a (seqZ 0 (Z.of_nat k))).
Proof.
  intros H0. induction k as [|k IH]; intros Hstep.
  - simpl. exact H0.
  - rewrite seqZ_S, foldl_snoc. simpl.
    replace (Z.of_nat (S k)) with (Z.of_nat k + 1) by lia.
    apply Hstep; [lia|]. apply IH. intros i b Hi. apply Hstep. lia.
Qed.

Lemma foldl_seqZ_ind {A : Type} (P : Z -> A -> Prop) (f : A -> Z -> A) (n : Z) (a : A) :
  0 <= n ->
  P 0 a ->
  (forall i a, 0 <= i < n -> P i a -> P (i + 1) (f a i)) ->
  P n (foldl f a (seqZ 0 n)).
Proof.
  intros Hn H0 Hstep.
  pose proof (foldl_seqZ_ind_nat P f a (Z.to_nat n) H0) as Hind.
  rewrite Z2Nat.id in Hind by exact Hn. apply Hind, Hstep.
Qed.

(** The position of channel [e] of texel [(x, y)] determines the texel. *)
Lemma texel_position_inj (sw x y e x' y' e' : Z) :
  0 <= x < sw -> 0 <= x' < sw -> 0 <= y -> 0 <= y' ->
  0 <= e < 4 -> 0 <= e' < 4 ->
  (x + y * sw) * 4 + e = (x' + y' * sw) * 4 + e' ->
  x = x' /\ y = y' /\ e = e'.
Proof.
  intros Hx Hx' Hy Hy' He He' Heq.
  assert (He2 : e = e') by lia.
  assert (Hxy : x + y * sw = x' + y' * sw) by lia.
  assert (Hyy : y = y').
  { destruct (Z.lt_trichotomy y y') as [Hlt|[Heq'|Hgt]]; [|exact Heq'|].
    - assert (y' * sw >= (y + 1) * sw) by nia. nia.
    - assert (y * sw >= (y' + 1) * sw) by nia. nia. }
  subst. split; [lia|]. split; reflexivity.
Qed.

Section Texels.
Context {PA : PixelArith}.

Lemma written_step (N sw sh : Z) (val : Z -> Z -> Z -> px) (x y e : Z) (sd : list px) :
  0 <= x < sw -> 0 <= y < sh -> 0 <= e < 4 ->
  N = sw * sh * 4 ->
  written N sw sh val ((x + y * sw) * 4 + e) sd ->
  written N sw sh val ((x + y * sw) * 4 + e + 1)
    (ta_write sd ((x + y * sw) * 4 + e) (val x y e)).
Proof.
  intros Hx Hy He HN [Hlen Hval].
  assert (Hpos : 0 <= (x + y * sw) * 4 + e) by nia.
  assert (Hin : (x + y * sw) * 4 + e < N).
  { subst N. assert (y * sw <= (sh - 1) * sw) by nia. nia. }
  split; [rewrite ta_write_length; exact Hlen|].
  intros x' y' e' Hx' Hy' He' Hlt.
  unfold ta_write. destruct (Z.ltb_spec ((x + y * sw) * 4 + e) 0) as [?|_]; [lia|].
  assert (Hpos' : 0 <= (x' + y' * sw) * 4 + e') by nia.
  destruct (Z.eq_dec ((x' + y' * sw) * 4 + e') ((x + y * sw) * 4 + e)) as [Heq|Hne].
  - destruct (texel_position_inj sw x' y' e' x y e) as (-> & -> & ->); try lia.
    js_index_nonneg ((x + y * sw) * 4 + e).
    apply list_lookup_insert_eq. lia.
  - specialize (Hval x' y' e' Hx' Hy' He' ltac:(lia)).
    revert Hval. js_index_nonneg ((x' + y' * sw) * 4 + e').
    js_index_nonneg ((x' + y' * sw) * 4 + e').
    intros Hval. rewrite list_lookup_insert_ne by lia. exact Hval.
Qed.

(** The three write loops, by their invariant [written]. *)
Lemma downsample_written_texels (width height : Z) (c : ArrayCtor) (elems : list px)
    (x y e : Z) :
  0 <= x < Z.max 1 (sar width 1) ->
  0 <= y < Z.max 1 (sar height 1) ->
  0 <= e < 4 ->
  exists out,
    downsample width height (TypedArray c elems) = Some (TypedArray c out)
    /\ js_index out ((x + y * Z.max 1 (sar width 1)) * 4 + e)
       = Some (store_avg c
                 (footprint_sum elems width
                    (width / Z.max 1 (sar width 1))
                    (height / Z.max 1 (sar height 1)) x y e)
                 (width / Z.max 1 (sar width 1)
                  * (height / Z.max 1 (sar height 1)))).
Proof.
  intros Hx Hy He. unfold downsample. eexists. split; [reflexivity|].
  set (sw := Z.max 1 (sar width 1)) in *.
  set (sh := Z.max 1 (sar height 1)) in *.
  set (xs := width / sw). set (ys := height / sh).
  set (N := sw * sh * 4).
  set (val := fun x y e => store_avg c (footprint_sum elems width xs ys x y e) (xs * ys)).
  assert (Hsw : 1 <= sw) by (unfold sw; lia).
  assert (Hsh : 1 <= sh) by (unfold sh; lia).
  match goal with
  | |- js_index ?l _ = _ => assert (Hw : written N sw sh val (sh * sw * 4) l)
  end.
  { apply (foldl_seqZ_ind (fun y sd => written N sw sh val (y * sw * 4) sd)); [lia| |].
    - split.
      + rewrite length_replicate. unfold N. nia.
      + intros x0 y0 e0 Hx0 Hy0 He0 Hlt. nia.
    - intros y0 sd Hy0 Hsd.
      replace ((y0 + 1) * sw * 4) with ((0 + y0 * sw) * 4 + sw * 4) by lia.
      apply (foldl_seqZ_ind (fun x sd => written N sw sh val ((0 + y0 * sw) * 4 + x * 4) sd));
        [lia| |].
      + replace ((0 + y0 * sw) * 4 + 0 * 4) with (y0 * sw * 4) by lia. exact Hsd.
      + intros x0 sd0 Hx0 Hsd0.
        replace ((0 + y0 * sw) * 4 + (x0 + 1) * 4) with ((x0 + y0 * sw) * 4 + 4) by lia.
        apply (foldl_seqZ_ind (fun e sd => written N sw sh val ((x0 + y0 * sw) * 4 + e) sd));
          [lia| |].
        * replace ((x0 + y0 * sw) * 4 + 0) with ((0 + y0 * sw) * 4 + x0 * 4) by lia.
          exact Hsd0.
        * intros e0 sd1 He0 Hsd1.
          replace ((x0 + y0 * sw) * 4 + (e0 + 1)) with ((x0 + y0 * sw) * 4 + e0 + 1) by lia.
          apply (written_step N sw sh val x0 y0 e0 sd1); auto. }
  destruct Hw as [_ Hval]. apply Hval; auto.
  assert (y * sw <= (sh - 1) * sw) by nia. nia.
Qed.

(** X7. Every texel channel of the sampled image is written, once, with the
    stored average of its footprint: channel [e] of texel [(x, y)] of the
    result of [downsample] is [sum / xsys] for the sum over the
    [xs] by [ys] source texels it covers. *)
Theorem downsample_texels (width height : Z) (c : ArrayCtor) (elems : list px)
    (x y e : Z) :
  0 <= x < Z.max 1 (sar width 1) ->
  0 <= y < Z.max 1 (sar height 1) ->
  0 <= e < 4 ->
  exists out,
    downsample width height (TypedArray c elems) = Some (TypedArray c out)
    /\ js_index out ((x + y * Z.max 1 (sar width 1)) * 4 + e)
       = Some (store_avg c
                 (footprint_sum elems width
                    (width / Z.max 1 (sar width 1))
                    (height / Z.max 1 (sar height 1)) x y e)
                 (width / Z.max 1 (sar width 1)
                  * (height / Z.max 1 (sar height 1)))).
Proof. apply downsample_written_texels. Qed.

End Texels.

(** ** Byte data *)

Lemma sar_small (a b : Z) :
  0 <= a < 2 ^ 31 -> 0 <= b < 32 -> sar a b = a / 2 ^ b.
Proof.
  intros Ha Hb. unfold sar, toInt32.
  rewrite (Z.mod_small (a + 2 ^ 31)) by lia.
  rewrite (Z.mod_small b) by lia.
  replace (a + 2 ^ 31 - 2 ^ 31) with a by lia.
  apply Z.shiftr_div_pow2. lia.
Qed.

(** The halved size and the integer ratio, for a size in the int32
    range: the ratio is at least 1 and the footprints fit in the
    source. *)
Lemma ratio_bounds (w : Z) :
  1 <= w < 2 ^ 31 ->
  1 <= Z.max 1 (sar w 1) <= w
  /\ 1 <= w / Z.max 1 (sar w 1)
  /\ Z.max 1 (sar w 1) * (w / Z.max 1 (sar w 1)) <= w.
Proof.
  intros Hw. rewrite sar_small by lia. change (2 ^ 1) with 2.
  assert (Hhalf : w / 2 <= w) by (apply Z.div_le_upper_bound; lia).
  set (sw := Z.max 1 (w / 2)).
  assert (Hsw : 1 <= sw <= w) by (unfold sw; lia).
  split; [exact Hsw|]. split.
  - apply Z.div_le_lower_bound; lia.
  - apply Z.mul_div_le. lia.
Qed.

Lemma all_bytes_lookup (elems : list Z) (i : nat) (v : Z) :
  all_bytes elems = true -> elems !! i = Some v -> 0 <= v <= 255.
Proof.
  unfold all_bytes. rewrite forallb_forall. intros Hall Hi.
  assert (Hin : In v elems).
  { apply list_elem_of_In. apply list_elem_of_lookup. eauto. }
  specialize (Hall v Hin). apply andb_true_iff in Hall as [H0 H1].
  apply Z.leb_le in H0, H1. lia.
Qed.

(** Two counting loops run in step. *)
Lemma foldl_seqZ_rel {A B : Type} (R : Z -> A -> B -> Prop)
    (f : A -> Z -> A) (g : B -> Z -> B) (n : Z) (a : A) (b : B) :
  0 <= n ->
  R 0 a b ->
  (forall i a b, 0 <= i < n -> R i a b -> R (i + 1) (f a i) (g b i)) ->
  R n (foldl f a (seqZ 0 n)) (foldl g b (seqZ 0 n)).
Proof.
  intros Hn H0 Hstep.
  rewrite <- (Z2Nat.id n Hn). rewrite <- (Z2Nat.id n Hn) in Hstep.
  induction (Z.to_nat n) as [|k IH].
  - simpl. exact H0.
  - rewrite seqZ_S, !foldl_snoc. simpl.
    replace (Z.of_nat (S k)) with (Z.of_nat k + 1) by lia.
    apply Hstep; [lia|]. apply IH. intros i a' b' Hi. apply Hstep. lia.
Qed.

(** On byte data that covers the image, the double [sum] of the source
    is the exact sum of the footprint: no read is out of range. *)
Lemma footprint_sum_exact (width height : Z) (elems : list Z) (x y e : Z) :
  1 <= width < 2 ^ 31 ->
  1 <= height < 2 ^ 31 ->
  width * height * 4 <= Z.of_nat (length elems) ->
  all_bytes elems = true ->
  0 <= x < Z.max 1 (sar width 1) ->
  0 <= y < Z.max 1 (sar height 1) ->
  0 <= e < 4 ->
  let xs := width / Z.max 1 (sar width 1) in
  let ys := height / Z.max 1 (sar height 1) in
  footprint_sum (PA := u8_arith) elems width xs ys x y e
  = Some (footprint_total elems width xs ys x y e)
  /\ 0 <= footprint_total elems width xs ys x y e <= 255 * (xs * ys).
Proof.
  intros Hw Hh Hlen Hbytes Hx Hy He xs ys.
  destruct (ratio_bounds width Hw) as (Hsw & Hxs & Hfitx).
  destruct (ratio_bounds height Hh) as (Hsh & Hys & Hfity).
  fold xs in Hxs, Hfitx. fold ys in Hys, Hfity.
  set (sw := Z.max 1 (sar width 1)) in *.
  set (sh := Z.max 1 (sar height 1)) in *.
  unfold footprint_sum, footprint_total.
  apply (foldl_seqZ_rel
           (fun sy (a : @acc u8_arith) (s : Z) =>
              a = Some s /\ 0 <= s <= 255 * (xs * sy))); [lia| |].
  - split; [reflexivity|lia].
  - intros sy a s Hsy [-> Hs].
    cbv beta.
    match goal with
    | |- ?A = Some ?B /\ _ =>
        enough (HH : A = Some B /\ 0 <= B <= 255 * (xs * sy) + 255 * xs)
          by (destruct HH as [HA HB]; split; [exact HA|nia])
    end.
    apply (foldl_seqZ_rel
             (fun sx (a' : @acc u8_arith) (s' : Z) =>
                a' = Some s' /\ 0 <= s' <= 255 * (xs * sy) + 255 * sx)); [lia| |].
    + split; [reflexivity|lia].
    + intros sx a' s' Hsx [-> Hs'].
      set (idx := (x * xs + sx + (y * ys + sy) * width) * 4 + e).
      assert (Hcol : 0 <= x * xs + sx <= width - 1) by nia.
      assert (Hrow : 0 <= y * ys + sy <= height - 1) by nia.
      assert (Hidx : 0 <= idx < width * height * 4).
      { unfold idx. split; [nia|].
        assert ((y * ys + sy) * width <= (height - 1) * width) by nia. nia. }
      unfold js_index. destruct (Z.ltb_spec idx 0) as [?|_]; [lia|].
      destruct (lookup_lt_is_Some_2 elems (Z.to_nat idx) ltac:(lia)) as [v Hv].
      pose proof (all_bytes_lookup elems _ v Hbytes Hv).
      cbn. rewrite Hv. cbn. split; [reflexivity|lia].
Qed.

(** X8. On byte data that covers the image (a [Uint8Array] of at least
    [width * height * 4] bytes, the sizes in the int32 range) every texel
    channel of the result of [downsample] is the floor of the mean of the
    [xs * ys] source values under it: the sum is never NaN and the stored
    value never wraps around. *)
Theorem downsample_u8_exact_mean (width height : Z) (elems : list Z) (x y e : Z) :
  1 <= width < 2 ^ 31 ->
  1 <= height < 2 ^ 31 ->
  width * height * 4 <= Z.of_nat (length elems) ->
  all_bytes elems = true ->
  0 <= x < Z.max 1 (sar width 1) ->
  0 <= y < Z.max 1 (sar height 1) ->
  0 <= e < 4 ->
  let xs := width / Z.max 1 (sar width 1) in
  let ys := height / Z.max 1 (sar height 1) in
  exists out,
    downsample (PA := u8_arith) width height (TypedArray (PA := u8_arith) Uint8Array elems)
    = Some (TypedArray Uint8Array out)
    /\ js_index out ((x + y * Z.max 1 (sar width 1)) * 4 + e)
       = Some (footprint_total elems width xs ys x y e / (xs * ys))
    /\ 0 <= footprint_total elems width xs ys x y e / (xs * ys) <= 255.
Proof.
  intros Hw Hh Hlen Hbytes Hx Hy He xs ys.
  destruct (downsample_written_texels (PA := u8_arith) width height Uint8Array elems x y e
              Hx Hy He)
    as (out & Hout & Hval).
  destruct (footprint_sum_exact width height elems x y e Hw Hh Hlen Hbytes Hx Hy He)
    as (Hsum & Hbound).
  fold xs ys in Hsum, Hbound, Hval.
  destruct (ratio_bounds width Hw) as (_ & Hxs & _).
  destruct (ratio_bounds height Hh) as (_ & Hys & _).
  fold xs in Hxs. fold ys in Hys.
  assert (Hpos : 0 < xs * ys) by nia.
  assert (Hq : 0 <= footprint_total elems width xs ys x y e / (xs * ys) <= 255).
  { split.
    - apply Z.div_pos; lia.
    - apply Z.div_le_upper_bound; [exact Hpos|]. lia. }
  exists out. split; [exact Hout|]. split; [|exact Hq].
  rewrite Hval, Hsum. simpl. f_equal. apply Z.mod_small. lia.
Qed.

Lemma downsample_texels_witness :
  exists out,
    downsample (PA := u8_arith) 2 2 (TypedArray (PA := u8_arith) Uint8Array image_2x2)
    = Some (TypedArray Uint8Array out)
    /\ js_index out 0 = Some 25.
Proof.
  assert (H1 : 0 <= 0 < Z.max 1 (sar 2 1)) by (vm_compute; split; [discriminate|reflexivity]).
  assert (H4 : 0 <= 0 < 4) by lia.
  destruct (downsample_texels (PA := u8_arith) 2 2 Uint8Array image_2x2 0 0 0 H1 H1 H4)
    as (out & Hout & Hval).
  exists out. split; [exact Hout|]. exact Hval.
Defined.

Lemma downsample_u8_exact_mean_witness :
  exists out,
    downsample (PA := u8_arith) 2 2 (TypedArray (PA := u8_arith) Uint8Array image_2x2)
    = Some (TypedArray Uint8Array out)
    /\ js_index out 0 = Some 25.
Proof.
  assert (H1 : 0 <= 0 < Z.max 1 (sar 2 1)) by (vm_compute; split; [discriminate|reflexivity]).
  assert (H4 : 0 <= 0 < 4) by lia.
  assert (Hs : 1 <= 2 < 2 ^ 31) by lia.
  assert (Hl : 2 * 2 * 4 <= Z.of_nat (length image_2x2)) by (simpl; lia).
  destruct (downsample_u8_exact_mean 2 2 image_2x2 0 0 0 Hs Hs Hl eq_refl H1 H1 H4)
    as (out & Hout & Hval & _).
  exists out. split; [exact Hout|]. exact Hval.
Defined.

End DownsampleFacts.

(** * Properties of [TextureHandler.prototype.patch] *)
Module TexturePatchFacts.
Import Js TexturePatch.

(** ** The flag test [opt & 8] *)

Lemma land_8_testbit (x : Z) : negb (Z.land x 8 =? 0) = Z.testbit x 3.
Proof.
  assert (Hbits : Z.land x 8 = if Z.testbit x 3 then 8 else 0).
  { apply Z.bits_inj'. intros n Hn. rewrite Z.land_spec.
    change 8 with (2 ^ 3). rewrite Z.pow2_bits_eqb by lia.
    destruct (Z.eqb_spec 3 n) as [<-|Hne].
    - rewrite andb_true_r. destruct (Z.testbit x 3).
      + rewrite Z.pow2_bits_eqb by lia. reflexivity.
      + rewrite Z.bits_0. reflexivity.
    - rewrite andb_false_r. destruct (Z.testbit x 3).
      + rewrite Z.pow2_bits_eqb by lia. symmetry. apply Z.eqb_neq. exact Hne.
      + rewrite Z.bits_0. reflexivity. }
  rewrite Hbits. destruct (Z.testbit x 3); reflexivity.
Qed.

(** ToInt32 keeps the low 32 bits. *)
Lemma testbit_toInt32_low (o n : Z) :
  0 <= n < 32 -> Z.testbit (toInt32 o) n = Z.testbit o n.
Proof.
  intros Hn.
  rewrite <- (Z.mod_pow2_bits_low (toInt32 o) 32 n) by lia.
  rewrite <- (Z.mod_pow2_bits_low o 32 n) by lia.
  f_equal. unfold toInt32.
  rewrite Zminus_mod_idemp_l. f_equal. lia.
Qed.

Lemma opt_swizzled_bit3 (o : Z) : opt_swizzled {| opt := Some o |} = Z.testbit o 3.
Proof.
  unfold opt_swizzled. cbn [opt].
  rewrite land_8_testbit, testbit_toInt32_low by lia.
  destruct (Z.eqb_spec o 0) as [->|_]; [reflexivity|].
  reflexivity.
Qed.

(** ** The type written last *)

Lemma JSON_TEXTURE_TYPE_value (key : string) (ty : TextureType) :
  JSON_TEXTURE_TYPE key = Value ty
  <-> (key, ty) ∈ [("default"%string, TEXTURETYPE_DEFAULT);
                   ("rgbm"%string, TEXTURETYPE_RGBM);
                   ("rgbe"%string, TEXTURETYPE_RGBE);
                   ("swizzleGGGR"%string, TEXTURETYPE_SWIZZLEGGGR)].
Proof.
  rewrite !elem_of_cons, elem_of_nil. unfold JSON_TEXTURE_TYPE.
  destruct (String.eqb_spec key "default") as [->|H1].
  { split; [intros [= <-]; tauto|].
    intros [H|[H|[H|[H|[]]]]]; inversion H; reflexivity. }
  destruct (String.eqb_spec key "rgbm") as [->|H2].
  { split; [intros [= <-]; tauto|].
    intros [H|[H|[H|[H|[]]]]]; inversion H; reflexivity. }
  destruct (String.eqb_spec key "rgbe") as [->|H3].
  { split; [intros [= <-]; tauto|].
    intros [H|[H|[H|[H|[]]]]]; inversion H; reflexivity. }
  destruct (String.eqb_spec key "swizzleGGGR") as [->|H4].
  { split; [intros [= <-]; tauto|].
    intros [H|[H|[H|[H|[]]]]]; inversion H; reflexivity. }
  split.
  - unfold inherited_or_undefined.
    destruct (existsb _ _); discriminate.
  - intros [H|[H|[H|[H|[]]]]]; inversion H; congruence.
Qed.

Lemma patched_type_idemp (a a' : TextureAsset) (cur : Slot TextureType) :
  data a' = data a -> file a' = file a -> getPreferredFile a' = getPreferredFile a ->
  patched_type a' (patched_type a cur) = patched_type a cur.
Proof.
  intros Hd Hf Hg. unfold patched_type. rewrite Hd, Hf, Hg.
  destruct (type (data a)); [reflexivity|].
  destruct (match rgbm (data a) with Some v => truthy v | None => false end);
    [reflexivity|].
  destruct (file a); [|reflexivity].
  destruct (getPreferredFile a) as [[f|]|]; try reflexivity.
  destruct (opt_swizzled f) eqn:Hsw; rewrite ?Hsw; reflexivity.
Qed.

(** X9. [patch] can be repeated: a second call on the patched asset writes
    the values the first call wrote and changes nothing. *)
Theorem texture_patch_idempotent (asset : TextureAsset) :
  patch (patch asset) = patch asset.
Proof.
  unfold patch at 2 3.
  destruct (resource asset) as [t|] eqn:Hres.
  - unfold patch. cbn [resource asset_name data file getPreferredFile].
    f_equal. f_equal. unfold patch_texture.
    cbn [name minFilter magFilter addressU addressV tex_mipmaps tex_anisotropy
         tex_flipY tex_type cubemap data asset_name file getPreferredFile].
    f_equal.
    + destruct (asset_name asset) as [n|]; [|reflexivity].
      destruct (negb (String.eqb n "")); reflexivity.
    + destruct (minfilter (data asset)); reflexivity.
    + destruct (magfilter (data asset)); reflexivity.
    + destruct (cubemap t); [reflexivity|].
      destruct (addressu (data asset)); reflexivity.
    + destruct (cubemap t); [reflexivity|].
      destruct (addressv (data asset)); reflexivity.
    + destruct (mipmaps (data asset)); reflexivity.
    + destruct (anisotropy (data asset)); reflexivity.
    + destruct (flipY (data asset)); reflexivity.
    + apply patched_type_idemp; reflexivity.
  - unfold patch. rewrite Hres. reflexivity.
Qed.

(** X10. Without a type name and without a truthy legacy flag, the type of a
    texture whose asset has a file follows bit 3 of the [opt] number of the
    preferred file, for every integer [opt]: the conversion of [opt & 8]
    to 32 bits never loses or invents the flag, and 0 needs no test of its
    own. The type is left alone when the bit is clear. *)
Theorem texture_patch_swizzle_follows_bit3 (asset : TextureAsset) (t : TextureProps)
    (o : Z) :
  resource asset = Some t ->
  type (data asset) = None ->
  (forall v, rgbm (data asset) = Some v -> truthy v = false) ->
  file asset = true ->
  getPreferredFile asset = Some (Some {| opt := Some o |}) ->
  exists t',
    resource (patch asset) = Some t'
    /\ tex_type t'
       = if Z.testbit o 3 then Value TEXTURETYPE_SWIZZLEGGGR else tex_type t.
Proof.
  intros Hres Hty Hrgbm Hfile Hpref.
  unfold patch. rewrite Hres. eexists. split; [reflexivity|].
  unfold patch_texture. cbn [tex_type]. unfold patched_type.
  rewrite Hty, Hfile, Hpref, opt_swizzled_bit3.
  destruct (rgbm (data asset)) as [v|]; [rewrite (Hrgbm v eq_refl)|]; reflexivity.
Qed.

(** X11. A type name in the descriptor decides alone. The type becomes a
    constant of the engine only for the four names of the table; for any
    other name it becomes undefined or a member inherited from
    [Object.prototype], whatever the legacy flag and the preferred file
    say. *)
Theorem texture_patch_type_name_decides (asset : TextureAsset) (t : TextureProps)
    (key : string) :
  resource asset = Some t ->
  type (data asset) = Some key ->
  exists t',
    resource (patch asset) = Some t'
    /\ forall ty,
         tex_type t' = Value ty
         <-> (key, ty) ∈ [("default"%string, TEXTURETYPE_DEFAULT);
                          ("rgbm"%string, TEXTURETYPE_RGBM);
                          ("rgbe"%string, TEXTURETYPE_RGBE);
                          ("swizzleGGGR"%string, TEXTURETYPE_SWIZZLEGGGR)].
Proof.
  intros Hres Hty. unfold patch. rewrite Hres. eexists. split; [reflexivity|].
  intros ty. unfold patch_texture. cbn [tex_type]. unfold patched_type.
  rewrite Hty. apply JSON_TEXTURE_TYPE_value.
Qed.

(** X12. On a cube map the descriptor's address modes are ignored: [patch]
    leaves both address modes and the cube-map flag as they were, while
    the other settings the descriptor names are written. *)
Theorem texture_patch_cube_map_keeps_addressing (asset : TextureAsset)
    (t : TextureProps) :
  resource asset = Some t ->
  cubemap t = true ->
  exists t',
    resource (patch asset) = Some t'
    /\ addressU t' = addressU t
    /\ addressV t' = addressV t
    /\ cubemap t' = true
    /\ (forall key, minfilter (data asset) = Some key ->
          minFilter t' = JSON_FILTER_MODE key)
    /\ (forall key, magfilter (data asset) = Some key ->
          magFilter t' = JSON_FILTER_MODE key).
Proof.
  intros Hres Hcube. unfold patch. rewrite Hres. eexists. split; [reflexivity|].
  unfold patch_texture. cbn [addressU addressV cubemap minFilter magFilter].
  rewrite Hcube. repeat split; try reflexivity.
  - intros key ->. reflexivity.
  - intros key ->. reflexivity.
Qed.

Lemma texture_patch_swizzle_follows_bit3_witness :
  exists t',
    resource (patch (sample_asset (legacy_data (VBool false)) 12 false)) = Some t'
    /\ tex_type t' = Value TEXTURETYPE_SWIZZLEGGGR.
Proof.
  refine (texture_patch_swizzle_follows_bit3
            (sample_asset (legacy_data (VBool false)) 12 false)
            (default_props false) 12 eq_refl eq_refl _ eq_refl eq_refl).
  intros v [= <-]. reflexivity.
Defined.

Lemma texture_patch_type_name_decides_witness :
  exists t',
    resource (patch (sample_asset full_data 12 false)) = Some t'
    /\ forall ty,
         tex_type t' = Value ty
         <-> ("hdr"%string, ty) ∈ [("default"%string, TEXTURETYPE_DEFAULT);
                                   ("rgbm"%string, TEXTURETYPE_RGBM);
                                   ("rgbe"%string, TEXTURETYPE_RGBE);
                                   ("swizzleGGGR"%string, TEXTURETYPE_SWIZZLEGGGR)].
Proof.
  exact (texture_patch_type_name_decides (sample_asset full_data 12 false)
           (default_props false) "hdr" eq_refl eq_refl).
Defined.

Lemma texture_patch_cube_map_keeps_addressing_witness :
  exists t',
    resource (patch (sample_asset full_data 12 true)) = Some t'
    /\ addressU t' = Value ADDRESS_REPEAT
    /\ addressV t' = Value ADDRESS_REPEAT
    /\ cubemap t' = true
    /\ (forall key, Some "nearest"%string = Some key ->
          minFilter t' = JSON_FILTER_MODE key)
    /\ (forall key, Some "nearest"%string = Some key ->
          magFilter t' = JSON_FILTER_MODE key).
Proof.
  exact (texture_patch_cube_map_keeps_addressing (sample_asset full_data 12 true)
           (default_props true) eq_refl eq_refl).
Defined.

End TexturePatchFacts.

(** * Further properties of the render-asset handler *)
Module RenderHandlerMoreFacts.
Import Js JsMore RenderHandler.

Section Facts.
Context {Meshes : Type}.

Lemma filter_eq_neq_nil (s0 : Subscription) (l : list Subscription) :
  filter (fun s => s = s0) (filter (fun s => s <> s0) l) = [].
Proof.
  induction l as [|s l IH]; [reflexivity|].
  rewrite filter_cons. destruct (decide (s <> s0)) as [Hne|Heq]; [|exact IH].
  rewrite filter_cons. destruct (decide (s = s0)); [contradiction|exact IH].
Qed.

Lemma filter_neq_idemp (s0 : Subscription) (l : list Subscription) :
  filter (fun s => s <> s0) (filter (fun s => s <> s0) l) = filter (fun s => s <> s0) l.
Proof.
  induction l as [|s l IH]; [reflexivity|].
  rewrite filter_cons. destruct (decide (s <> s0)) as [Hne|Heq]; [|exact IH].
  rewrite filter_cons. destruct (decide (s <> s0)); [|contradiction].
  f_equal. exact IH.
Qed.

(** What the load callback leaves alone. *)
Lemma onContainerAssetLoaded_frame (a : assetRef) (ca : ContainerAsset Meshes)
    (st : State Meshes) :
  let st' := outcome_state (onContainerAssetLoaded a ca st) in
  assets st' = assets st
  /\ subs st' = subs st
  /\ loads st' = loads st
  /\ (forall b, b <> a -> renderAssets st' !! b = renderAssets st !! b)
  /\ (forall ra, renderAssets st !! a = Some ra ->
        exists ra', renderAssets st' !! a = Some ra'
                    /\ data_containerAsset ra' = data_containerAsset ra
                    /\ data_renderIndex ra' = data_renderIndex ra
                    /\ (is_Some (resource ra') <-> is_Some (resource ra))).
Proof.
  unfold onContainerAssetLoaded.
  destruct (renderAssets st !! a) as [ra|] eqn:Ha; cbn [outcome_state].
  2: { repeat split; try reflexivity. intros ra [=]. }
  destruct (resource ra) as [r|] eqn:Hr; cbn [outcome_state].
  2: { repeat split; try reflexivity. intros ra0 [= <-].
       exists ra. rewrite Ha. repeat split; auto. }
  destruct (resources ca) as [|cr rest]; cbn [outcome_state].
  { repeat split; try reflexivity. intros ra0 [= <-].
    exists ra. rewrite Ha. repeat split; auto. }
  destruct (if data_renderIndex ra <? 0 then None
            else renders cr !! Z.to_nat (data_renderIndex ra)) as [render|];
    cbn [outcome_state].
  2: { repeat split; try reflexivity. intros ra0 [= <-].
       exists ra. rewrite Ha. repeat split; auto. }
  unfold assign_meshes. cbn [assets subs loads renderAssets].
  repeat split; try reflexivity.
  - intros b Hb. apply lookup_alter_ne. congruence.
  - intros ra0 [= <-]. rewrite lookup_alter_eq, Ha. cbn.
    eexists. split; [reflexivity|]. cbn. rewrite Hr. cbn.
    repeat split; eauto.
Qed.

(** X13. [patch] touches nothing but its own render asset and the pending
    work of the registry. The registered assets stay as they are, every
    other render asset is untouched, the render asset keeps its container
    id, its index and whether it has a resource, and subscriptions and
    load requests are only ever appended. *)
Theorem render_patch_frame (a : assetRef) (st : State Meshes) :
  let st' := outcome_state (patch a st) in
  assets st' = assets st
  /\ subs st `prefix_of` subs st'
  /\ loads st `prefix_of` loads st'
  /\ (forall b, b <> a -> renderAssets st' !! b = renderAssets st !! b)
  /\ (forall ra, renderAssets st !! a = Some ra ->
        exists ra', renderAssets st' !! a = Some ra'
                    /\ data_containerAsset ra' = data_containerAsset ra
                    /\ data_renderIndex ra' = data_renderIndex ra
                    /\ (is_Some (resource ra') <-> is_Some (resource ra))).
Proof.
  unfold patch.
  destruct (renderAssets st !! a) as [ra|] eqn:Ha; cbn [outcome_state].
  2: { repeat split; try reflexivity. intros ra [=]. }
  destruct (id_truthy (data_containerAsset ra)) as [cid|]; cbn [outcome_state].
  2: { repeat split; try reflexivity. intros ra0 [= <-]. exists ra. repeat split; auto. }
  destruct (registry_get cid st) as [ca|]; cbn [outcome_state].
  2: { repeat split; try reflexivity. intros ra0 [= <-]. exists ra. repeat split; auto. }
  destruct (loaded ca); cbn [negb outcome_state].
  - destruct (onContainerAssetLoaded_frame a ca st) as (H1 & H2 & H3 & H4 & H5).
    cbv zeta in *. rewrite H1, H2, H3.
    split; [reflexivity|]. split; [reflexivity|]. split; [reflexivity|].
    split; [exact H4|]. rewrite <- Ha. exact H5.
  - cbn [outcome_state registry_load registry_once assets subs loads renderAssets].
    split; [reflexivity|].
    split; [apply prefix_app_r; reflexivity|].
    split; [apply prefix_app_r; reflexivity|].
    split; [reflexivity|].
    intros ra0 [= <-]. exists ra. split; [exact Ha|]. repeat split; auto.
Qed.

(** X14. The "added" callback replaces its registration. For a container
    that is not loaded it leaves exactly one registration of the load
    callback for this render asset and container, however many there
    were; the other registrations keep their order, one load is requested
    and nothing is extracted. *)
Theorem added_callback_resubscribes_once (a : assetRef) (ca : ContainerAsset Meshes)
    (st : State Meshes) :
  loaded ca = false ->
  exists st',
    onContainerAssetAdded a ca st = Normal st'
    /\ length (filter (fun s => s = {| sub_key := EvLoad (id ca); sub_handler := OnContainerAssetLoaded; sub_scope := a |}) (subs st')) = 1%nat
    /\ filter (fun s => s <> {| sub_key := EvLoad (id ca); sub_handler := OnContainerAssetLoaded; sub_scope := a |}) (subs st')
       = filter (fun s => s <> {| sub_key := EvLoad (id ca); sub_handler := OnContainerAssetLoaded; sub_scope := a |}) (subs st)
    /\ loads st' = loads st ++ [id ca]
    /\ assets st' = assets st
    /\ renderAssets st' = renderAssets st
    /\ extractions st' = extractions st.
Proof.
  intros Hl. unfold onContainerAssetAdded. rewrite Hl. cbn [negb].
  eexists. split; [reflexivity|]. cbn.
  rewrite !filter_app, filter_eq_neq_nil, filter_neq_idemp.
  rewrite !filter_cons, !filter_nil.
  destruct (decide ({| sub_key := EvLoad (id ca); sub_handler := OnContainerAssetLoaded; sub_scope := a |} = {| sub_key := EvLoad (id ca); sub_handler := OnContainerAssetLoaded; sub_scope := a |})) as [_|Hne]; [|contradiction].
  destruct (decide ({| sub_key := EvLoad (id ca); sub_handler := OnContainerAssetLoaded; sub_scope := a |} <> {| sub_key := EvLoad (id ca); sub_handler := OnContainerAssetLoaded; sub_scope := a |})) as [Hne|_]; [contradiction|].
  rewrite app_nil_r. repeat split; reflexivity.
Qed.

Lemma fire_copies (ca' : ContainerAsset Meshes) (a : assetRef) (s0 : Subscription)
    (cr : ContainerResource Meshes) rest entry i :
  sub_handler s0 = OnContainerAssetLoaded ->
  sub_scope s0 = a ->
  resources ca' = cr :: rest ->
  0 <= i ->
  renders cr !! Z.to_nat i = Some entry ->
  forall (k : nat) (st : State Meshes) ra r,
    renderAssets st !! a = Some ra ->
    resource ra = Some r ->
    data_renderIndex ra = i ->
    exists st',
      foldl (run_handler ca') (Normal st) (replicate k s0) = Normal st'
      /\ extractions st' = (k + extractions st)%nat
      /\ subs st' = subs st
      /\ loads st' = loads st
      /\ assets st' = assets st
      /\ (k <> 0%nat ->
          renderAssets st' = renderAssets (assign_meshes a (entry_resource entry) st)).
Proof.
  intros Hh Hs Hres Hi Hentry.
  induction k as [|k IH]; intros st ra r Ha Hr Hidx.
  - exists st. repeat split; try reflexivity. intros []. reflexivity.
  - cbn [replicate foldl run_handler]. rewrite Hh, Hs.
    unfold onContainerAssetLoaded at 1. rewrite Ha, Hr, Hres, Hidx.
    destruct (Z.ltb_spec i 0) as [?|_]; [lia|]. rewrite Hentry.
    set (st1 := assign_meshes a (entry_resource entry) st).
    assert (Ha1 : renderAssets st1 !! a
                  = Some {| data_containerAsset := data_containerAsset ra;
                            data_renderIndex := data_renderIndex ra;
                            resource := Some {| meshes := entry_resource entry |} |}).
    { unfold st1, assign_meshes. cbn [renderAssets].
      rewrite lookup_alter_eq, Ha. cbn. rewrite Hr. reflexivity. }
    destruct (IH st1 _ _ Ha1 eq_refl Hidx) as (st' & Hrun & Hex & Hsub & Hld & Has & Hra).
    exists st'. split; [exact Hrun|].
    split; [rewrite Hex; unfold st1; cbn; lia|].
    split; [exact Hsub|]. split; [exact Hld|]. split; [exact Has|].
    intros _. destruct k as [|k].
    + cbn in Hrun. injection Hrun as <-. reflexivity.
    + rewrite Hra by discriminate. unfold st1, assign_meshes. cbn [renderAssets].
      rewrite alter_alter_eq. apply alter_ext. intros x _. cbn.
      destruct (resource x); reflexivity.
Qed.

(** X15. [patch] does not replace a registration it made before. Called
    twice while the container is registered and not loaded, it leaves two
    registrations of the load callback and two load requests, and when the
    load finishes the callback runs twice: the mesh group is assigned
    twice, to the same value. *)
Theorem patch_twice_extracts_twice (a : assetRef) (st : State Meshes) ra r cid ca
    cr rest entry :
  renderAssets st !! a = Some ra ->
  resource ra = Some r ->
  id_truthy (data_containerAsset ra) = Some cid ->
  registry_get cid st = Some ca ->
  loaded ca = false ->
  Forall (fun s => sub_key s <> EvLoad (id ca)) (subs st) ->
  0 <= data_renderIndex ra ->
  renders cr !! Z.to_nat (data_renderIndex ra) = Some entry ->
  exists st1 st2 st3,
    patch a st = Normal st1
    /\ patch a st1 = Normal st2
    /\ subs st2 = subs st ++ [{| sub_key := EvLoad (id ca); sub_handler := OnContainerAssetLoaded; sub_scope := a |}; {| sub_key := EvLoad (id ca); sub_handler := OnContainerAssetLoaded; sub_scope := a |}]
    /\ loads st2 = loads st ++ [id ca; id ca]
    /\ finish_load ca (cr :: rest) st2 = Normal st3
    /\ extractions st3 = S (S (extractions st))
    /\ renderAssets st3 = renderAssets (assign_meshes a (entry_resource entry) st)
    /\ subs st3 = subs st.
Proof.
  intros Ha Hr Hid Hget Hl Hsubs Hi Hentry.
  set (st1 := registry_load ca
                (registry_once (EvLoad (id ca)) OnContainerAssetLoaded a st)).
  set (st2 := registry_load ca
                (registry_once (EvLoad (id ca)) OnContainerAssetLoaded a st1)).
  assert (Hp1 : patch a st = Normal st1).
  { unfold patch. rewrite Ha, Hid, Hget, Hl. reflexivity. }
  assert (Hp2 : patch a st1 = Normal st2).
  { assert (Ha1 : renderAssets st1 !! a = Some ra) by exact Ha.
    assert (Hget1 : registry_get cid st1 = Some ca) by exact Hget.
    unfold patch. rewrite Ha1, Hid, Hget1, Hl. reflexivity. }
  assert (Hs2 : subs st2
                = subs st ++ [ {| sub_key := EvLoad (id ca);
                                  sub_handler := OnContainerAssetLoaded;
                                  sub_scope := a |};
                               {| sub_key := EvLoad (id ca);
                                  sub_handler := OnContainerAssetLoaded;
                                  sub_scope := a |} ]).
  { unfold st2, st1. cbn [subs registry_load registry_once].
    rewrite <- app_assoc. reflexivity. }
  assert (Hl2 : loads st2 = loads st ++ [id ca; id ca]).
  { unfold st2, st1. cbn [loads registry_load registry_once].
    rewrite <- app_assoc. reflexivity. }
  assert (Hnone : filter (fun s : Subscription => sub_key s = EvLoad (id ca)) (subs st) = []).
  { clear -Hsubs. induction Hsubs as [|s l Hs _ IH]; [reflexivity|].
    rewrite filter_cons. destruct (decide (sub_key s = EvLoad (id ca))); [contradiction|exact IH]. }
  assert (Hall : filter (fun s : Subscription => sub_key s <> EvLoad (id ca)) (subs st) = subs st).
  { clear -Hsubs. induction Hsubs as [|s l Hs _ IH]; [reflexivity|].
    rewrite filter_cons. destruct (decide (sub_key s <> EvLoad (id ca))); [|contradiction].
    f_equal. exact IH. }
  set (ca' := {| id := id ca; loaded := true; resources := cr :: rest |}).
  set (st2' := {| assets := <[id ca := ca']> (assets st2);
                  subs := subs st;
                  loads := loads st2;
                  renderAssets := renderAssets st2;
                  extractions := extractions st2 |}).
  assert (Hfire : finish_load ca (cr :: rest) st2
                  = foldl (run_handler ca') (Normal st2')
                      (replicate 2 {| sub_key := EvLoad (id ca);
                                      sub_handler := OnContainerAssetLoaded;
                                      sub_scope := a |})).
  { unfold finish_load, fire. cbn [subs assets loads renderAssets extractions id].
    rewrite Hs2, !filter_app, Hnone, Hall.
    rewrite !filter_cons, !filter_nil. cbn [sub_key].
    destruct (decide (EvLoad (id ca) = EvLoad (id ca))) as [_|Hne]; [|contradiction].
    destruct (decide (EvLoad (id ca) <> EvLoad (id ca))) as [Hne|_]; [contradiction|].
    rewrite app_nil_r. reflexivity. }
  destruct (fire_copies ca' a
              {| sub_key := EvLoad (id ca); sub_handler := OnContainerAssetLoaded;
                 sub_scope := a |}
              cr rest entry (data_renderIndex ra)
              eq_refl eq_refl eq_refl Hi Hentry 2 st2' ra r Ha Hr eq_refl)
    as (st3 & Hrun & Hex & Hsub & _ & _ & Hra).
  exists st1, st2, st3.
  split; [exact Hp1|]. split; [exact Hp2|]. split; [exact Hs2|]. split; [exact Hl2|].
  split; [rewrite Hfire; exact Hrun|].
  split; [exact Hex|].
  split; [rewrite Hra by discriminate; reflexivity|].
  exact Hsub.
Qed.

(** X16. What the load callback does when the mesh group is not there. For
    a render asset with a resource, a container without resources raises
    a TypeError, and an index below 0 or past the last entry of
    [renders] is skipped silently; in both cases the state is unchanged
    and nothing is extracted. *)
Theorem load_callback_missing_group (a : assetRef) (ca : ContainerAsset Meshes)
    (st : State Meshes) ra r :
  renderAssets st !! a = Some ra ->
  resource ra = Some r ->
  (resources ca = [] -> onContainerAssetLoaded a ca st = Thrown TypeError st)
  /\ (forall cr rest,
        resources ca = cr :: rest ->
        data_renderIndex ra < 0
        \/ Z.of_nat (length (renders cr)) <= data_renderIndex ra ->
        onContainerAssetLoaded a ca st = Normal st).
Proof.
  intros Ha Hr. unfold onContainerAssetLoaded. rewrite Ha, Hr. split.
  - intros ->. reflexivity.
  - intros cr rest -> Hrange.
    destruct (Z.ltb_spec (data_renderIndex ra) 0) as [Hneg|Hpos]; [reflexivity|].
    destruct Hrange as [?|Hlen]; [lia|].
    rewrite (lookup_ge_None_2 (renders cr) (Z.to_nat (data_renderIndex ra))) by lia.
    reflexivity.
Qed.

(** X17. With the container registered and loaded, [patch] can be repeated:
    the second call assigns the same mesh group again and the render
    assets end as after the first call. Each call counts as an
    extraction. *)
Theorem render_patch_loaded_repeatable (a : assetRef) (st : State Meshes) ra r cid ca
    cr rest entry :
  renderAssets st !! a = Some ra ->
  resource ra = Some r ->
  id_truthy (data_containerAsset ra) = Some cid ->
  registry_get cid st = Some ca ->
  loaded ca = true ->
  resources ca = cr :: rest ->
  0 <= data_renderIndex ra ->
  renders cr !! Z.to_nat (data_renderIndex ra) = Some entry ->
  exists st1 st2,
    patch a st = Normal st1
    /\ patch a st1 = Normal st2
    /\ renderAssets st2 = renderAssets st1
    /\ (exists ra1, renderAssets st1 !! a = Some ra1
                    /\ resource ra1 = Some {| meshes := entry_resource entry |})
    /\ extractions st2 = S (S (extractions st))
    /\ subs st2 = subs st
    /\ loads st2 = loads st.
Proof.
  intros Ha Hr Hid Hget Hl Hres Hi Hentry.
  unfold patch at 1. rewrite Ha, Hid, Hget, Hl. cbn [negb].
  unfold onContainerAssetLoaded at 1. rewrite Ha, Hr, Hres.
  destruct (Z.ltb_spec (data_renderIndex ra) 0) as [?|_]; [lia|]. rewrite Hentry.
  set (st1 := assign_meshes a (entry_resource entry) st).
  assert (Ha1 : renderAssets st1 !! a
                = Some {| data_containerAsset := data_containerAsset ra;
                          data_renderIndex := data_renderIndex ra;
                          resource := Some {| meshes := entry_resource entry |} |}).
  { unfold st1, assign_meshes. cbn [renderAssets].
    rewrite lookup_alter_eq, Ha. cbn. rewrite Hr. reflexivity. }
  exists st1. eexists. split; [reflexivity|].
  unfold patch. rewrite Ha1. cbn [data_containerAsset]. rewrite Hid.
  assert (Hget1 : registry_get cid st1 = Some ca) by exact Hget.
  rewrite Hget1, Hl. cbn [negb].
  unfold onContainerAssetLoaded. rewrite Ha1. cbn [resource data_renderIndex].
  rewrite Hres.
  destruct (Z.ltb_spec (data_renderIndex ra) 0) as [?|_]; [lia|]. rewrite Hentry.
  split; [reflexivity|]. split.
  - unfold st1, assign_meshes. cbn [renderAssets].
    rewrite alter_alter_eq. apply alter_ext. intros x _. cbn.
    destruct (resource x); reflexivity.
  - split; [eexists; split; [first [exact Ha1|reflexivity]|reflexivity]|].
    repeat split; reflexivity.
Qed.

End Facts.

Lemma added_callback_resubscribes_once_witness :
  exists st',
    onContainerAssetAdded 0%nat container_7_unloaded state_unloaded = Normal st'
    /\ length (filter (fun s => s = {| sub_key := EvLoad 7;
                                       sub_handler := OnContainerAssetLoaded;
                                       sub_scope := 0%nat |}) (subs st')) = 1%nat
    /\ filter (fun s => s <> {| sub_key := EvLoad 7;
                                sub_handler := OnContainerAssetLoaded;
                                sub_scope := 0%nat |}) (subs st')
       = []
    /\ loads st' = [7]
    /\ assets st' = assets state_unloaded
    /\ renderAssets st' = renderAssets state_unloaded
    /\ extractions st' = 0%nat.
Proof.
  exact (added_callback_resubscribes_once 0%nat container_7_unloaded state_unloaded
           eq_refl).
Defined.

Lemma patch_twice_extracts_twice_witness :
  exists st1 st2 st3,
    patch 0%nat state_unloaded = Normal st1
    /\ patch 0%nat st1 = Normal st2
    /\ subs st2 = [ {| sub_key := EvLoad 7; sub_handler := OnContainerAssetLoaded;
                       sub_scope := 0%nat |};
                    {| sub_key := EvLoad 7; sub_handler := OnContainerAssetLoaded;
                       sub_scope := 0%nat |} ]
    /\ loads st2 = [7; 7]
    /\ finish_load container_7_unloaded container_7_resources st2 = Normal st3
    /\ extractions st3 = 2%nat
    /\ renderAssets st3 = renderAssets (assign_meshes 0%nat (Some 101%nat) state_unloaded)
    /\ subs st3 = [].
Proof.
  refine (patch_twice_extracts_twice 0%nat state_unloaded
            (render_asset_0 (Some {| meshes := None |})) {| meshes := None |} 7
            container_7_unloaded
            {| renders := [{| entry_resource := Some 100%nat |};
                           {| entry_resource := Some 101%nat |}] |} []
            {| entry_resource := Some 101%nat |}
            eq_refl eq_refl eq_refl eq_refl eq_refl _ _ eq_refl).
  - constructor.
  - cbn. lia.
Defined.

Lemma load_callback_missing_group_witness :
  (resources container_7_unloaded = [] ->
   onContainerAssetLoaded 0%nat container_7_unloaded state_loaded
   = Thrown TypeError state_loaded)
  /\ (forall cr rest,
        resources container_7_unloaded = cr :: rest ->
        1 < 0 \/ Z.of_nat (length (renders cr)) <= 1 ->
        onContainerAssetLoaded 0%nat container_7_unloaded state_loaded
        = Normal state_loaded).
Proof.
  exact (load_callback_missing_group 0%nat container_7_unloaded state_loaded
           (render_asset_0 (Some {| meshes := None |})) {| meshes := None |}
           eq_refl eq_refl).
Defined.

Lemma render_patch_loaded_repeatable_witness :
  exists st1 st2,
    patch 0%nat state_loaded = Normal st1
    /\ patch 0%nat st1 = Normal st2
    /\ renderAssets st2 = renderAssets st1
    /\ (exists ra1, renderAssets st1 !! 0%nat = Some ra1
                    /\ resource ra1 = Some {| meshes := Some 101%nat |})
    /\ extractions st2 = 2%nat
    /\ subs st2 = []
    /\ loads st2 = [].
Proof.
  refine (render_patch_loaded_repeatable 0%nat state_loaded
            (render_asset_0 (Some {| meshes := None |})) {| meshes := None |} 7
            container_7_loaded
            {| renders := [{| entry_resource := Some 100%nat |};
                           {| entry_resource := Some 101%nat |}] |} []
            {| entry_resource := Some 101%nat |}
            eq_refl eq_refl eq_refl eq_refl eq_refl eq_refl _ eq_refl).
  cbn. lia.
Defined.

End RenderHandlerMoreFacts.

(** * Further properties of the render component *)
Module RenderComponentMoreFacts.
Import Js JsMore RenderComponent RenderComponentMore RenderComponentFacts.

Section Facts.
Context {EN : Engine}.

(** ** Writes to the shared mesh instances *)

Lemma fold_alter_lookup (f : MeshInstance -> MeshInstance) (mi : list ref) (r : ref) :
  (forall m, f (f m) = f m) ->
  forall h : gmap ref MeshInstance,
    foldl (fun h r => alter f r h) h mi !! r
    = if decide (r ∈ mi) then f <$> h !! r else h !! r.
Proof.
  intros Hidem. induction mi as [|x mi IH]; intros h; cbn [foldl].
  - rewrite decide_False by apply not_elem_of_nil. reflexivity.
  - rewrite IH. destruct (decide (x = r)) as [->|Hne].
    + rewrite lookup_alter_eq.
      rewrite (decide_True (P := r ∈ r :: mi)) by left.
      destruct (decide (r ∈ mi)); [|reflexivity].
      destruct (h !! r); cbn; [rewrite Hidem|]; reflexivity.
    + rewrite lookup_alter_ne by exact Hne.
      destruct (decide (r ∈ mi)) as [Hin|Hout].
      * rewrite decide_True by (right; exact Hin). reflexivity.
      * rewrite decide_False; [reflexivity|].
        intros [->|?]%elem_of_cons; contradiction.
Qed.

Lemma write_each_lookup (f : MeshInstance -> MeshInstance) (mi : list ref) (W : World)
    (r : ref) :
  (forall m, f (f m) = f m) ->
  heap (write_each f mi W) !! r
  = if decide (r ∈ mi) then f <$> heap W !! r else heap W !! r.
Proof. intros Hidem. unfold write_each. cbn [heap upd_heap]. apply fold_alter_lookup, Hidem. Qed.

Lemma write_each_fields (f : MeshInstance -> MeshInstance) (mi : list ref) (W : World) :
  comp (write_each f mi W) = comp W
  /\ layers (write_each f mi W) = layers W
  /\ batchGroups (write_each f mi W) = batchGroups W
  /\ inTools (write_each f mi W) = inTools W
  /\ trace (write_each f mi W) = trace W.
Proof. repeat split; reflexivity. Qed.

Lemma world_eq (W W' : World) :
  comp W = comp W' -> heap W = heap W' -> layers W = layers W' ->
  batchGroups W = batchGroups W' -> inTools W = inTools W' -> trace W = trace W' ->
  W = W'.
Proof. destruct W, W'. cbn. intros; subst; reflexivity. Qed.

(** X18. [hide] and [show] only write the [visible] flag of the
    component's mesh instances. After [hide] every instance of the
    component is invisible and after [show] every one is visible, each
    with its other fields as before; mesh instances outside the
    component's list, the component, the layers, the batch groups and the
    call trace are unchanged, so the instances stay registered. [show]
    after [hide] is [show]; and when the instances were visible before,
    it gives back the state before [hide]. *)
Theorem hide_then_show_restores (W : World) :
  (forall r,
     heap (hide W) !! r
     = match _meshInstances (comp W) with
       | Some mi =>
           if decide (r ∈ mi) then write_visible false <$> heap W !! r
           else heap W !! r
       | None => heap W !! r
       end)
  /\ (forall r,
        heap (show W) !! r
        = match _meshInstances (comp W) with
          | Some mi =>
              if decide (r ∈ mi) then write_visible true <$> heap W !! r
              else heap W !! r
          | None => heap W !! r
          end)
  /\ (forall mi r m, _meshInstances (comp W) = Some mi -> r ∈ mi ->
        heap (hide W) !! r = Some m -> visible m = false)
  /\ (forall mi r m, _meshInstances (comp W) = Some mi -> r ∈ mi ->
        heap (show W) !! r = Some m -> visible m = true)
  /\ comp (hide W) = comp W
  /\ layers (hide W) = layers W
  /\ batchGroups (hide W) = batchGroups W
  /\ trace (hide W) = trace W
  /\ comp (show W) = comp W
  /\ layers (show W) = layers W
  /\ batchGroups (show W) = batchGroups W
  /\ trace (show W) = trace W
  /\ show (hide W) = show W
  /\ ((forall mi r m, _meshInstances (comp W) = Some mi -> r ∈ mi ->
         heap W !! r = Some m -> visible m = true) ->
      show (hide W) = W).
Proof.
  assert (Hoff : forall m, write_visible false (write_visible false m) = write_visible false m)
    by reflexivity.
  assert (Hon : forall m, write_visible true (write_visible true m) = write_visible true m)
    by reflexivity.
  unfold hide, show.
  destruct (_meshInstances (comp W)) as [mi|] eqn:Hmi.
  2: { rewrite Hmi. repeat split; try reflexivity; intros; discriminate. }
  change (_meshInstances (comp (write_each (write_visible false) mi W)))
    with (_meshInstances (comp W)).
  rewrite Hmi.
  split; [intros r; apply write_each_lookup, Hoff|].
  split; [intros r; apply write_each_lookup, Hon|].
  split.
  { intros mi' r m [= <-] Hr Hm.
    rewrite write_each_lookup, decide_True in Hm by assumption.
    destruct (heap W !! r); [|discriminate]. injection Hm as <-. reflexivity. }
  split.
  { intros mi' r m [= <-] Hr Hm.
    rewrite write_each_lookup, decide_True in Hm by assumption.
    destruct (heap W !! r); [|discriminate]. injection Hm as <-. reflexivity. }
  do 8 (split; [reflexivity|]).
  split.
  { apply world_eq; try reflexivity.
    apply map_eq. intros r.
    rewrite !write_each_lookup by assumption.
    destruct (decide (r ∈ mi)) as [Hin|Hout]; [|reflexivity].
    destruct (heap W !! r) as [m|]; reflexivity. }
  intros Hvis. apply world_eq; try reflexivity.
  apply map_eq. intros r.
  rewrite !write_each_lookup by assumption.
  destruct (decide (r ∈ mi)) as [Hin|Hout]; [|reflexivity].
  destruct (heap W !! r) as [m|] eqn:Hm; [|reflexivity]. cbn.
  pose proof (Hvis mi r m eq_refl Hin Hm) as Hv.
  destruct m. cbn in Hv. subst. reflexivity.
Qed.

(** X19. The static flag of the instances stays in step with the
    component. When every instance of the component carries the
    component's flag, it still does after the [isStatic] setter, the
    component holds the assigned value, and the layers are untouched. *)
Theorem set_isStatic_keeps_instances_in_step (W : World) (value : bool) :
  (forall mi r m, _meshInstances (comp W) = Some mi -> r ∈ mi ->
     heap W !! r = Some m -> isStatic m = _isStatic (comp W)) ->
  let W' := set_isStatic value W in
  _isStatic (comp W') = value
  /\ _meshInstances (comp W') = _meshInstances (comp W)
  /\ layers W' = layers W
  /\ (forall mi r m, _meshInstances (comp W) = Some mi -> r ∈ mi ->
        heap W' !! r = Some m -> isStatic m = value)
  /\ (forall mi r, _meshInstances (comp W) = Some mi -> r ∉ mi ->
        heap W' !! r = heap W !! r).
Proof.
  intros Hinv. cbv zeta. unfold set_isStatic.
  destruct (eqb (_isStatic (comp W)) value) eqn:Hsame.
  - apply eqb_prop in Hsame. subst value.
    repeat split; try reflexivity. exact Hinv.
  - cbv zeta. cbn [comp upd_comp _meshInstances with_isStatic].
    destruct (_meshInstances (comp W)) as [mi|] eqn:Hmi.
    + split; [reflexivity|]. split; [cbn; exact Hmi|]. split; [reflexivity|]. split.
      * intros mi' r m [= <-] Hr Hm.
        rewrite write_each_lookup, decide_True in Hm by (reflexivity || assumption).
        cbn [heap upd_comp] in Hm.
        destruct (heap W !! r); [|discriminate]. injection Hm as <-. reflexivity.
      * intros mi' r [= <-] Hr.
        rewrite write_each_lookup, decide_False by (reflexivity || assumption).
        reflexivity.
    + split; [reflexivity|]. split; [cbn; exact Hmi|]. split; [reflexivity|].
      split; [intros mi r m [=]|intros mi r [=]].
Qed.

(** X20. The material of the component reaches the instances of a
    primitive shape and never those of an asset. After assigning a
    material that differs from the current one, the component holds it;
    with the type ["asset"] no mesh instance is written, otherwise every
    instance of the component carries the material and keeps its other
    fields; instances of other components and the layers are untouched.
    The setter and [_setMaterial] are the same function. *)
Theorem set_material_reaches_primitive_instances (W : World) (value : materialRef) :
  _material (comp W) <> value ->
  let W' := set_material value W in
  W' = _setMaterial value W
  /\ _material (comp W') = value
  /\ layers W' = layers W
  /\ (_type (comp W) = "asset"%string -> heap W' = heap W)
  /\ (_type (comp W) <> "asset"%string ->
      forall mi r m, _meshInstances (comp W) = Some mi -> r ∈ mi ->
        heap W !! r = Some m -> heap W' !! r = Some (write_material value m))
  /\ (forall mi r, _meshInstances (comp W) = Some mi -> r ∉ mi ->
        heap W' !! r = heap W !! r).
Proof.
  intros Hne. cbv zeta. unfold set_material, _setMaterial.
  assert (Hneq : Nat.eqb (_material (comp W)) value = false)
    by (apply Nat.eqb_neq; exact Hne).
  rewrite Hneq. cbv zeta. cbn [comp upd_comp _meshInstances _type with_material].
  assert (Hidem : forall m, write_material value (write_material value m)
                            = write_material value m) by reflexivity.
  split; [reflexivity|].
  destruct (_meshInstances (comp W)) as [mi|] eqn:Hmi.
  - destruct (String.eqb_spec (_type (comp W)) "asset") as [Hty|Hty]; cbn [negb].
    + repeat split; try reflexivity. intros Hno. contradiction.
    + split; [reflexivity|]. split; [reflexivity|].
      split; [intros Hyes; contradiction|]. split.
      * intros _ mi' r m [= <-] Hr Hm.
        rewrite write_each_lookup, decide_True by assumption.
        cbn [heap upd_comp]. rewrite Hm. reflexivity.
      * intros mi' r [= <-] Hr.
        rewrite write_each_lookup, decide_False by assumption. reflexivity.
  - repeat split; try reflexivity; intros; discriminate.
Qed.

(** ** The layer set *)

Lemma remove_phase (W : World) (mi : list ref) :
  let W' := for_each_layer (Layer_removeMeshInstances mi)
              (fun lid => LayerRemoveMeshInstances lid mi) W in
  comp W' = comp W /\ heap W' = heap W /\ batchGroups W' = batchGroups W
  /\ forall lid,
       layers W' !! lid
       = if decide (lid ∈ _layers (comp W))
         then Layer_removeMeshInstances mi <$> layers W !! lid
         else layers W !! lid.
Proof.
  cbv zeta.
  destruct (for_each_layer_fields (Layer_removeMeshInstances mi)
              (fun lid => LayerRemoveMeshInstances lid mi) W) as (-> & -> & -> & _).
  repeat split. intros lid. apply for_each_layer_lookup.
  apply Layer_removeMeshInstances_idemp.
Qed.

Lemma add_phase (W : World) (mi : list ref) :
  let W' := for_each_layer (Layer_addMeshInstances mi)
              (fun lid => LayerAddMeshInstances lid mi) W in
  comp W' = comp W /\ heap W' = heap W /\ batchGroups W' = batchGroups W
  /\ forall lid,
       layers W' !! lid
       = if decide (lid ∈ _layers (comp W))
         then Layer_addMeshInstances mi <$> layers W !! lid
         else layers W !! lid.
Proof.
  cbv zeta.
  destruct (for_each_layer_fields (Layer_addMeshInstances mi)
              (fun lid => LayerAddMeshInstances lid mi) W) as (-> & -> & -> & _).
  repeat split. intros lid. apply for_each_layer_lookup.
  apply Layer_addMeshInstances_idemp.
Qed.



Lemma with_layers_same (c : Component) : with_layers (_layers c) (with_layers [] c) = c.
Proof. destruct c. reflexivity. Qed.

(** X23. Assigning the layer ids the component already has, as another
    array, is the detach and re-attach of the entity: the setter ends in
    the state that [onRemoveChild] followed by [onInsertChild] reaches,
    with the same calls to the layers in the same order. *)
Theorem set_layers_same_ids_is_reinsert (W : World) :
  set_layers (NewArray (_layers (comp W))) W = and_then (onRemoveChild W) onInsertChild.
Proof.
  unfold set_layers, onRemoveChild, removeFromLayers. cbv zeta.
  destruct (_meshInstances (comp W)) as [mi|] eqn:Hmi.
  - cbn [and_then].
    destruct (remove_phase W mi) as (Hc1 & _). cbv zeta in *.
    set (W1 := for_each_layer (Layer_removeMeshInstances mi)
                 (fun lid => LayerRemoveMeshInstances lid mi) W) in *.
    assert (Hsame : upd_comp (with_layers (_layers (comp W)))
                      (upd_comp (with_layers []) W1) = W1).
    { apply world_eq; try reflexivity. cbn [comp upd_comp].
      rewrite <- Hc1. apply with_layers_same. }
    rewrite Hsame. unfold onInsertChild, addToLayers. rewrite Hc1, Hmi.
    destruct (enabled (comp W)), (entity_enabled (comp W)); reflexivity.
  - cbn [and_then].
    assert (Hsame : upd_comp (with_layers (_layers (comp W)))
                      (upd_comp (with_layers []) W) = W).
    { apply world_eq; try reflexivity. cbn [comp upd_comp]. apply with_layers_same. }
    rewrite Hsame. unfold onInsertChild. rewrite Hmi.
    destruct (negb (enabled (comp W)) || negb (entity_enabled (comp W))); reflexivity.
Qed.

(** ** Binding and unbinding *)

Lemma remove_all_push_absent (l xs ys : list ref) :
  (forall x, x ∈ xs -> x ∈ ys) ->
  remove_all (push_absent l xs) ys = remove_all l ys.
Proof.
  unfold push_absent, remove_all. revert l.
  induction xs as [|m xs IH]; intros l Hsub; cbn [foldl]; [reflexivity|].
  rewrite IH by (intros x Hx; apply Hsub; right; exact Hx).
  destruct (bool_decide (m ∈ l)); [reflexivity|].
  rewrite filter_app, filter_cons, filter_nil.
  rewrite decide_False by (intros Hn; apply Hn, Hsub; left).
  apply app_nil_r.
Qed.

(** X24. Binding and unbinding settle after one call. A second
    [addToLayers] (or [removeFromLayers]) changes no layer, neither call
    creates a layer, and unbinding after binding leaves no instance of the
    component in a layer of its layer set. *)
Theorem bind_unbind_settle (W : World) (mi : list ref) :
  _meshInstances (comp W) = Some mi ->
  exists Wa Wa2 Wr Wr2 War,
    addToLayers W = Normal Wa /\ addToLayers Wa = Normal Wa2
    /\ removeFromLayers W = Normal Wr /\ removeFromLayers Wr = Normal Wr2
    /\ removeFromLayers Wa = Normal War
    /\ layers Wa2 = layers Wa
    /\ layers Wr2 = layers Wr
    /\ layers War = layers Wr
    /\ (forall lid, is_Some (layers Wa !! lid) <-> is_Some (layers W !! lid))
    /\ (forall lid, is_Some (layers Wr !! lid) <-> is_Some (layers W !! lid))
    /\ (forall lid L' r, lid ∈ _layers (comp W) -> layers War !! lid = Some L' ->
          r ∈ mi -> r ∉ meshInstances L').
Proof.
  intros Hmi.
  destruct (add_phase W mi) as (Hca & _ & _ & Hla).
  destruct (remove_phase W mi) as (Hcr & _ & _ & Hlr). cbv zeta in *.
  set (Wa := for_each_layer (Layer_addMeshInstances mi)
               (fun lid => LayerAddMeshInstances lid mi) W) in *.
  set (Wr := for_each_layer (Layer_removeMeshInstances mi)
               (fun lid => LayerRemoveMeshInstances lid mi) W) in *.
  destruct (add_phase Wa mi) as (_ & _ & _ & Hla2).
  destruct (remove_phase Wr mi) as (_ & _ & _ & Hlr2).
  destruct (remove_phase Wa mi) as (_ & _ & _ & Hlar). cbv zeta in *.
  rewrite Hca in Hla2, Hlar. rewrite Hcr in Hlr2.
  exists Wa, (for_each_layer (Layer_addMeshInstances mi)
                (fun lid => LayerAddMeshInstances lid mi) Wa),
         Wr, (for_each_layer (Layer_removeMeshInstances mi)
                (fun lid => LayerRemoveMeshInstances lid mi) Wr),
         (for_each_layer (Layer_removeMeshInstances mi)
                (fun lid => LayerRemoveMeshInstances lid mi) Wa).
  split; [unfold addToLayers; rewrite Hmi; reflexivity|].
  split; [unfold addToLayers; rewrite Hca, Hmi; reflexivity|].
  split; [unfold removeFromLayers; rewrite Hmi; reflexivity|].
  split; [unfold removeFromLayers; rewrite Hcr, Hmi; reflexivity|].
  split; [unfold removeFromLayers; rewrite Hca, Hmi; reflexivity|].
  split.
  { apply map_eq. intros lid. rewrite Hla2, Hla.
    destruct (decide (lid ∈ _layers (comp W))); [|reflexivity].
    destruct (layers W !! lid); cbn; [|reflexivity].
    rewrite Layer_addMeshInstances_idemp. reflexivity. }
  split.
  { apply map_eq. intros lid. rewrite Hlr2, Hlr.
    destruct (decide (lid ∈ _layers (comp W))); [|reflexivity].
    destruct (layers W !! lid); cbn; [|reflexivity].
    rewrite Layer_removeMeshInstances_idemp. reflexivity. }
  split.
  { apply map_eq. intros lid. rewrite Hlar, Hla, Hlr.
    destruct (decide (lid ∈ _layers (comp W))); [|reflexivity].
    destruct (layers W !! lid) as [L|]; cbn; [|reflexivity].
    f_equal. unfold Layer_removeMeshInstances, Layer_addMeshInstances. cbn. f_equal.
    apply remove_all_push_absent. auto. }
  split.
  { intros lid. rewrite Hla. destruct (decide (lid ∈ _layers (comp W))); [|tauto].
    rewrite fmap_is_Some. tauto. }
  split.
  { intros lid. rewrite Hlr. destruct (decide (lid ∈ _layers (comp W))); [|tauto].
    rewrite fmap_is_Some. tauto. }
  intros lid L' r Hin HL' Hr. rewrite Hlar, decide_True in HL' by exact Hin.
  destruct (layers Wa !! lid); [|discriminate]. injection HL' as <-. cbn.
  rewrite elem_of_remove_all. tauto.
Qed.

(** ** The batcher *)

Lemma batcher_insert_fields (W : World) (g : Z) :
  let W' := batcher_insert g (entity (comp W)) W in
  comp W' = comp W
  /\ heap W' = heap W
  /\ batchGroups W'
     = <[g := push_absent (default [] (batchGroups W !! g)) [entity (comp W)]]>
         (batchGroups W)
  /\ (forall lid,
        layers W' !! lid
        = match _meshInstances (comp W) with
          | Some mi =>
              if decide (lid ∈ _layers (comp W))
              then Layer_removeMeshInstances mi <$> layers W !! lid
              else layers W !! lid
          | None => layers W !! lid
          end).
Proof.
  cbv zeta. unfold batcher_insert. cbv zeta.
  cbn [comp log upd_batchGroups].
  destruct (_meshInstances (comp W)) as [mi|] eqn:Hmi.
  - rewrite bool_decide_eq_true_2 by reflexivity.
    match goal with
    | |- context [for_each_layer _ _ ?X] =>
        destruct (remove_phase X mi) as (-> & -> & -> & Hl)
    end.
    repeat split. exact Hl.
  - repeat split.
Qed.

Lemma batcher_remove_fields (W : World) (g : Z) (n : nodeRef) :
  let W' := batcher_remove g n W in
  comp W' = comp W
  /\ heap W' = heap W
  /\ layers W' = layers W
  /\ batchGroups W' = alter (fun members => remove_all members [n]) g (batchGroups W).
Proof. repeat split. Qed.



(** X26. Changing from one batch group to another moves the entity. With
    the entity enabled and both ids non-negative and different, the
    setter first takes the entity out of the old group and then inserts
    it into the new one; afterwards the old group does not hold the
    entity, the new one does, the other groups are untouched, and the
    component stores the new id. *)
Theorem set_batchGroupId_moves_between_groups (W : World) (g1 g2 : Z) :
  entity_enabled (comp W) = true ->
  _batchGroupId (comp W) = g1 ->
  0 <= g1 -> 0 <= g2 -> g1 <> g2 ->
  exists W' rest,
    set_batchGroupId g2 W = Normal W'
    /\ _batchGroupId (comp W') = g2
    /\ trace W'
       = trace W ++ BatcherRemove g1 (entity (comp W))
                 :: BatcherInsert g2 (entity (comp W)) :: rest
    /\ (forall members, batchGroups W' !! g1 = Some members ->
          entity (comp W) ∉ members)
    /\ (exists members, batchGroups W' !! g2 = Some members
                        /\ entity (comp W) ∈ members)
    /\ (forall g, g <> g1 -> g <> g2 -> batchGroups W' !! g = batchGroups W !! g)
    /\ heap W' = heap W.
Proof.
  intros Hee Hbg H1 H2 Hne. unfold set_batchGroupId. cbv zeta. rewrite Hbg, Hee.
  assert (Hq : (g1 =? g2) = false) by (apply Z.eqb_neq; exact Hne).
  assert (Hp1 : (0 <=? g1) = true) by (apply Z.leb_le; exact H1).
  assert (Hp2 : (0 <=? g2) = true) by (apply Z.leb_le; exact H2).
  assert (Hn2 : (g2 <? 0) = false) by (apply Z.ltb_ge; exact H2).
  rewrite Hq, Hp1, Hp2, Hn2. cbn [andb and_then].
  set (W1 := batcher_remove g1 (entity (comp W)) W).
  destruct (batcher_insert_fields W1 g2) as (Hci & Hhi & Hbi & _). cbv zeta in *.
  change (entity (comp W1)) with (entity (comp W)) in *.
  assert (Htr : exists rest,
            trace (batcher_insert g2 (entity (comp W)) W1)
            = trace W ++ BatcherRemove g1 (entity (comp W))
                      :: BatcherInsert g2 (entity (comp W)) :: rest).
  { unfold batcher_insert. cbv zeta. cbn [comp log upd_batchGroups].
    destruct (_meshInstances (comp W1)) as [mi|].
    - rewrite bool_decide_eq_true_2 by reflexivity.
      rewrite for_each_layer_trace. cbn [trace log upd_batchGroups batcher_remove W1].
      eexists. rewrite <- !app_assoc. cbn [app]. reflexivity.
    - cbn [trace log upd_batchGroups batcher_remove W1].
      exists []. rewrite <- !app_assoc. reflexivity. }
  destruct Htr as (rest & Htr).
  eexists. exists rest. split; [reflexivity|].
  cbn [comp upd_comp _batchGroupId with_batchGroupId trace batchGroups heap].
  split; [reflexivity|]. split; [exact Htr|]. rewrite Hbi, Hhi.
  cbn [batchGroups heap batcher_remove W1 log upd_batchGroups].
  split; [|split; [|split]].
  - intros members Hm.
    rewrite lookup_insert_ne, lookup_alter_eq in Hm by (intros Heq; apply Hne; symmetry; exact Heq).
    destruct (batchGroups W !! g1) as [ms|]; [|discriminate].
    cbn [fmap option_fmap option_map] in Hm. injection Hm as <-.
    rewrite elem_of_remove_all. intros [_ Hno]. apply Hno. left.
  - eexists. split; [apply lookup_insert_eq|].
    apply elem_of_push_absent. right. left.
  - intros g Hg1 Hg2.
    rewrite lookup_insert_ne, lookup_alter_ne
      by (intros Heq; first [apply Hg1; symmetry; exact Heq|apply Hg2; symmetry; exact Heq]).
    reflexivity.
  - reflexivity.
Qed.

(** X27. While the entity is disabled the [batchGroupId] setter only
    stores the id: it calls neither the batcher nor a layer, whatever the
    old and the new id are. *)
Theorem set_batchGroupId_disabled_entity_only_stores (W : World) (value : Z) :
  entity_enabled (comp W) = false ->
  exists W',
    set_batchGroupId value W = Normal W'
    /\ _batchGroupId (comp W') = value
    /\ batchGroups W' = batchGroups W
    /\ layers W' = layers W
    /\ heap W' = heap W
    /\ trace W' = trace W.
Proof.
  intros Hee. unfold set_batchGroupId. cbv zeta. rewrite Hee.
  destruct (Z.eqb_spec (_batchGroupId (comp W)) value) as [Heq|Hne].
  - exists W. repeat split; try reflexivity. exact Heq.
  - rewrite !andb_false_r. cbn [andb and_then].
    eexists. split; [reflexivity|]. repeat split; reflexivity.
Qed.

(** ** Assigning mesh instances *)

Lemma stamp_flags_idemp (c : Component) (m : MeshInstance) :
  stamp_flags c (stamp_flags c m) = stamp_flags c m.
Proof. reflexivity. Qed.

(** X28. The [meshInstances] setter stamps the component's flags on the
    new instances and registers them only while enabled. It completes
    normally for every list; each new instance gets the component's
    cast-shadow, receive-shadow and static flags and keeps its other
    fields, and [setLightmapped] is not called on it: the assignment
    [this.lightmapped = this._lightmapped] is skipped by the guard of that
    setter. A layer holds a new instance afterwards exactly when the
    component and its entity are enabled and the layer set names the
    layer, or when the instance was there before and was not taken out
    with the old list. *)
Theorem set_meshInstances_stamps_and_registers (W : World) (mi : list ref) :
  exists W',
    set_meshInstances (Some mi) W = Normal W'
    /\ _meshInstances (comp W') = Some mi
    /\ _lightmapped (comp W') = _lightmapped (comp W)
    /\ (forall r,
          heap W' !! r
          = if decide (r ∈ mi) then stamp_flags (comp W) <$> heap W !! r
            else heap W !! r)
    /\ (forall lid, layers W !! lid = None -> layers W' !! lid = None)
    /\ (forall lid L, layers W !! lid = Some L ->
          exists L', layers W' !! lid = Some L'
            /\ forall r, r ∈ meshInstances L' <->
                 (r ∈ mi /\ enabled (comp W) && entity_enabled (comp W) = true
                         /\ lid ∈ _layers (comp W))
                 \/ (r ∈ meshInstances L
                     /\ forall old, _meshInstances (comp W) = Some old ->
                          lid ∈ _layers (comp W) -> r ∉ old)).
Proof.
  (* the world after the old list has been unbound *)
  assert (Hun : exists W1,
             match _meshInstances (comp W) with
             | Some _ => removeFromLayers W
             | None => Normal W
             end = Normal W1
             /\ comp W1 = comp W /\ heap W1 = heap W
             /\ forall lid,
                  layers W1 !! lid
                  = match _meshInstances (comp W) with
                    | Some old =>
                        if decide (lid ∈ _layers (comp W))
                        then Layer_removeMeshInstances old <$> layers W !! lid
                        else layers W !! lid
                    | None => layers W !! lid
                    end).
  { unfold removeFromLayers.
    destruct (_meshInstances (comp W)) as [old|] eqn:Hold.
    - destruct (remove_phase W old) as (Hc & Hh & _ & Hl).
      eexists. split; [reflexivity|]. repeat split; assumption.
    - exists W. repeat split; reflexivity. }
  destruct Hun as (W1 & Hrun1 & Hc1 & Hh1 & Hl1).
  unfold set_meshInstances. rewrite Hrun1. cbn [and_then]. cbv zeta.
  rewrite set_lightmapped_same.
  match goal with
  | |- context [if _ then addToLayers ?X else Normal ?X] => set (W4 := X)
  end.
  assert (Hc4 : comp W4 = with_meshInstances (Some mi) (comp W))
    by (unfold W4; cbn [comp upd_heap log upd_comp]; rewrite Hc1; reflexivity).
  assert (Hl4 : layers W4 = layers W1) by reflexivity.
  assert (Hh4 : forall r,
            heap W4 !! r
            = if decide (r ∈ mi) then stamp_flags (comp W) <$> heap W !! r
              else heap W !! r).
  { intros r. unfold W4. cbn [heap upd_heap log upd_comp comp].
    rewrite (fold_alter_lookup _ mi r (stamp_flags_idemp _)), Hh1, Hc1.
    reflexivity. }
  assert (Hrem : forall lid L r, layers W !! lid = Some L ->
            exists L1, layers W1 !! lid = Some L1
              /\ (r ∈ meshInstances L1
                  <-> r ∈ meshInstances L
                      /\ forall old, _meshInstances (comp W) = Some old ->
                           lid ∈ _layers (comp W) -> r ∉ old)).
  { intros lid L r HL. rewrite Hl1, HL.
    destruct (_meshInstances (comp W)) as [old|].
    - destruct (decide (lid ∈ _layers (comp W))) as [Hin|Hout].
      + eexists. split; [reflexivity|].
        unfold Layer_removeMeshInstances. cbn [meshInstances].
        rewrite elem_of_remove_all. split.
        * intros [HrL Hr]. split; [exact HrL|]. intros old' [= <-] _. exact Hr.
        * intros [HrL Hr]. split; [exact HrL|]. exact (Hr old eq_refl Hin).
      + exists L. split; [reflexivity|]. split; [|tauto].
        intros HrL. split; [exact HrL|]. intros old' _ Hin. contradiction.
    - exists L. split; [reflexivity|]. split; [|tauto].
      intros HrL. split; [exact HrL|]. intros old [=]. }
  assert (He4 : enabled (comp W4) && entity_enabled (comp W4)
                = enabled (comp W) && entity_enabled (comp W))
    by (rewrite Hc4; reflexivity).
  rewrite He4.
  destruct (enabled (comp W) && entity_enabled (comp W)) eqn:Hact.
  - unfold addToLayers.
    assert (Hm4 : _meshInstances (comp W4) = Some mi) by (rewrite Hc4; reflexivity).
    rewrite Hm4.
    destruct (add_phase W4 mi) as (Hc5 & Hh5 & _ & Hl5). cbv zeta in *.
    assert (Hly4 : _layers (comp W4) = _layers (comp W)) by (rewrite Hc4; reflexivity).
    eexists. split; [reflexivity|].
    split; [rewrite Hc5; exact Hm4|].
    split; [rewrite Hc5, Hc4; reflexivity|].
    split; [intros r; rewrite Hh5; apply Hh4|]. split.
    + intros lid HL. rewrite Hl5, Hl4, Hl1, HL.
      destruct (_meshInstances (comp W));
        destruct (decide (lid ∈ _layers (comp W4)));
        try destruct (decide (lid ∈ _layers (comp W))); reflexivity.
    + intros lid L HL.
      destruct (Hrem lid L 0%nat HL) as (L1 & HL1 & _).
      rewrite Hl5, Hl4, HL1, Hly4.
      destruct (decide (lid ∈ _layers (comp W))) as [Hin|Hout].
      * eexists. split; [reflexivity|]. intros r.
        unfold Layer_addMeshInstances. cbn [fmap option_fmap option_map meshInstances].
        rewrite elem_of_push_absent.
        destruct (Hrem lid L r HL) as (L1' & HL1' & Hmem).
        rewrite HL1 in HL1'. injection HL1' as <-. rewrite Hmem. tauto.
      * exists L1. split; [reflexivity|]. intros r.
        destruct (Hrem lid L r HL) as (L1' & HL1' & Hmem).
        rewrite HL1 in HL1'. injection HL1' as <-. rewrite Hmem. tauto.
  - exists W4. split; [reflexivity|].
    split; [rewrite Hc4; reflexivity|].
    split; [rewrite Hc4; reflexivity|].
    split; [exact Hh4|]. split.
    + intros lid HL. rewrite Hl4, Hl1, HL.
      destruct (_meshInstances (comp W));
        try destruct (decide (lid ∈ _layers (comp W))); reflexivity.
    + intros lid L HL.
      destruct (Hrem lid L 0%nat HL) as (L1 & HL1 & _).
      exists L1. rewrite Hl4. split; [exact HL1|]. intros r.
      destruct (Hrem lid L r HL) as (L1' & HL1' & Hmem).
      rewrite HL1 in HL1'. injection HL1' as <-. rewrite Hmem.
      split; [tauto|]. intros [(_ & Hf & _)|?]; [discriminate|tauto].
Qed.

(** ** The type *)

(** X29. Inside the editor, switching the type to a primitive shape always
    raises. The setter stores the type and the area, assigns one fresh
    mesh instance built from the primitive's mesh and the component's
    material, and then calls [generateWireframe], whose second loop names
    the unbound [RENDERSTYLE_WIREFRAME]: the ReferenceError leaves the
    setter after all of these writes, and no layer has been called. *)
Theorem set_type_in_tools_raises (W : World) (value : string) area primMesh :
  _type (comp W) <> value ->
  value <> "asset"%string ->
  getShapePrimitive value = Some (area, primMesh) ->
  inTools W = true ->
  exists W',
    set_type value W = Thrown ReferenceError W'
    /\ _type (comp W') = value
    /\ _area (comp W') = Some area
    /\ _meshInstances (comp W') = Some [fresh (dom (heap W))]
    /\ heap W' !! fresh (dom (heap W))
       = Some (newMeshInstance (entity (comp W)) primMesh (_material (comp W)))
    /\ (forall r, r <> fresh (dom (heap W)) -> heap W' !! r = heap W !! r)
    /\ layers W' = layers W.
Proof.
  intros Hty Hna Hprim Htools. unfold set_type.
  apply String.eqb_neq in Hty, Hna. rewrite Hty, Hna. cbn [negb]. cbv zeta.
  rewrite Hprim.
  cbn [inTools log upd_comp upd_heap comp heap]. rewrite Htools.
  unfold generateWireframe.
  cbn [comp log upd_comp upd_heap _meshInstances with_meshInstances with_area with_type].
  eexists. split; [reflexivity|].
  cbn [comp heap layers log upd_comp upd_heap _type _area _meshInstances entity _material
       with_meshInstances with_area with_type].
  split; [reflexivity|]. split; [reflexivity|]. split; [reflexivity|].
  split; [apply lookup_insert_eq|]. split; [|reflexivity].
  intros r Hr. apply lookup_insert_ne. congruence.
Qed.

(** X30. Switching the type to ["asset"] keeps the mesh instances. The
    setter stores the type and clears the area and does nothing else: the
    instance of the primitive shape is still the component's, and no mesh
    instance, layer or batch group is touched. Assigning the type the
    component already has changes nothing. *)
Theorem set_type_asset_keeps_instances (W : World) :
  _type (comp W) <> "asset"%string ->
  exists W',
    set_type "asset" W = Normal W'
    /\ _type (comp W') = "asset"%string
    /\ _area (comp W') = None
    /\ _meshInstances (comp W') = _meshInstances (comp W)
    /\ _layers (comp W') = _layers (comp W)
    /\ heap W' = heap W
    /\ layers W' = layers W
    /\ batchGroups W' = batchGroups W
    /\ trace W' = trace W
    /\ set_type (_type (comp W)) W = Normal W.
Proof.
  intros Hty. unfold set_type.
  apply String.eqb_neq in Hty. rewrite Hty. cbn [negb String.eqb]. cbv zeta.
  rewrite String.eqb_refl.
  eexists. split; [reflexivity|]. repeat split; reflexivity.
Qed.

End Facts.

Lemma hide_then_show_restores_witness :
  heap (hide sample_world) !! 10%nat
  = Some {| node := 1%nat; mesh := 5%nat; material := 3%nat; castShadow := true;
            receiveShadow := true; isStatic := false; visible := false |}
  /\ layers (hide sample_world) = layers sample_world
  /\ show (hide sample_world) = sample_world.
Proof.
  assert (Hvis : forall mi r m,
            _meshInstances (comp sample_world) = Some mi -> r ∈ mi ->
            heap sample_world !! r = Some m -> visible m = true).
  { intros mi r m Hmi Hr Hm. cbn in Hmi. injection Hmi as <-.
    apply elem_of_cons in Hr as [->|Hr].
    - vm_compute in Hm. injection Hm as <-. reflexivity.
    - apply list_elem_of_singleton in Hr as ->.
      vm_compute in Hm. injection Hm as <-. reflexivity. }
  destruct (hide_then_show_restores sample_world)
    as (Hh & _ & _ & _ & _ & Hl & _ & _ & _ & _ & _ & _ & _ & Hs).
  split; [rewrite Hh; vm_compute; reflexivity|].
  split; [exact Hl|exact (Hs Hvis)].
Defined.

Lemma set_isStatic_keeps_instances_in_step_witness :
  _isStatic (comp (set_isStatic true sample_world)) = true
  /\ forall mi r m, _meshInstances (comp sample_world) = Some mi -> r ∈ mi ->
       heap (set_isStatic true sample_world) !! r = Some m -> isStatic m = true.
Proof.
  assert (Hinv : forall mi r m,
            _meshInstances (comp sample_world) = Some mi -> r ∈ mi ->
            heap sample_world !! r = Some m -> isStatic m = _isStatic (comp sample_world)).
  { intros mi r m Hmi Hr Hm. cbn in Hmi. injection Hmi as <-.
    apply elem_of_cons in Hr as [->|Hr].
    - vm_compute in Hm. injection Hm as <-. reflexivity.
    - apply list_elem_of_singleton in Hr as ->.
      vm_compute in Hm. injection Hm as <-. reflexivity. }
  destruct (set_isStatic_keeps_instances_in_step sample_world true Hinv)
    as (Hflag & _ & _ & Hall & _).
  split; [exact Hflag|exact Hall].
Defined.

Lemma set_material_reaches_primitive_instances_witness :
  _material (comp (set_material 4%nat sample_world)) = 4%nat
  /\ heap (set_material 4%nat sample_world) = heap sample_world.
Proof.
  assert (Hne : _material (comp sample_world) <> 4%nat) by (cbn; lia).
  destruct (set_material_reaches_primitive_instances sample_world 4%nat Hne)
    as (_ & Hm & _ & Hasset & _).
  split; [exact Hm|]. apply Hasset. reflexivity.
Defined.


Lemma bind_unbind_settle_witness :
  exists Wa War,
    addToLayers detached_world = Normal Wa
    /\ removeFromLayers Wa = Normal War
    /\ layers Wa !! 0 = Some {| meshInstances := [20%nat; 10%nat; 11%nat];
                                shadowCasters := [20%nat] |}
    /\ layers War = layers detached_world.
Proof.
  destruct (bind_unbind_settle detached_world [10%nat; 11%nat] eq_refl)
    as (Wa & _ & _ & _ & War & Ha & _ & _ & _ & Har & _).
  exists Wa, War. split; [exact Ha|]. split; [exact Har|].
  vm_compute in Ha. injection Ha as <-.
  vm_compute in Har. injection Har as <-.
  split; vm_compute; reflexivity.
Defined.

Lemma set_batchGroupId_moves_between_groups_witness :
  exists W',
    set_batchGroupId 8 batched_world = Normal W'
    /\ _batchGroupId (comp W') = 8
    /\ batchGroups W' !! 6 = Some []
    /\ batchGroups W' !! 8 = Some [1%nat].
Proof.
  destruct (set_batchGroupId_moves_between_groups batched_world 6 8
              eq_refl eq_refl ltac:(lia) ltac:(lia) ltac:(lia))
    as (W' & rest & Hrun & Hid & _).
  exists W'. split; [exact Hrun|]. split; [exact Hid|].
  vm_compute in Hrun. injection Hrun as <-.
  split; vm_compute; reflexivity.
Defined.

Lemma set_batchGroupId_disabled_entity_only_stores_witness :
  exists W',
    set_batchGroupId 6 disabled_entity_world = Normal W'
    /\ _batchGroupId (comp W') = 6
    /\ batchGroups W' = batchGroups disabled_entity_world
    /\ layers W' = layers disabled_entity_world.
Proof.
  destruct (set_batchGroupId_disabled_entity_only_stores disabled_entity_world 6 eq_refl)
    as (W' & Hrun & Hid & Hb & Hl & _).
  exists W'. split; [exact Hrun|]. split; [exact Hid|]. split; [exact Hb|exact Hl].
Defined.

Lemma set_type_in_tools_raises_witness :
  exists W',
    set_type "box" tools_world = Thrown ReferenceError W'
    /\ _type (comp W') = "box"%string
    /\ _meshInstances (comp W') = Some [21%nat]
    /\ layers W' = layers tools_world.
Proof.
  destruct (set_type_in_tools_raises tools_world "box" tt 9%nat
              ltac:(discriminate) ltac:(discriminate) eq_refl eq_refl)
    as (W' & Hrun & Hty & _ & Hmi & _ & _ & Hl).
  exists W'. split; [exact Hrun|]. split; [exact Hty|]. split; [exact Hmi|exact Hl].
Defined.

Lemma set_type_asset_keeps_instances_witness :
  exists W',
    set_type "asset" (outcome_state (set_type "box" sample_world)) = Normal W'
    /\ _type (comp W') = "asset"%string
    /\ _meshInstances (comp W') = Some [21%nat].
Proof.
  destruct (set_type_asset_keeps_instances (outcome_state (set_type "box" sample_world))
              ltac:(discriminate))
    as (W' & Hrun & Hty & _ & Hmi & _).
  exists W'. split; [exact Hrun|]. split; [exact Hty|exact Hmi].
Defined.

End RenderComponentMoreFacts.
